(** * OllamaHandler: context sizing, model-info cache, message
      normalisation and the streaming execution controller.

    A shallow embedding of [src/handlers/OllamaHandler.ts].

    Conventions of the model.
    - JavaScript strings are [string]s; a character stands for one code
      unit, so [String.length] is [.length] (code units above 255 are not
      represented; of the line terminators only LF and CR exist here).
    - The numbers that reach the optimizer are string lengths and context
      sizes, all integers ([Z]).  The two non-integer constants 2.5 and 1.2
      are rationals; on integer arguments far below 2^50 the IEEE-754
      results of [Math.ceil (n / 2.5)] and [Math.ceil (m * 1.2)] coincide
      with the exact rational ones, which is what [Qceiling] computes.
      [Math.max ()] of no argument is [-Infinity], kept as [NegInfinity].
    - The handler's mutable state ([modelInfoCache]) and the calls it makes
      on the backend are threaded through a small state-and-exception
      monad; the detached generation task of [execute] is a step function
      driven by a schedule of caller operations and task resumptions. *)

From Stdlib Require Import ZArith QArith Qround String Ascii List Bool Lia.
From stdpp Require Import gmap strings.
Import ListNotations.

Open Scope string_scope.
Open Scope list_scope.
Open Scope Z_scope.

(* ===================================================================== *)
(** ** Strings as the source uses them                                    *)
(* ===================================================================== *)

Module Str.

(** [s.endsWith(suffix)] *)
Definition endsWith (s suffix : string) : bool :=
  let n := String.length s in
  let k := String.length suffix in
  (k <=? n)%nat && String.eqb (String.substring (n - k) k s) suffix.

(** [s] without its first [n] characters ([s.slice(n)]). *)
Fixpoint drop (n : nat) (s : string) : string :=
  match n, s with
  | O, _ => s
  | S _, EmptyString => EmptyString
  | S n', String _ s' => drop n' s'
  end.

(** Does [needle] occur somewhere in [hay]?  ([hay.includes(needle)]) *)
Fixpoint includes (needle hay : string) : bool :=
  String.prefix needle hay
  || match hay with
     | EmptyString => false
     | String _ hay' => includes needle hay'
     end.

(** [true] when no character of [s] satisfies [p]. *)
Fixpoint none (p : ascii -> bool) (s : string) : bool :=
  match s with
  | EmptyString => true
  | String c s' => negb (p c) && none p s'
  end.

(** [xs.join(sep)] *)
Fixpoint join (sep : string) (xs : list string) : string :=
  match xs with
  | [] => ""
  | [x] => x
  | x :: rest => x +:+ sep +:+ join sep rest
  end.

(** [n] copies of [c] (["c".repeat(n)]). *)
Fixpoint repeat (c : ascii) (n : nat) : string :=
  match n with
  | O => EmptyString
  | S n' => String c (repeat c n')
  end.

End Str.

(** JavaScript truthiness of the values the handler tests. *)
Definition truthy_string (s : string) : bool := negb (String.eqb s "").
Definition truthy_num (n : Z) : bool := negb (n =? 0).

(** [x || d] on numbers. *)
Definition num_or (x d : Z) : Z := if truthy_num x then x else d.

(* ===================================================================== *)
(** ** Constants and the context optimizer                                *)
(* ===================================================================== *)

Definition SYMBOLS_PER_TOKEN : Q := 5 # 2.          (* 2.5 *)
Definition DEFAULT_CONTEXT_LENGTH : Z := 2048.
Definition EMBEDDING_CONTEXT_LENGTH : Z := 2048.
Definition CONTEXT_BUFFER_MULTIPLIER : Q := 6 # 5.  (* 1.2, a 20% buffer *)

(** A length as [embed] can compute it: [Math.max (...[])] is [-Infinity]. *)
Inductive JsLength : Type :=
| NegInfinity
| Len (n : Z).

(** [Math.ceil (inputLength / SYMBOLS_PER_TOKEN)] *)
Definition estimateTokens (inputLength : JsLength) : JsLength :=
  match inputLength with
  | NegInfinity => NegInfinity
  | Len n => Len (Qceiling (inject_Z n / SYMBOLS_PER_TOKEN))
  end.

(** [a <= b] and [Math.max (a, b)] for a possibly infinite [a]. *)
Definition len_leb (a : JsLength) (b : Z) : bool :=
  match a with
  | NegInfinity => true
  | Len x => x <=? b
  end.

Definition len_max (a : JsLength) (b : Z) : Z :=
  match a with
  | NegInfinity => b
  | Len x => Z.max x b
  end.

(** The result [{ num_ctx?: number, shouldUpdate: boolean }]. *)
Record ContextDecision : Type := mkDecision {
  num_ctx : option Z;
  shouldUpdate : bool
}.

Definition optimizeContext
    (inputLength : JsLength)
    (lastContextLength defaultContextLength limit : Z) : ContextDecision :=
  let estimatedTokens := estimateTokens inputLength in
  if len_leb estimatedTokens lastContextLength then
    {| num_ctx := if lastContextLength >? defaultContextLength
                  then Some lastContextLength else None;
       shouldUpdate := false |}
  else
    let targetLength :=
      Z.min
        (Qceiling
           (inject_Z (len_max estimatedTokens defaultContextLength)
            * CONTEXT_BUFFER_MULTIPLIER))
        limit in
    let shouldUpdate := targetLength >? lastContextLength in
    {| num_ctx := Some targetLength; shouldUpdate := shouldUpdate |}.

(* ===================================================================== *)
(** ** Data model                                                         *)
(* ===================================================================== *)

(** [IAIProvider], as far as the handler reads it.  Both fields are
    optional in the SDK ([provider.url || ''], [provider.model || ""]). *)
Record IAIProvider : Type := mkProvider {
  url : option string;
  model : option string
}.

(** Cached per-model context information. *)
Record ModelInfo : Type := mkModelInfo {
  contextLength : Z;
  lastContextLength : Z
}.

(** Values found in [response.model_info]: only numbers are inspected. *)
Inductive JsValue : Type :=
| JNumber (n : Z)
| JOther (repr : string).

Inductive Error : Type :=
| Err (message : string).

(** What [ollama.show] does: it throws, or answers with an object whose
    [model_info] may be missing. *)
Inductive ShowResult : Type :=
| ShowThrows (e : Error)
| ShowAnswers (model_info : option (list (string * JsValue))).

(** [string | string[]] of the embed parameters. *)
Inductive EmbedInput : Type :=
| InputText (s : string)
| InputList (xs : list string).

Record EmbedRequest : Type := mkEmbedRequest {
  er_model : string;
  er_input : EmbedInput;
  er_num_ctx : option Z
}.

(** What [ollama.embed] does: it throws, or answers; [None] stands for a
    null response or one without [embeddings]. *)
Inductive EmbedResult : Type :=
| EmbedThrows (e : Error)
| EmbedAnswers (embeddings : option (list (list Q))).

(** Messages as the caller supplies them. *)
Inductive ContentBlock : Type :=
| TextBlock (text : string)
| ImageUrlBlock (image_url : option string).

Inductive MessageContent : Type :=
| Plain (s : string)
| Blocks (bs : list ContentBlock).

Record IChatMessage : Type := mkIChatMessage {
  msg_role : string;
  msg_content : MessageContent;
  msg_images : option (list string)
}.

(** Messages as they are sent: [{ role; content; images? }]. *)
Record ChatMessage : Type := mkChatMessage {
  role : string;
  content : string;
  images : option (list string)
}.

Record ChatRequest : Type := mkChatRequest {
  cr_model : string;
  cr_messages : list ChatMessage;
  cr_options : option (gmap string JsValue)
}.

(** One streamed part: [{ message?: { content?: string } }]. *)
Record ChatResponseMessage : Type := mkResponseMessage {
  rm_content : option string
}.

Record ExtendedChatResponse : Type := mkPart {
  message : option ChatResponseMessage
}.

(** How the stream returned by [ollama.chat] finishes. *)
Inductive StreamEnding : Type :=
| EndsCleanly
| Raises (e : Error).

Inductive ChatResult : Type :=
| ChatRejects (e : Error)
| ChatStreams (parts : list ExtendedChatResponse) (ending : StreamEnding).

(** The backend reached through [getClient provider fetch]: the first
    argument of each operation is the client's host. *)
Record Backend : Type := mkBackend {
  b_show : string -> string -> ShowResult;
  b_embed : string -> EmbedRequest -> EmbedResult;
  b_chat : string -> ChatRequest -> ChatResult
}.

Inductive BackendCall : Type :=
| CallShow (host model_name : string)
| CallEmbed (host : string) (request : EmbedRequest)
| CallChat (host : string) (request : ChatRequest).

(** [IAIProvidersExecuteParams]: either [messages] or [prompt] (with
    [systemPrompt] and [images]); [None] is an absent key. *)
Record IAIProvidersExecuteParams : Type := mkExecuteParams {
  x_provider : IAIProvider;
  x_messages : option (list IChatMessage);
  x_prompt : option string;
  x_systemPrompt : option string;
  x_images : option (list string);
  x_options : option (gmap string JsValue)
}.

(** [IAIProvidersEmbedParams], with the legacy [text] field read through
    a type assertion. *)
Record IAIProvidersEmbedParams : Type := mkEmbedParams {
  e_provider : IAIProvider;
  e_input : option EmbedInput;
  e_text : option EmbedInput
}.

(* ===================================================================== *)
(** ** The handler's state and its monad                                  *)
(* ===================================================================== *)

(** The handler instance: its cache, and (as a record of what it did)
    the backend calls issued so far, oldest first. *)
Record Handler : Type := mkHandler {
  modelInfoCache : gmap string ModelInfo;
  issued : list BackendCall
}.

Inductive Outcome (A : Type) : Type :=
| Returned (a : A)
| Thrown (e : Error).

Arguments Returned {A} a.
Arguments Thrown {A} e.

Definition M (A : Type) : Type := Handler -> Outcome A * Handler.

Definition ret {A} (a : A) : M A := fun h => (Returned a, h).

Definition throw {A} (e : Error) : M A := fun h => (Thrown e, h).

Definition bind {A B} (m : M A) (k : A -> M B) : M B :=
  fun h =>
    match m h with
    | (Returned a, h') => k a h'
    | (Thrown e, h') => (Thrown e, h')
    end.

(** [try { body } catch (error) { handler }]: what the body did to the
    state before it threw stays done. *)
Definition try_catch {A} (body : M A) (handler : Error -> M A) : M A :=
  fun h =>
    match body h with
    | (Returned a, h') => (Returned a, h')
    | (Thrown e, h') => handler e h'
    end.

Notation "x <- m ;; k" := (bind m (fun x => k))
  (at level 100, m at next level, right associativity).
Notation "m ;;; k" := (bind m (fun _ => k))
  (at level 100, right associativity).

Definition cache_get (key : string) : M (option ModelInfo) :=
  fun h => (Returned (modelInfoCache h !! key), h).

Definition cache_set (key : string) (info : ModelInfo) : M unit :=
  fun h =>
    (Returned tt,
     {| modelInfoCache := <[key := info]> (modelInfoCache h);
        issued := issued h |}).

Definition issue (c : BackendCall) : M unit :=
  fun h =>
    (Returned tt,
     {| modelInfoCache := modelInfoCache h; issued := issued h ++ [c] |}).

(** [new OllamaHandler(settings)] and [dispose()]. *)
Definition new_handler : Handler :=
  {| modelInfoCache := ∅; issued := [] |}.

Definition dispose (h : Handler) : Handler :=
  {| modelInfoCache := ∅; issued := issued h |}.

(* ===================================================================== *)
(** ** ModelInfoCache                                                     *)
(* ===================================================================== *)

(** A template literal renders an undefined value as ["undefined"]. *)
Definition template (v : option string) : string :=
  match v with
  | Some s => s
  | None => "undefined"
  end.

(** [`${provider.url}_${modelName}`] *)
Definition cacheKey (provider : IAIProvider) (modelName : string) : string :=
  template (url provider) +:+ "_" +:+ modelName.

(** [provider.url || ''], the host handed to the client. *)
Definition host_of (provider : IAIProvider) : string :=
  match url provider with
  | Some u => u
  | None => ""
  end.

(** [provider.model || ""] *)
Definition model_of (provider : IAIProvider) : string :=
  match model provider with
  | Some m => m
  | None => ""
  end.

Definition getDefaultModelInfo : ModelInfo :=
  {| contextLength := 0; lastContextLength := DEFAULT_CONTEXT_LENGTH |}.

(** The predicate given to [find] over [Object.entries(model_info)]. *)
Definition isContextLengthEntry (entry : string * JsValue) : bool :=
  let '(key, value) := entry in
  (Str.endsWith key ".context_length" || String.eqb key "num_ctx")
  && match value with
     | JNumber n => n >? 0
     | JOther _ => false
     end.

(** [await ollama.show({ model })] *)
Definition call_show (be : Backend) (provider : IAIProvider)
    (modelName : string) : M (option (list (string * JsValue))) :=
  issue (CallShow (host_of provider) modelName) ;;;
  match b_show be (host_of provider) modelName with
  | ShowThrows e => throw e
  | ShowAnswers model_info => ret model_info
  end.

(** [Object.entries(o)], a [TypeError] on [undefined]. *)
Definition object_entries {A} (o : option (list (string * A)))
    : M (list (string * A)) :=
  match o with
  | Some entries => ret entries
  | None => throw (Err "Cannot convert undefined or null to object")
  end.

Definition getCachedModelInfo (be : Backend) (provider : IAIProvider)
    (modelName : string) : M ModelInfo :=
  let cacheKey := cacheKey provider modelName in
  cached <- cache_get cacheKey ;;
  match cached with
  | Some info => ret info
  | None =>
      try_catch
        (response <- call_show be provider modelName ;;
         entries <- object_entries response ;;
         let modelInfo :=
           match List.find isContextLengthEntry entries with
           | Some (_, JNumber n) =>
               {| contextLength := n;
                  lastContextLength :=
                    lastContextLength getDefaultModelInfo |}
           | _ => getDefaultModelInfo
           end in
         cache_set cacheKey modelInfo ;;;
         ret modelInfo)
        (fun error => ret getDefaultModelInfo)
  end.

Definition setModelInfoLastContextLength (provider : IAIProvider)
    (modelName : string) (num_ctx : option Z) : M unit :=
  let cacheKey := cacheKey provider modelName in
  cached <- cache_get cacheKey ;;
  match cached with
  | Some modelInfo =>
      cache_set cacheKey
        {| contextLength := contextLength modelInfo;
           lastContextLength :=
             match num_ctx with
             | Some n => num_or n (lastContextLength modelInfo)
             | None => lastContextLength modelInfo
             end |}
  | None => ret tt
  end.

(* ===================================================================== *)
(** ** EmbeddingRequestHandler                                            *)
(* ===================================================================== *)

(** [a ?? b] *)
Definition nullish_or {A} (a b : option A) : option A :=
  match a with
  | Some x => Some x
  | None => b
  end.

(** Truthiness of a [string | string[]]: every array is truthy. *)
Definition truthy_input (i : EmbedInput) : bool :=
  match i with
  | InputText s => truthy_string s
  | InputList _ => true
  end.

(** [Math.max (...xs)] *)
Definition math_max (xs : list Z) : JsLength :=
  fold_right (fun x acc => Len (len_max acc x)) NegInfinity xs.

Definition str_length (s : string) : Z := Z.of_nat (String.length s).

(** [await ollama.embed({ model, input, options: { num_ctx } })] *)
Definition call_embed (be : Backend) (provider : IAIProvider)
    (request : EmbedRequest) : M (option (list (list Q))) :=
  issue (CallEmbed (host_of provider) request) ;;;
  match b_embed be (host_of provider) request with
  | EmbedThrows e => throw e
  | EmbedAnswers embeddings => ret embeddings
  end.

Definition embed (be : Backend) (params : IAIProvidersEmbedParams)
    : M (list (list Q)) :=
  let provider := e_provider params in
  match nullish_or (e_input params) (e_text params) with
  | None => throw (Err "Either input or text parameter must be provided")
  | Some inputText =>
      if negb (truthy_input inputText) then
        throw (Err "Either input or text parameter must be provided")
      else
        modelInfo <- getCachedModelInfo be provider (model_of provider) ;;
        let maxInputLength :=
          match inputText with
          | InputList xs => math_max (map str_length xs)
          | InputText s => Len (str_length s)
          end in
        let decision :=
          optimizeContext
            maxInputLength
            (num_or (lastContextLength modelInfo) EMBEDDING_CONTEXT_LENGTH)
            EMBEDDING_CONTEXT_LENGTH
            (contextLength modelInfo) in
        (if shouldUpdate decision
         then setModelInfoLastContextLength
                provider (model_of provider) (num_ctx decision)
         else ret tt) ;;;
        try_catch
          (response <- call_embed be provider
                         {| er_model := model_of provider;
                            er_input := inputText;
                            er_num_ctx := num_ctx decision |} ;;
           match response with
           | None => throw (Err "No embeddings in response")
           | Some embeddings => ret embeddings
           end)
          (fun error => throw error)
  end.

(* ===================================================================== *)
(** ** MessageNormalizer                                                  *)
(* ===================================================================== *)

Definition LF : ascii := Ascii.ascii_of_nat 10.
Definition CR : ascii := Ascii.ascii_of_nat 13.

Definition isText (b : ContentBlock) : bool :=
  match b with
  | TextBlock _ => true
  | ImageUrlBlock _ => false
  end.

Definition isImageUrl (b : ContentBlock) : bool :=
  match b with
  | TextBlock _ => false
  | ImageUrlBlock _ => true
  end.

Definition textOf (b : ContentBlock) : string :=
  match b with
  | TextBlock text => text
  | ImageUrlBlock _ => ""
  end.

(** The urls pushed by the [forEach] over the [image_url] blocks. *)
Definition blockImages (bs : list ContentBlock) : list string :=
  flat_map
    (fun b =>
       match b with
       | ImageUrlBlock (Some u) => if truthy_string u then [u] else []
       | _ => []
       end)
    (List.filter isImageUrl bs).

(** One round of [params.messages.forEach], on the pair
    [(chatMessages, extractedImages)]. *)
Definition normalizeMessage (acc : list ChatMessage * list string)
    (msg : IChatMessage) : list ChatMessage * list string :=
  let '(chatMessages, extractedImages) := acc in
  let '(chatMessages, extractedImages) :=
    match msg_content msg with
    | Plain s =>
        (chatMessages ++
           [{| role := msg_role msg; content := s; images := None |}],
         extractedImages)
    | Blocks bs =>
        let textContent :=
          Str.join (String LF "") (map textOf (List.filter isText bs)) in
        (chatMessages ++
           [{| role := msg_role msg; content := textContent;
               images := None |}],
         extractedImages ++ blockImages bs)
    end in
  match msg_images msg with
  | Some (i :: rest) => (chatMessages, extractedImages ++ i :: rest)
  | _ => (chatMessages, extractedImages)
  end.

(** Lines 245-299: the canonical messages and the collected images, or
    the error thrown when neither shape is present. *)
Definition normalize (params : IAIProvidersExecuteParams)
    : Outcome (list ChatMessage * list string) :=
  match x_messages params with
  | Some messages => Returned (fold_left normalizeMessage messages ([], []))
  | None =>
      match x_prompt params with
      | Some prompt =>
          let system :=
            match x_systemPrompt params with
            | Some sp =>
                if truthy_string sp
                then [{| role := "system"; content := sp; images := None |}]
                else []
            | None => []
            end in
          let extractedImages :=
            match x_images params with
            | Some (i :: rest) => i :: rest
            | _ => []
            end in
          Returned
            (system ++
               [{| role := "user"; content := prompt; images := None |}],
             extractedImages)
      | None => Thrown (Err "Either messages or prompt must be provided")
      end
  end.

(** [.] of a regular expression without the [s] flag. *)
Definition isLineTerminator (c : ascii) : bool :=
  Ascii.eqb c LF || Ascii.eqb c CR.

(** The lazy [(.*?);base64,]: the text after the first [;base64,] that is
    reached without crossing a line terminator. *)
Fixpoint lazyUntilBase64 (s : string) : option string :=
  if String.prefix ";base64," s then Some (Str.drop 8 s)
  else
    match s with
    | EmptyString => None
    | String c s' => if isLineTerminator c then None else lazyUntilBase64 s'
    end.

(** [image.replace(/^data:image\/(.*?);base64,/, "")] *)
Definition stripDataUrlPrefix (image : string) : string :=
  if String.prefix "data:image/" image then
    match lazyUntilBase64 (Str.drop 11 image) with
    | Some rest => rest
    | None => image
    end
  else image.

Definition processImages (extractedImages : list string)
    : option (list string) :=
  match extractedImages with
  | [] => None
  | _ :: _ => Some (map stripDataUrlPrefix extractedImages)
  end.

(** [processedImages?.length] as a condition. *)
Definition has_length {A} (o : option (list A)) : bool :=
  match o with
  | Some (_ :: _) => true
  | _ => false
  end.

(** [xs.lastIndexOf(x)], [None] for [-1]. *)
Fixpoint lastIndexOf (x : string) (xs : list string) : option nat :=
  match xs with
  | [] => None
  | y :: rest =>
      match lastIndexOf x rest with
      | Some i => Some (S i)
      | None => if String.eqb y x then Some O else None
      end
  end.

(** [{ ...m, images: processedImages }] *)
Definition withImages (m : ChatMessage) (processedImages : list string)
    : ChatMessage :=
  {| role := role m; content := content m; images := Some processedImages |}.

(** [chatMessages[i] = { ...chatMessages[i], images }] for [i] in range. *)
Definition setImagesAt (i : nat) (processedImages : list string)
    (chatMessages : list ChatMessage) : list ChatMessage :=
  match chatMessages !! i with
  | Some m => <[i := withImages m processedImages]> chatMessages
  | None => chatMessages
  end.

(** Lines 346-373, for a non-empty [processedImages]. *)
Definition attachImages (chatMessages : list ChatMessage)
    (processedImages : list string) : list ChatMessage :=
  match lastIndexOf "user" (map role chatMessages) with
  | Some lastUserMessageIndex =>
      setImagesAt lastUserMessageIndex processedImages chatMessages
  | None =>
      if (0 <? length chatMessages)%nat then
        setImagesAt (length chatMessages - 1) processedImages chatMessages
      else
        chatMessages ++
          [{| role := "user"; content := ""; images := Some processedImages |}]
  end.

(** Lines 301-383 up to the call: the request sent to [ollama.chat]. *)
Definition prepareChat (params : IAIProvidersExecuteParams)
    (modelInfo : option ModelInfo) : M ChatRequest :=
  let provider := x_provider params in
  match normalize params with
  | Thrown e => throw e
  | Returned (chatMessages, extractedImages) =>
      let processedImages := processImages extractedImages in
      requestOptions <-
        (if negb (has_length processedImages) then
           let inputLength :=
             fold_left (fun acc msg => acc + str_length (content msg))
                       chatMessages 0 in
           let decision :=
             optimizeContext
               (Len inputLength)
               (num_or (from_option lastContextLength 0 modelInfo)
                       DEFAULT_CONTEXT_LENGTH)
               DEFAULT_CONTEXT_LENGTH
               (num_or (from_option contextLength 0 modelInfo)
                       DEFAULT_CONTEXT_LENGTH) in
           (if shouldUpdate decision
            then setModelInfoLastContextLength
                   provider (model_of provider) (num_ctx decision)
            else ret tt) ;;;
           ret (match num_ctx decision with
                | Some n =>
                    if truthy_num n
                    then ({[ "num_ctx" := JNumber n ]} : gmap string JsValue)
                    else ∅
                | None => ∅
                end)
         else ret ∅) ;;
      let requestOptions :=
        match x_options params with
        | Some options => options ∪ requestOptions
        | None => requestOptions
        end in
      let chatMessages :=
        match processedImages with
        | Some (i :: rest) => attachImages chatMessages (i :: rest)
        | _ => chatMessages
        end in
      ret {| cr_model := model_of provider;
             cr_messages := chatMessages;
             cr_options :=
               if bool_decide (requestOptions = ∅) then None
               else Some requestOptions |}
  end.

(* ===================================================================== *)
(** ** StreamingExecutionController                                       *)
(* ===================================================================== *)

(** Callbacks are identified by a number; calling one is recorded. *)
Inductive Delivery : Type :=
| DataCall (cb : nat) (chunk accumulatedText : string)
| EndCall (cb : nat) (fullText : string)
| ErrorCall (cb : nat) (error : Error).

(** The [handlers] object: three arrays of callbacks, in push order. *)
Record Handlers : Type := mkHandlers {
  h_data : list nat;
  h_end : list nat;
  h_error : list nat
}.

(** Where the detached task is suspended, or how it finished.  The
    answer the backend will give to the pending call rides along. *)
Inductive Phase : Type :=
| AwaitingModelInfo
| AwaitingChat (answer : ChatResult)
| Streaming (rest : list ExtendedChatResponse) (ending : StreamEnding)
| Completed
| Aborted
| Failed (e : Error).

(** One execution: the parameters of the call, the handler instance, the
    variables the closure of [execute] shares with the returned handle,
    and the callback calls made so far, oldest first. *)
Record Execution : Type := mkExecution {
  call_params : IAIProvidersExecuteParams;
  handler : Handler;
  isAborted : bool;
  fullText : string;
  handlers : Handlers;
  phase : Phase;
  delivered : list Delivery
}.

(** The four methods of the returned [IChunkHandler]. *)
Inductive HandleOp : Type :=
| onData (callback : nat)
| onEnd (callback : nat)
| onError (callback : nat)
| abort.

(** What happens next: the caller uses the handle, or the event loop
    resumes the task at its pending [await]. *)
Inductive Action : Type :=
| Call (op : HandleOp)
| Resume.

(** [execute params] on the handler instance [h]: the state in which the
    handle is returned, the task being suspended at its first [await]
    (its opening test of [isAborted] ran before the handle existed). *)
Definition execute (params : IAIProvidersExecuteParams) (h : Handler)
    : Execution :=
  {| call_params := params;
     handler := h;
     isAborted := false;
     fullText := "";
     handlers := {| h_data := []; h_end := []; h_error := [] |};
     phase := AwaitingModelInfo;
     delivered := [] |}.

Definition set_phase (p : Phase) (x : Execution) : Execution :=
  {| call_params := call_params x; handler := handler x;
     isAborted := isAborted x; fullText := fullText x;
     handlers := handlers x; phase := p; delivered := delivered x |}.

Definition set_handler (h : Handler) (x : Execution) : Execution :=
  {| call_params := call_params x; handler := h;
     isAborted := isAborted x; fullText := fullText x;
     handlers := handlers x; phase := phase x; delivered := delivered x |}.

Definition deliver (ds : list Delivery) (x : Execution) : Execution :=
  {| call_params := call_params x; handler := handler x;
     isAborted := isAborted x; fullText := fullText x;
     handlers := handlers x; phase := phase x;
     delivered := delivered x ++ ds |}.

Definition set_fullText (s : string) (x : Execution) : Execution :=
  {| call_params := call_params x; handler := handler x;
     isAborted := isAborted x; fullText := s;
     handlers := handlers x; phase := phase x; delivered := delivered x |}.

Definition set_handlers (hs : Handlers) (x : Execution) : Execution :=
  {| call_params := call_params x; handler := handler x;
     isAborted := isAborted x; fullText := fullText x;
     handlers := hs; phase := phase x; delivered := delivered x |}.

Definition set_isAborted (b : bool) (x : Execution) : Execution :=
  {| call_params := call_params x; handler := handler x;
     isAborted := b; fullText := fullText x;
     handlers := handlers x; phase := phase x; delivered := delivered x |}.

(** The [catch] block of the task. *)
Definition fail (e : Error) (x : Execution) : Execution :=
  set_phase (Failed e)
    (deliver (map (fun cb => ErrorCall cb e) (h_error (handlers x))) x).

(** [part.message?.content || ''] *)
Definition responseText (part : ExtendedChatResponse) : string :=
  match message part with
  | Some m =>
      match rm_content m with
      | Some s => s
      | None => ""
      end
  | None => ""
  end.

(** From the first [await] to the call of [ollama.chat].  (On a cache
    miss the source sends the introspection request before it suspends
    and stores the answer when it resumes; nothing else touches the cache
    of this execution in between.) *)
Definition startChat (be : Backend) (params : IAIProvidersExecuteParams)
    : M ChatRequest :=
  let provider := x_provider params in
  modelInfo <-
    try_catch
      (info <- getCachedModelInfo be provider (model_of provider) ;;
       ret (Some info))
      (fun error => ret None) ;;
  request <- prepareChat params modelInfo ;;
  issue (CallChat (host_of provider) request) ;;;
  ret request.

(** The task runs from one suspension point to the next. *)
Definition resume (be : Backend) (x : Execution) : Execution :=
  let params := call_params x in
  match phase x with
  | AwaitingModelInfo =>
      match startChat be params (handler x) with
      | (Returned request, h') =>
          set_phase
            (AwaitingChat (b_chat be (host_of (x_provider params)) request))
            (set_handler h' x)
      | (Thrown e, h') => fail e (set_handler h' x)
      end
  | AwaitingChat (ChatRejects e) => fail e x
  | AwaitingChat (ChatStreams parts ending) =>
      set_phase (Streaming parts ending) x
  | Streaming (part :: rest) ending =>
      if isAborted x then set_phase Aborted x
      else
        let responseText := responseText part in
        if truthy_string responseText then
          let fullText := fullText x +:+ responseText in
          set_phase (Streaming rest ending)
            (deliver
               (map (fun cb => DataCall cb responseText fullText)
                    (h_data (handlers x)))
               (set_fullText fullText x))
        else set_phase (Streaming rest ending) x
  | Streaming [] EndsCleanly =>
      if negb (isAborted x) then
        set_phase Completed
          (deliver (map (fun cb => EndCall cb (fullText x))
                        (h_end (handlers x)))
                   x)
      else set_phase Aborted x
  | Streaming [] (Raises e) => fail e x
  | Completed | Aborted | Failed _ => x
  end.

(** A method of the handle is called. *)
Definition call (op : HandleOp) (x : Execution) : Execution :=
  let hs := handlers x in
  match op with
  | onData cb =>
      set_handlers
        {| h_data := h_data hs ++ [cb]; h_end := h_end hs;
           h_error := h_error hs |} x
  | onEnd cb =>
      set_handlers
        {| h_data := h_data hs; h_end := h_end hs ++ [cb];
           h_error := h_error hs |} x
  | onError cb =>
      set_handlers
        {| h_data := h_data hs; h_end := h_end hs;
           h_error := h_error hs ++ [cb] |} x
  | abort => set_isAborted true x
  end.

Definition step (be : Backend) (x : Execution) (a : Action) : Execution :=
  match a with
  | Call op => call op x
  | Resume => resume be x
  end.

(** The execution after a schedule of handle calls and resumptions. *)
Definition run (be : Backend) (x : Execution) (schedule : list Action)
    : Execution :=
  fold_left (step be) schedule x.

(** The deliveries on each channel. *)
Definition isDataCall (d : Delivery) : bool :=
  match d with DataCall _ _ _ => true | _ => false end.

Definition isEndCall (d : Delivery) : bool :=
  match d with EndCall _ _ => true | _ => false end.

Definition isErrorCall (d : Delivery) : bool :=
  match d with ErrorCall _ _ => true | _ => false end.



(** The callbacks a list of handle calls registers on each channel. *)
Definition dataSubscribers (ops : list HandleOp) : list nat :=
  flat_map (fun op => match op with onData cb => [cb] | _ => [] end) ops.

Definition endSubscribers (ops : list HandleOp) : list nat :=
  flat_map (fun op => match op with onEnd cb => [cb] | _ => [] end) ops.

Definition isAbort (op : HandleOp) : bool :=
  match op with abort => true | _ => false end.

(** The callbacks registered on the error channel. *)
Definition errorSubscribers (ops : list HandleOp) : list nat :=
  flat_map (fun op => match op with onError cb => [cb] | _ => [] end) ops.


(** A streamed part carrying the text [s]. *)
Definition textPart (s : string) : ExtendedChatResponse :=
  {| message := Some {| rm_content := Some s |} |}.

(* ===================================================================== *)
(** ** Vocabulary of the statements                                       *)
(* ===================================================================== *)

(** No ['_'] in [s]. *)
Definition underscoreFree (s : string) : bool :=
  Str.none (fun c => Ascii.eqb c "_"%char) s.

(** [fmt] can stand between [data:image/] and the first [;base64,]: the
    dot of the pattern matches each of its characters, and the marker
    [;base64,] does not begin inside it. *)
Definition isImageFormat (fmt : string) : bool :=
  Str.none isLineTerminator fmt
  && negb (Str.includes ";base64," (fmt +:+ ";base64")).

(** The estimate and the buffered size, as the specification writes
    them. *)
Definition estimate (inputLength : Z) : Z :=
  Qceiling (inject_Z inputLength / (5 # 2)).

Definition buffered (tokens defaultContextLength : Z) : Z :=
  Qceiling (inject_Z (Z.max tokens defaultContextLength) * (6 # 5)).

(** A backend whose introspection and chat are down and that embeds
    nothing; used to run the handler on concrete requests. *)
Definition downBackend : Backend :=
  {| b_show := fun _ _ => ShowThrows (Err "connection refused");
     b_embed := fun _ _ => EmbedAnswers (Some []);
     b_chat := fun _ _ => ChatRejects (Err "connection refused") |}.

Definition localProvider : IAIProvider :=
  {| url := Some "http://localhost:11434"; model := Some "llama3" |}.

(** A backend that answers every chat with the given stream. *)
Definition streamingBackend (parts : list ExtendedChatResponse)
    (ending : StreamEnding) : Backend :=
  {| b_show :=
       fun _ _ => ShowAnswers (Some [("llama.context_length", JNumber 8192)]);
     b_embed := fun _ _ => EmbedAnswers (Some []);
     b_chat := fun _ _ => ChatStreams parts ending |}.

Definition promptParams (prompt : string) : IAIProvidersExecuteParams :=
  {| x_provider := localProvider;
     x_messages := None;
     x_prompt := Some prompt;
     x_systemPrompt := None;
     x_images := None;
     x_options := None |}.

(** The structured request of the specification's example: one user turn
    with the text block "hi" and one image block. *)
Definition hiParams : IAIProvidersExecuteParams :=
  {| x_provider := localProvider;
     x_messages :=
       Some [ {| msg_role := "user";
                 msg_content :=
                   Blocks [ TextBlock "hi";
                            ImageUrlBlock
                              (Some "data:image/png;base64,AAAA") ];
                 msg_images := None |} ];
     x_prompt := None;
     x_systemPrompt := None;
     x_images := None;
     x_options := None |}.

Definition chatMessage (r c : string) : ChatMessage :=
  {| role := r; content := c; images := None |}.

(** The state after a series of handle calls: the callbacks are pushed on
    their arrays, and the flag is set if [abort] was among the calls. *)
Definition afterCalls (ops : list HandleOp) (x : Execution) : Execution :=
  {| call_params := call_params x;
     handler := handler x;
     isAborted := isAborted x || existsb isAbort ops;
     fullText := fullText x;
     handlers :=
       {| h_data := h_data (handlers x) ++ dataSubscribers ops;
          h_end := h_end (handlers x) ++ endSubscribers ops;
          h_error := h_error (handlers x) ++ errorSubscribers ops |};
     phase := phase x;
     delivered := delivered x |}.



(** Every data delivery carries a non-empty chunk. *)
Definition chunksNonEmpty (ds : list Delivery) : Prop :=
  forall cb chunk acc, In (DataCall cb chunk acc) ds -> chunk <> "".

(** A cache entry as the handler makes them: the context length is not
    negative, and the last requested size is the default or lies between
    the default and the context length. *)
Definition entryOk (info : ModelInfo) : Prop :=
  0 <= contextLength info
  /\ (lastContextLength info = DEFAULT_CONTEXT_LENGTH
      \/ DEFAULT_CONTEXT_LENGTH < lastContextLength info
                                <= contextLength info).

Definition cacheOk (cache : gmap string ModelInfo) : Prop :=
  forall (k : string) (info : ModelInfo),
    cache !! k = Some info -> entryOk info.

(** Every entry of [cache] is still in [cache'], with the same context
    length and a last requested size that is not smaller. *)
Definition cacheGrows (cache cache' : gmap string ModelInfo) : Prop :=
  forall (k : string) (info : ModelInfo),
    cache !! k = Some info ->
    exists info',
      cache' !! k = Some info'
      /\ contextLength info' = contextLength info
      /\ lastContextLength info <= lastContextLength info'.

(** The entry that [find] is after: a key ending in [.context_length] or
    equal to [num_ctx], with a positive number. *)
Definition namesContextLength (entry : string * JsValue) : Prop :=
  ((exists pre, fst entry = pre +:+ ".context_length")
   \/ fst entry = "num_ctx")
  /\ exists n, snd entry = JNumber n /\ 0 < n.

Definition isTerminal (p : Phase) : bool :=
  match p with
  | Completed | Aborted | Failed _ => true
  | AwaitingModelInfo | AwaitingChat _ | Streaming _ _ => false
  end.

(** The non-empty texts of a stream, the pairs (chunk, text so far) they
    give from the text [acc], and the text they add up to. *)
Definition chunkTexts (parts : list ExtendedChatResponse) : list string :=
  List.filter truthy_string (map responseText parts).

Fixpoint running (acc : string) (chunks : list string)
    : list (string * string) :=
  match chunks with
  | [] => []
  | c :: rest => (c, acc +:+ c) :: running (acc +:+ c) rest
  end.

Definition joined (acc : string) (chunks : list string) : string :=
  fold_left String.append chunks acc.

(** The data calls for a list of (chunk, text so far), each pair going
    to every callback in turn. *)
Definition dataCalls (cbs : list nat) (pairs : list (string * string))
    : list Delivery :=
  flat_map (fun ca => map (fun cb => DataCall cb (fst ca) (snd ca)) cbs)
           pairs.

(** The calls that end a stream. *)
Definition closingCalls (ending : StreamEnding) (text : string)
    (endCbs errorCbs : list nat) : list Delivery :=
  match ending with
  | EndsCleanly => map (fun cb => EndCall cb text) endCbs
  | Raises e => map (fun cb => ErrorCall cb e) errorCbs
  end.

Definition closingPhase (ending : StreamEnding) : Phase :=
  match ending with
  | EndsCleanly => Completed
  | Raises e => Failed e
  end.

(** A schedule: the callers' operations [ops0], [ops1], [ops2] around the
    two resumptions that start the stream, then [n] resumptions. *)
Definition streamSchedule (ops0 ops1 ops2 : list HandleOp) (n : nat)
    : list Action :=
  map Call ops0 ++ [Resume] ++ map Call ops1 ++ [Resume]
  ++ map Call ops2 ++ List.repeat Resume n.

(** The introspection calls among the calls issued. *)
Definition isCallShow (c : BackendCall) : bool :=
  match c with CallShow _ _ => true | _ => false end.

(** A backend without introspection that gives every embedding request
    the answer [r], and an embed request for one text. *)
Definition embedBackend (r : EmbedResult) : Backend :=
  {| b_show := fun _ _ => ShowThrows (Err "connection refused");
     b_embed := fun _ _ => r;
     b_chat := fun _ _ => ChatRejects (Err "connection refused") |}.

Definition textParams (s : string) : IAIProvidersEmbedParams :=
  {| e_provider := localProvider; e_input := Some (InputText s);
     e_text := None |}.

(** The texts of the text blocks of a turn, in order. *)
Definition blockTexts (bs : list ContentBlock) : list string :=
  flat_map (fun b => match b with TextBlock t => [t] | _ => [] end) bs.

(** The chat message and the images that one turn contributes. *)
Definition turnMessage (msg : IChatMessage) : ChatMessage :=
  {| role := msg_role msg;
     content :=
       match msg_content msg with
       | Plain s => s
       | Blocks bs => Str.join (String LF "") (blockTexts bs)
       end;
     images := None |}.

Definition turnImages (msg : IChatMessage) : list string :=
  match msg_content msg with
  | Plain _ => []
  | Blocks bs => blockImages bs
  end
  ++ match msg_images msg with
     | Some imgs => imgs
     | None => []
     end.

(** The leading system message of the legacy shape. *)
Definition systemMessages (systemPrompt : option string)
    : list ChatMessage :=
  match systemPrompt with
  | Some sp =>
      if truthy_string sp
      then [{| role := "system"; content := sp; images := None |}]
      else []
  | None => []
  end.

Definition isCallChat (c : BackendCall) : bool :=
  match c with CallChat _ _ => true | _ => false end.

(* ===================================================================== *)
(** ** Callbacks that use the handle or throw                             *)
(* ===================================================================== *)

(** [resume] lets every callback return at once.  Here a callback may call
    the methods of the handle while it runs, and may throw.
    [callbacks history d] is what the callback called by [d] does when
    [history] lists the calls made before [d]: the methods of the handle
    that it calls, and the error that it throws, if it throws. *)
Definition Callbacks : Type :=
  list Delivery -> Delivery -> list HandleOp * option Error.

(** Callbacks that only return. *)
Definition inert : Callbacks := fun _ _ => ([], None).

(** [array.forEach(handler => handler(...))], [calls] being the calls for
    the elements that the array has when [forEach] starts (elements pushed
    while it runs are not visited).  Each call is recorded and what the
    callback does to the handle takes effect; the first callback that
    throws ends the iteration, with its error. *)
Fixpoint callEach (callbacks : Callbacks) (calls : list Delivery)
    (x : Execution) : Execution * option Error :=
  match calls with
  | [] => (x, None)
  | d :: rest =>
      let (ops, thrown) := callbacks (delivered x) d in
      let x' := afterCalls ops (deliver [d] x) in
      match thrown with
      | Some e => (x', Some e)
      | None => callEach callbacks rest x'
      end
  end.

(** The [try] block of the task from one suspension point to the next:
    the state it reaches, and the error that leaves it for the [catch]
    block, if one does.

    An error thrown by a data callback leaves the body of [for await].
    [closes] tells whether the iterator of the stream has a [return]
    method: if so, the loop closes the iterator and awaits that before it
    rethrows, so the task is suspended once more and the error reaches
    the [catch] block at the next resumption, as an error raised by the
    stream does; if not, the error reaches the [catch] block at once.  As
    in [resume], closing the iterator is taken to succeed. *)
Definition tryBlock (callbacks : Callbacks) (closes : bool) (be : Backend)
    (x : Execution) : Execution * option Error :=
  let params := call_params x in
  match phase x with
  | AwaitingModelInfo =>
      match startChat be params (handler x) with
      | (Returned request, h') =>
          (set_phase
             (AwaitingChat (b_chat be (host_of (x_provider params)) request))
             (set_handler h' x),
           None)
      | (Thrown e, h') => (set_handler h' x, Some e)
      end
  | AwaitingChat (ChatRejects e) => (x, Some e)
  | AwaitingChat (ChatStreams parts ending) =>
      (set_phase (Streaming parts ending) x, None)
  | Streaming (part :: rest) ending =>
      if isAborted x then (set_phase Aborted x, None)
      else
        let responseText := responseText part in
        if truthy_string responseText then
          let fullText := fullText x +:+ responseText in
          match
            callEach callbacks
              (map (fun cb => DataCall cb responseText fullText)
                   (h_data (handlers x)))
              (set_fullText fullText x)
          with
          | (x', None) => (set_phase (Streaming rest ending) x', None)
          | (x', Some e) =>
              if closes then (set_phase (Streaming [] (Raises e)) x', None)
              else (x', Some e)
          end
        else (set_phase (Streaming rest ending) x, None)
  | Streaming [] EndsCleanly =>
      if negb (isAborted x) then
        match
          callEach callbacks
            (map (fun cb => EndCall cb (fullText x)) (h_end (handlers x)))
            x
        with
        | (x', None) => (set_phase Completed x', None)
        | (x', Some e) => (x', Some e)
        end
      else (set_phase Aborted x, None)
  | Streaming [] (Raises e) => (x, Some e)
  | Completed | Aborted | Failed _ => (x, None)
  end.

(** The [catch] block: the error callbacks are called with the error
    caught.  If one of them throws, the others are not called and the
    task ends all the same. *)
Definition catchBlock (callbacks : Callbacks) (e : Error) (x : Execution)
    : Execution :=
  set_phase (Failed e)
    (fst (callEach callbacks
            (map (fun cb => ErrorCall cb e) (h_error (handlers x))) x)).

(** The task runs from one suspension point to the next. *)
Definition resumeWith (callbacks : Callbacks) (closes : bool) (be : Backend)
    (x : Execution) : Execution :=
  match tryBlock callbacks closes be x with
  | (x', None) => x'
  | (x', Some e) => catchBlock callbacks e x'
  end.

Definition stepWith (callbacks : Callbacks) (closes : bool) (be : Backend)
    (x : Execution) (a : Action) : Execution :=
  match a with
  | Call op => call op x
  | Resume => resumeWith callbacks closes be x
  end.

Definition runWith (callbacks : Callbacks) (closes : bool) (be : Backend)
    (x : Execution) (schedule : list Action) : Execution :=
  fold_left (stepWith callbacks closes be) schedule x.

(** The call [d], made after the calls of [history], throws [e]. *)
Definition threw (callbacks : Callbacks) (history : list Delivery)
    (d : Delivery) (e : Error) : Prop :=
  exists ops, callbacks history d = (ops, Some e).

(** The last of the calls [made], which follow the calls of [history],
    throws [e]. *)
Definition lastThrew (callbacks : Callbacks) (history made : list Delivery)
    (e : Error) : Prop :=
  exists earlier d,
    made = earlier ++ [d] /\ threw callbacks (history ++ earlier) d e.

(** The deliveries of an execution have a shape: data calls only, until
    the execution completes or fails; end calls after them if it
    completes; if it fails, error calls at the end, with end calls before
    them only if the last end call threw the error of the failure. *)
Definition shapedWith (callbacks : Callbacks) (x : Execution) : Prop :=
  match phase x with
  | Completed =>
      exists datas ends,
        delivered x = datas ++ ends
        /\ forallb isDataCall datas = true
        /\ forallb isEndCall ends = true
  | Failed e =>
      exists datas ends errors,
        delivered x = datas ++ ends ++ errors
        /\ forallb isDataCall datas = true
        /\ forallb isEndCall ends = true
        /\ forallb isErrorCall errors = true
        /\ (ends = [] \/ lastThrew callbacks datas ends e)
  | AwaitingModelInfo | AwaitingChat _ | Streaming _ _ | Aborted =>
      forallb isDataCall (delivered x) = true
  end.

(** A run in which the first end callback throws: one data callback, two
    end callbacks and one error callback are registered, and the stream
    is the one part ["a"]. *)
Definition firstEndThrows : Callbacks :=
  fun _ d =>
    match d with
    | EndCall 1%nat _ => ([], Some (Err "end callback failed"))
    | _ => ([], None)
    end.

Definition throwingSchedule : list Action :=
  [Call (onData 0%nat); Call (onEnd 1%nat); Call (onEnd 2%nat);
   Call (onError 3%nat); Resume; Resume; Resume; Resume].

Definition throwingRun (closes : bool) : Execution :=
  runWith firstEndThrows closes (streamingBackend [textPart "a"] EndsCleanly)
    (execute (promptParams "hello") new_handler) throwingSchedule.

(* ===================================================================== *)
(** * Properties                                                          *)
(* ===================================================================== *)

(** ** Arithmetic of the optimizer *)

(** The two ceilings are integer divisions rounding up. *)
Lemma estimate_exact (n : Z) : estimate n = (2 * n + 4) / 5.
Proof.
  unfold estimate, Qceiling, Qfloor, Qopp, Qdiv, Qmult, Qinv, inject_Z.
  simpl. change (Z.pos (1 * 5)) with 5.
  apply Z.div_unique with (r := (2 * n + 4) - 5 * - (- (n * 2) / 5)); [|lia].
  pose proof (Z.div_mod (- (n * 2)) 5 ltac:(lia)).
  pose proof (Z.mod_pos_bound (- (n * 2)) 5 ltac:(lia)).
  lia.
Qed.

Lemma buffered_exact (t d : Z) : buffered t d = (6 * Z.max t d + 4) / 5.
Proof.
  unfold buffered, Qceiling, Qfloor, Qopp, Qmult, inject_Z.
  simpl. change (Z.pos (1 * 5)) with 5.
  set (m := Z.max t d).
  apply Z.div_unique with (r := (6 * m + 4) - 5 * - (- (m * 6) / 5)); [|lia].
  pose proof (Z.div_mod (- (m * 6)) 5 ltac:(lia)).
  pose proof (Z.mod_pos_bound (- (m * 6)) 5 ltac:(lia)).
  lia.
Qed.

Lemma buffered_pos (t d : Z) : 0 < d -> 0 < buffered t d.
Proof.
  intros Hd. rewrite buffered_exact.
  apply Z.div_str_pos. lia.
Qed.

(** The second branch of [optimizeContext], in the vocabulary above. *)
Lemma optimizeContext_large (n last def limit : Z) :
  estimate n > last ->
  optimizeContext (Len n) last def limit =
  {| num_ctx := Some (Z.min (buffered (estimate n) def) limit);
     shouldUpdate := Z.min (buffered (estimate n) def) limit >? last |}.
Proof.
  intros Hgt. unfold optimizeContext, estimateTokens, len_leb, len_max.
  change (Qceiling (inject_Z n / SYMBOLS_PER_TOKEN)) with (estimate n).
  destruct (estimate n <=? last) eqn:Hle; [apply Z.leb_le in Hle; lia|].
  reflexivity.
Qed.

(** The first branch. *)
Lemma optimizeContext_small (n last def limit : Z) :
  estimate n <= last ->
  optimizeContext (Len n) last def limit =
  {| num_ctx := if last >? def then Some last else None;
     shouldUpdate := false |}.
Proof.
  intros Hle. unfold optimizeContext, estimateTokens, len_leb.
  change (Qceiling (inject_Z n / SYMBOLS_PER_TOKEN)) with (estimate n).
  apply Z.leb_le in Hle. rewrite Hle. reflexivity.
Qed.

(** With an unknown hard limit the minimum is the limit itself. *)
Lemma optimizeContext_limit_zero (n last def : Z) :
  0 < def ->
  estimate n > last ->
  optimizeContext (Len n) last def 0 =
  {| num_ctx := Some 0; shouldUpdate := 0 >? last |}.
Proof.
  intros Hd Hgt. rewrite optimizeContext_large by exact Hgt.
  pose proof (buffered_pos (estimate n) def Hd).
  rewrite Z.min_r by lia. reflexivity.
Qed.

(** C1 (defect of the code): with the hard limit [0] the target is the
    minimum against [0], hence [0], not the buffered size.  [embed] hands
    the cached [contextLength] to the optimizer unguarded: for an input of
    5121 characters on a model whose introspection failed, the estimate
    2049 exceeds 2048, the buffered size would be 2459, and the request
    sent to the backend carries [num_ctx = 0]; nothing is recorded in the
    cache. *)
Theorem optimizeContext_zero_limit_collapses :
  estimate 5121 = 2049
  /\ buffered 2049 2048 = 2459
  /\ optimizeContext (Len 5121) 2048 2048 0
     = {| num_ctx := Some 0; shouldUpdate := false |}
  /\ optimizeContext (Len 100000) 2048 2048 0
     = {| num_ctx := Some 0; shouldUpdate := false |}
  /\ issued
       (snd (embed downBackend
                   {| e_provider := localProvider;
                      e_input :=
                        Some (InputText (Str.repeat "x" (Z.to_nat 5121)));
                      e_text := None |}
                   new_handler))
     = [ CallShow "http://localhost:11434" "llama3";
         CallEmbed "http://localhost:11434"
           {| er_model := "llama3";
              er_input := InputText (Str.repeat "x" (Z.to_nat 5121));
              er_num_ctx := Some 0 |} ].
Proof.
  repeat split; vm_compute; reflexivity.
Qed.

(** C5: when the estimate exceeds [lastContextLength] and the hard limit
    is positive, the optimizer returns the buffered size capped at the
    limit, [min (ceil (max (estimate, default) * 1.2), limit)], and
    [shouldUpdate] is true exactly when that target exceeds
    [lastContextLength]. *)
Theorem optimizeContext_grows_capped :
  forall inputLength lastContextLength defaultContextLength hardLimit : Z,
    Qceiling (inject_Z inputLength / (5 # 2)) > lastContextLength ->
    0 < hardLimit ->
    let est := Qceiling (inject_Z inputLength / (5 # 2)) in
    let target :=
      Z.min (Qceiling (inject_Z (Z.max est defaultContextLength) * (6 # 5)))
            hardLimit in
    let decision :=
      optimizeContext (Len inputLength) lastContextLength
                      defaultContextLength hardLimit in
    num_ctx decision = Some target
    /\ (shouldUpdate decision = true <-> target > lastContextLength).
Proof.
  intros n last def limit Hgt Hlim est target decision.
  subst decision. fold (estimate n) in *.
  rewrite optimizeContext_large by exact Hgt.
  cbn [num_ctx shouldUpdate]. split; [reflexivity|].
  fold est. change (Z.min _ limit) with target.
  rewrite Z.gtb_gt. tauto.
Qed.

(** The instance of the specification: [optimize (100000, 2048, 2048,
    8192)] requests 8192 and persists it. *)
Lemma optimizeContext_grows_capped_witness :
  Qceiling (inject_Z 100000 / (5 # 2)) > 2048
  /\ 0 < 8192
  /\ num_ctx (optimizeContext (Len 100000) 2048 2048 8192) = Some 8192
  /\ (shouldUpdate (optimizeContext (Len 100000) 2048 2048 8192) = true
      <-> 8192 > 2048).
Proof.
  assert (H1 : Qceiling (inject_Z 100000 / (5 # 2)) > 2048)
    by (vm_compute; reflexivity).
  assert (H2 : 0 < 8192) by lia.
  split; [exact H1|]. split; [exact H2|].
  exact (optimizeContext_grows_capped 100000 2048 2048 8192 H1 H2).
Defined.

(** C6: when the estimate is at most [lastContextLength] the optimizer
    returns [shouldUpdate = false]; the size is [lastContextLength] when
    that strictly exceeds the default, and no size otherwise. *)
Theorem optimizeContext_fits :
  forall inputLength lastContextLength defaultContextLength hardLimit : Z,
    Qceiling (inject_Z inputLength / (5 # 2)) <= lastContextLength ->
    let decision :=
      optimizeContext (Len inputLength) lastContextLength
                      defaultContextLength hardLimit in
    shouldUpdate decision = false
    /\ (lastContextLength > defaultContextLength ->
        num_ctx decision = Some lastContextLength)
    /\ (lastContextLength <= defaultContextLength ->
        num_ctx decision = None).
Proof.
  intros n last def limit Hle decision. subst decision.
  fold (estimate n) in Hle.
  rewrite optimizeContext_small by exact Hle.
  cbn [num_ctx shouldUpdate]. split; [reflexivity|].
  split; intros H.
  - destruct (Z.gtb_spec last def) as [_|E]; [reflexivity | lia].
  - destruct (Z.gtb_spec last def) as [E|_]; [lia | reflexivity].
Qed.

(** The instance of the specification: [optimize (10, 2048, 2048, 8192)]
    returns no size and does not persist. *)
Lemma optimizeContext_fits_witness :
  Qceiling (inject_Z 10 / (5 # 2)) <= 2048
  /\ shouldUpdate (optimizeContext (Len 10) 2048 2048 8192) = false
  /\ num_ctx (optimizeContext (Len 10) 2048 2048 8192) = None.
Proof.
  assert (H1 : Qceiling (inject_Z 10 / (5 # 2)) <= 2048)
    by (vm_compute; discriminate).
  split; [exact H1|].
  destruct (optimizeContext_fits 10 2048 2048 8192 H1) as [Hs [_ Hn]].
  split; [exact Hs|]. apply Hn. lia.
Defined.

(** ** The cache key *)

Lemma append_nil_l (s : string) : "" +:+ s = s.
Proof. reflexivity. Qed.

Lemma append_cons (c : ascii) (a b : string) :
  String c a +:+ b = String c (a +:+ b).
Proof. reflexivity. Qed.

Lemma none_append_mid (p : ascii -> bool) (a b : string) (c : ascii) :
  Str.none p (a +:+ String c b) = true -> p c = false.
Proof.
  induction a as [|x a IH]; simpl; intros H.
  - apply andb_true_iff in H as [H _]. now apply negb_true_iff in H.
  - apply andb_true_iff in H as [_ H]. now apply IH.
Qed.

Lemma underscoreFree_cons (c : ascii) (s : string) :
  underscoreFree (String c s) = true ->
  c <> "_"%char /\ underscoreFree s = true.
Proof.
  unfold underscoreFree. simpl. intros H.
  apply andb_true_iff in H as [Hc Hs]. split; [|exact Hs].
  apply negb_true_iff in Hc. now apply Ascii.eqb_neq in Hc.
Qed.

Lemma underscoreFree_mid (a b : string) :
  underscoreFree (a +:+ String "_"%char b) = false.
Proof.
  destruct (underscoreFree (a +:+ String "_"%char b)) eqn:E; [|reflexivity].
  apply none_append_mid in E. simpl in E. discriminate.
Qed.

(** Splitting at the separator is unambiguous as soon as one side of
    each key cannot contain it. *)
Lemma separator_split (u1 u2 m1 m2 : string) :
  (underscoreFree u1 = true /\ underscoreFree u2 = true)
  \/ (underscoreFree m1 = true /\ underscoreFree m2 = true) ->
  u1 +:+ "_" +:+ m1 = u2 +:+ "_" +:+ m2 ->
  u1 = u2 /\ m1 = m2.
Proof.
  revert u2. induction u1 as [|c1 u1 IH]; intros [|c2 u2] Hfree Heq;
    rewrite ?append_cons, ?append_nil_l in Heq.
  - injection Heq as ->. split; reflexivity.
  - injection Heq as <- ->. exfalso.
    destruct Hfree as [[_ H]|[H _]].
    + apply underscoreFree_cons in H as [H _]. congruence.
    + rewrite underscoreFree_mid in H. discriminate.
  - injection Heq as -> <-. exfalso.
    destruct Hfree as [[H _]|[_ H]].
    + apply underscoreFree_cons in H as [H _]. congruence.
    + rewrite underscoreFree_mid in H. discriminate.
  - injection Heq as -> Heq.
    destruct (IH u2) as [-> ->]; [|exact Heq|split; reflexivity].
    destruct Hfree as [[H1 H2]|H]; [left|right; exact H].
    apply underscoreFree_cons in H1 as [_ H1].
    apply underscoreFree_cons in H2 as [_ H2]. split; assumption.
Qed.

(** A template literal tells two values apart, except an absent one from
    the string ["undefined"]. *)
Lemma template_inj (a b : option string) :
  template a = template b ->
  a = b
  \/ (a = None /\ b = Some "undefined")
  \/ (a = Some "undefined" /\ b = None).
Proof.
  destruct a as [x|], b as [y|]; cbn; intros H.
  - left. now rewrite H.
  - right. right. now rewrite H.
  - right. left. now rewrite <- H.
  - left. reflexivity.
Qed.

(** C3 (as amended): equal (endpointUrl, model) pairs always get the same
    key.  Two pairs with the same key have equal model names and equal
    endpoint URLs, an absent URL and the URL ["undefined"] not being told
    apart, provided neither endpoint URL (an absent one reading
    ["undefined"], as in the key) contains ['_'], or neither model name
    does.  An absent URL and the URL ["undefined"] do share their keys. *)
Theorem cacheKey_injective_without_underscore :
  (forall (p1 p2 : IAIProvider) (m1 m2 : string),
      url p1 = url p2 -> m1 = m2 -> cacheKey p1 m1 = cacheKey p2 m2)
  /\ (forall (p1 p2 : IAIProvider) (m1 m2 : string),
         (underscoreFree (template (url p1)) = true
          /\ underscoreFree (template (url p2)) = true)
         \/ (underscoreFree m1 = true /\ underscoreFree m2 = true) ->
         cacheKey p1 m1 = cacheKey p2 m2 ->
         m1 = m2
         /\ (url p1 = url p2
             \/ (url p1 = None /\ url p2 = Some "undefined")
             \/ (url p1 = Some "undefined" /\ url p2 = None)))
  /\ (forall (mdl1 mdl2 : option string) (m : string),
         cacheKey {| url := None; model := mdl1 |} m
         = cacheKey {| url := Some "undefined"; model := mdl2 |} m).
Proof.
  split; [|split].
  - intros p1 p2 m1 m2 Hu ->. unfold cacheKey. now rewrite Hu.
  - intros p1 p2 m1 m2 Hfree Hkey. unfold cacheKey in Hkey.
    destruct (separator_split _ _ _ _ Hfree Hkey) as [Hu Hm].
    split; [exact Hm | now apply template_inj].
  - reflexivity.
Qed.

Lemma cacheKey_injective_without_underscore_witness :
  cacheKey localProvider "llama3"
  = cacheKey {| url := Some "http://localhost:11434"; model := None |}
             "llama3"
  /\ ("llama3" = "llama3"
      /\ (url localProvider
          = url {| url := Some "http://localhost:11434"; model := None |}
          \/ (url localProvider = None
              /\ url {| url := Some "http://localhost:11434";
                        model := None |}
                 = Some "undefined")
          \/ (url localProvider = Some "undefined"
              /\ url {| url := Some "http://localhost:11434";
                        model := None |}
                 = None)))
  /\ ("m" = "m"
      /\ (url {| url := None; model := Some "m" |}
          = url {| url := Some "undefined"; model := Some "m" |}
          \/ (url {| url := None; model := Some "m" |} = None
              /\ url {| url := Some "undefined"; model := Some "m" |}
                 = Some "undefined")
          \/ (url {| url := None; model := Some "m" |} = Some "undefined"
              /\ url {| url := Some "undefined"; model := Some "m" |}
                 = None))).
Proof.
  destruct cacheKey_injective_without_underscore as [Hsame [Hinj Hundef]].
  split; [|split].
  - apply Hsame; reflexivity.
  - apply (Hinj localProvider
                {| url := Some "http://localhost:11434"; model := None |}
                "llama3" "llama3").
    + left. split; vm_compute; reflexivity.
    + apply Hsame; reflexivity.
  - apply (Hinj {| url := None; model := Some "m" |}
                {| url := Some "undefined"; model := Some "m" |} "m" "m").
    + left. split; vm_compute; reflexivity.
    + apply Hundef.
Defined.

(** C3 fails as stated: the endpoint ["a_"] with the model ["b"] and the
    endpoint ["a"] with the model ["_b"] share the key ["a__b"]. *)
Lemma cacheKey_collision :
  ~ (cacheKey {| url := Some "a_"; model := Some "b" |} "b"
     = cacheKey {| url := Some "a"; model := Some "_b" |} "_b"
     <-> "a_" = "a" /\ "b" = "_b").
Proof.
  intros [H _]. specialize (H eq_refl). destruct H as [H _]. discriminate.
Qed.

(** ** The model-info cache *)

(** [getCachedModelInfo] always returns an entry: whatever goes wrong
    inside its [try] is caught. *)
Lemma getCachedModelInfo_returns (be : Backend) (provider : IAIProvider)
    (modelName : string) (h : Handler) :
  exists info h',
    getCachedModelInfo be provider modelName h = (Returned info, h').
Proof.
  unfold getCachedModelInfo, bind, cache_get, try_catch, call_show, issue.
  destruct (modelInfoCache h !! cacheKey provider modelName) as [info|].
  - eexists. eexists. reflexivity.
  - cbn [modelInfoCache issued].
    destruct (b_show be (host_of provider) modelName) as [e|[entries|]].
    + eexists. eexists. reflexivity.
    + eexists. eexists. reflexivity.
    + eexists. eexists. reflexivity.
Qed.

(** C2 (as amended): when the entry is not cached and the introspection
    call throws, [getCachedModelInfo] returns the default entry
    [{ contextLength: 0, lastContextLength: 2048 }] and does not throw;
    the cache is left as it was (the default is not stored), one
    introspection call having been issued. *)
Theorem getCachedModelInfo_failure_defaults :
  forall (be : Backend) (h : Handler) (provider : IAIProvider)
         (modelName : string) (e : Error),
    modelInfoCache h !! cacheKey provider modelName = None ->
    b_show be (host_of provider) modelName = ShowThrows e ->
    fst (getCachedModelInfo be provider modelName h)
    = Returned {| contextLength := 0; lastContextLength := 2048 |}
    /\ modelInfoCache (snd (getCachedModelInfo be provider modelName h))
       = modelInfoCache h
    /\ issued (snd (getCachedModelInfo be provider modelName h))
       = issued h ++ [CallShow (host_of provider) modelName].
Proof.
  intros be h provider modelName e Hmiss Hshow.
  unfold getCachedModelInfo, bind, cache_get, try_catch, call_show, issue.
  rewrite Hmiss. cbn [modelInfoCache issued]. rewrite Hshow.
  unfold throw, ret. cbn. repeat split; reflexivity.
Qed.

Lemma getCachedModelInfo_failure_defaults_witness :
  fst (getCachedModelInfo downBackend localProvider "llama3" new_handler)
  = Returned {| contextLength := 0; lastContextLength := 2048 |}
  /\ modelInfoCache
       (snd (getCachedModelInfo downBackend localProvider "llama3"
                                new_handler))
     = modelInfoCache new_handler
  /\ issued
       (snd (getCachedModelInfo downBackend localProvider "llama3"
                                new_handler))
     = issued new_handler ++ [CallShow (host_of localProvider) "llama3"].
Proof.
  apply (getCachedModelInfo_failure_defaults
           downBackend new_handler localProvider "llama3"
           (Err "connection refused")); reflexivity.
Defined.

(** C2 fails as stated: after a failed introspection on a fresh handler
    the cache holds no entry under the requested key. *)
Lemma getCachedModelInfo_failure_not_stored :
  ~ (modelInfoCache
       (snd (getCachedModelInfo downBackend localProvider "llama3"
                                new_handler))
     !! cacheKey localProvider "llama3"
     = Some {| contextLength := 0; lastContextLength := 2048 |}).
Proof.
  vm_compute. discriminate.
Qed.

(** ** Embedding requests *)

(** C9 (as amended): when neither [input] nor the legacy [text] is
    supplied, or the value read is the empty string, [embed] throws
    "Either input or text parameter must be provided" and issues no
    backend call at all: the handler is unchanged. *)
Theorem embed_rejects_missing_input :
  forall (be : Backend) (params : IAIProvidersEmbedParams) (h : Handler),
    (e_input params = None /\ e_text params = None)
    \/ e_input params = Some (InputText "")
    \/ (e_input params = None /\ e_text params = Some (InputText "")) ->
    embed be params h
    = (Thrown (Err "Either input or text parameter must be provided"), h).
Proof.
  intros be params h [[Hi Ht]|[Hi|[Hi Ht]]]; unfold embed;
    rewrite Hi; try rewrite Ht; reflexivity.
Qed.

Lemma embed_rejects_missing_input_witness :
  embed downBackend
        {| e_provider := localProvider; e_input := None; e_text := None |}
        new_handler
  = (Thrown (Err "Either input or text parameter must be provided"),
     new_handler).
Proof.
  apply embed_rejects_missing_input. left. split; reflexivity.
Defined.

(** C9 fails as stated: an empty list of inputs is not rejected; the
    embedding call is issued and its answer returned. *)
Lemma embed_accepts_empty_list :
  let r :=
    embed downBackend
          {| e_provider := localProvider;
             e_input := Some (InputList []);
             e_text := None |}
          new_handler in
  ~ ((exists e, fst r = Thrown e)
     /\ forall request,
          ~ In (CallEmbed "http://localhost:11434" request) (issued (snd r))).
Proof.
  intros r [[e He] _]. vm_compute in He. discriminate.
Qed.

(** ** Images: stripping the data-URL prefix *)

Lemma append_assoc (a b c : string) : (a +:+ b) +:+ c = a +:+ (b +:+ c).
Proof.
  induction a as [|x a IH]; [reflexivity|].
  rewrite !append_cons. now rewrite IH.
Qed.

Lemma length_append (a b : string) :
  String.length (a +:+ b) = (String.length a + String.length b)%nat.
Proof.
  induction a as [|x a IH]; [reflexivity|].
  rewrite append_cons. simpl. now rewrite IH.
Qed.

Lemma prefix_nil (s : string) : String.prefix "" s = true.
Proof. destruct s; reflexivity. Qed.

Lemma prefix_append_self (p s : string) : String.prefix p (p +:+ s) = true.
Proof.
  induction p as [|c p IH]; [apply prefix_nil|].
  rewrite append_cons. simpl.
  destruct (ascii_dec c c); [exact IH | congruence].
Qed.

(** A pattern no longer than [x] is looked for in [x] alone. *)
Lemma prefix_append_long (p x y : string) :
  (String.length p <= String.length x)%nat ->
  String.prefix p (x +:+ y) = String.prefix p x.
Proof.
  revert x. induction p as [|c p IH]; intros x Hlen.
  - now rewrite !prefix_nil.
  - destruct x as [|d x]; simpl in Hlen; [lia|].
    rewrite append_cons. simpl.
    destruct (ascii_dec c d); [|reflexivity].
    apply IH. lia.
Qed.

Lemma includes_cons (needle : string) (c : ascii) (hay : string) :
  Str.includes needle (String c hay)
  = String.prefix needle (String c hay) || Str.includes needle hay.
Proof. reflexivity. Qed.

Lemma lazyUntilBase64_unfold (s : string) :
  lazyUntilBase64 s =
  if String.prefix ";base64," s then Some (Str.drop 8 s)
  else
    match s with
    | EmptyString => None
    | String c s' => if isLineTerminator c then None else lazyUntilBase64 s'
    end.
Proof. destruct s; reflexivity. Qed.

(** The lazy group stops at the end of an image format. *)
Lemma lazyUntilBase64_format (fmt payload : string) :
  isImageFormat fmt = true ->
  lazyUntilBase64 (fmt +:+ ";base64," +:+ payload) = Some payload.
Proof.
  unfold isImageFormat. induction fmt as [|c fmt IH]; intros H.
  - rewrite append_nil_l, lazyUntilBase64_unfold, prefix_append_self.
    reflexivity.
  - apply andb_true_iff in H as [Hdot Hmark].
    simpl in Hdot. apply andb_true_iff in Hdot as [Hc Hdot].
    apply negb_true_iff in Hc. apply negb_true_iff in Hmark.
    rewrite append_cons, includes_cons in Hmark.
    apply orb_false_iff in Hmark as [Hhere Hlater].
    rewrite lazyUntilBase64_unfold.
    change (String c fmt +:+ ";base64," +:+ payload)
      with (String c fmt +:+ ";base64" +:+ ("," +:+ payload)).
    rewrite <- append_assoc, prefix_append_long.
    + rewrite append_cons. rewrite Hhere.
      rewrite append_cons. rewrite Hc.
      rewrite append_assoc.
      apply IH. rewrite Hdot, Hlater. reflexivity.
    + rewrite length_append. simpl. lia.
Qed.

Lemma stripDataUrlPrefix_format (fmt payload : string) :
  isImageFormat fmt = true ->
  stripDataUrlPrefix ("data:image/" +:+ fmt +:+ ";base64," +:+ payload)
  = payload.
Proof.
  intros H. unfold stripDataUrlPrefix.
  rewrite prefix_append_self.
  change (Str.drop 11 ("data:image/" +:+ fmt +:+ ";base64," +:+ payload))
    with (fmt +:+ ";base64," +:+ payload).
  cbv iota. now rewrite lazyUntilBase64_format.
Qed.

(** ** Images: the message that carries them *)

Lemma lookup_map {A B} (f : A -> B) (l : list A) (i : nat) :
  map f l !! i = option_map f (l !! i).
Proof.
  revert i. induction l as [|a l IH]; intros [|i]; try reflexivity.
  apply IH.
Qed.

Lemma lastIndexOf_absent (x : string) (xs : list string) :
  (forall j, xs !! j <> Some x) -> lastIndexOf x xs = None.
Proof.
  induction xs as [|y xs IH]; intros H; [reflexivity|].
  simpl. rewrite IH.
  - destruct (String.eqb_spec y x) as [->|_]; [|reflexivity].
    now specialize (H O).
  - intros j. exact (H (S j)).
Qed.

Lemma lastIndexOf_last (x : string) (xs : list string) (i : nat) :
  xs !! i = Some x ->
  (forall j, (i < j)%nat -> xs !! j <> Some x) ->
  lastIndexOf x xs = Some i.
Proof.
  revert i. induction xs as [|y xs IH]; intros [|i] Hi Hlater;
    try discriminate.
  - simpl in Hi. injection Hi as ->. simpl.
    rewrite lastIndexOf_absent.
    + now rewrite String.eqb_refl.
    + intros j. apply (Hlater (S j)). lia.
  - simpl. rewrite (IH i); [reflexivity | exact Hi |].
    intros j Hj. apply (Hlater (S j)). lia.
Qed.

Lemma attachImages_last_user
    (chatMessages : list ChatMessage) (processedImages : list string)
    (i : nat) (m : ChatMessage) :
  chatMessages !! i = Some m ->
  role m = "user" ->
  (forall j m', (i < j)%nat -> chatMessages !! j = Some m' ->
                role m' <> "user") ->
  attachImages chatMessages processedImages
  = <[i := withImages m processedImages]> chatMessages.
Proof.
  intros Hi Hrole Hlater. unfold attachImages.
  rewrite (lastIndexOf_last "user" (map role chatMessages) i).
  - unfold setImagesAt. now rewrite Hi.
  - rewrite lookup_map, Hi. simpl. now rewrite Hrole.
  - intros j Hj. rewrite lookup_map.
    destruct (chatMessages !! j) as [m'|] eqn:Hm'; [|discriminate].
    simpl. intros [= Heq]. exact (Hlater j m' Hj Hm' Heq).
Qed.

Lemma attachImages_no_user
    (chatMessages : list ChatMessage) (last : ChatMessage)
    (processedImages : list string) :
  (forall m, In m (chatMessages ++ [last]) -> role m <> "user") ->
  attachImages (chatMessages ++ [last]) processedImages
  = chatMessages ++ [withImages last processedImages].
Proof.
  intros Hnone. unfold attachImages.
  rewrite lastIndexOf_absent.
  - rewrite length_app. simpl.
    destruct (Nat.ltb_spec 0 (length chatMessages + 1)) as [_|H]; [|lia].
    replace (length chatMessages + 1 - 1)%nat
      with (length chatMessages + 0)%nat by lia.
    unfold setImagesAt.
    rewrite lookup_app_r by lia.
    replace (length chatMessages + 0 - length chatMessages)%nat
      with O by lia.
    simpl. now rewrite insert_app_r.
  - intros j. rewrite lookup_map.
    destruct ((chatMessages ++ [last]) !! j) as [m|] eqn:Hm; [|discriminate].
    simpl. intros [= Heq]. apply (Hnone m); [|exact Heq].
    apply list_elem_of_In. eapply list_elem_of_lookup_2. exact Hm.
Qed.

(** The request built for an image-bearing normalisation. *)
Lemma prepareChat_with_images
    (params : IAIProvidersExecuteParams) (modelInfo : option ModelInfo)
    (h : Handler) (chatMessages : list ChatMessage)
    (extractedImages : list string) :
  normalize params = Returned (chatMessages, extractedImages) ->
  extractedImages <> [] ->
  prepareChat params modelInfo h
  = (Returned
       {| cr_model := model_of (x_provider params);
          cr_messages :=
            attachImages chatMessages
                         (map stripDataUrlPrefix extractedImages);
          cr_options :=
            match x_options params with
            | Some options =>
                if bool_decide (options ∪ ∅ = ∅) then None
                else Some (options ∪ ∅)
            | None => None
            end |},
     h).
Proof.
  intros Hn Hne. unfold prepareChat. rewrite Hn.
  destruct extractedImages as [|i rest]; [congruence|].
  cbn [processImages has_length map negb]. unfold bind, ret.
  destruct (x_options params); reflexivity.
Qed.

(** The request handed to [ollama.chat] for an image-bearing request. *)
Lemma startChat_with_images
    (be : Backend) (params : IAIProvidersExecuteParams) (h : Handler)
    (chatMessages : list ChatMessage) (extractedImages : list string) :
  normalize params = Returned (chatMessages, extractedImages) ->
  extractedImages <> [] ->
  exists request h',
    startChat be params h = (Returned request, h')
    /\ cr_messages request
       = attachImages chatMessages (map stripDataUrlPrefix extractedImages)
    /\ In (CallChat (host_of (x_provider params)) request) (issued h').
Proof.
  intros Hn Hne. unfold startChat, bind, try_catch.
  destruct (getCachedModelInfo_returns
              be (x_provider params) (model_of (x_provider params)) h)
    as [info [h1 Hinfo]].
  rewrite Hinfo. cbn [ret].
  rewrite (prepareChat_with_images _ _ _ _ _ Hn Hne).
  unfold issue, ret. eexists. eexists.
  split; [reflexivity|]. split; [reflexivity|].
  cbn [issued]. apply in_or_app. right. left. reflexivity.
Qed.

(** C7: on a request that carries images, every image of the form
    [data:image/<fmt>;base64,<payload>] is reduced to its payload ([<fmt>]
    being what the pattern's lazy group can stand for: no line terminator
    in it, and ending at the first [;base64,]); the request sent to the
    backend carries the stripped images, all of them, on the last message
    whose role is [user]; without any user message, on the last message;
    without any message, on a synthesized user message with empty
    content. *)
Theorem images_attached_to_last_user :
  (forall fmt payload : string,
      isImageFormat fmt = true ->
      stripDataUrlPrefix ("data:image/" +:+ fmt +:+ ";base64," +:+ payload)
      = payload)
  /\ (forall (be : Backend) (params : IAIProvidersExecuteParams)
             (h : Handler) (chatMessages : list ChatMessage)
             (extractedImages : list string),
         normalize params = Returned (chatMessages, extractedImages) ->
         extractedImages <> [] ->
         exists request h',
           startChat be params h = (Returned request, h')
           /\ cr_messages request
              = attachImages chatMessages
                             (map stripDataUrlPrefix extractedImages)
           /\ In (CallChat (host_of (x_provider params)) request)
                 (issued h'))
  /\ (forall (chatMessages : list ChatMessage)
             (processedImages : list string) (i : nat) (m : ChatMessage),
         chatMessages !! i = Some m ->
         role m = "user" ->
         (forall j m', (i < j)%nat -> chatMessages !! j = Some m' ->
                       role m' <> "user") ->
         attachImages chatMessages processedImages
         = <[i := {| role := role m; content := content m;
                     images := Some processedImages |}]> chatMessages)
  /\ (forall (chatMessages : list ChatMessage) (last : ChatMessage)
             (processedImages : list string),
         (forall m, In m (chatMessages ++ [last]) -> role m <> "user") ->
         attachImages (chatMessages ++ [last]) processedImages
         = chatMessages ++
             [{| role := role last; content := content last;
                 images := Some processedImages |}])
  /\ (forall processedImages : list string,
         attachImages [] processedImages
         = [{| role := "user"; content := "";
               images := Some processedImages |}]).
Proof.
  split; [exact stripDataUrlPrefix_format|].
  split.
  { intros be params h chatMessages extractedImages Hn Hne.
    now apply startChat_with_images. }
  split; [exact attachImages_last_user|].
  split; [exact attachImages_no_user|].
  reflexivity.
Qed.

(** The example of the specification, and one request per attachment
    rule. *)
Lemma images_attached_to_last_user_witness :
  stripDataUrlPrefix "data:image/png;base64,AAAA" = "AAAA"
  /\ (exists request h',
         startChat downBackend hiParams new_handler = (Returned request, h')
         /\ cr_messages request
            = [{| role := "user"; content := "hi";
                  images := Some ["AAAA"] |}])
  /\ attachImages
       [chatMessage "user" "one"; chatMessage "user" "two";
        chatMessage "assistant" "three"]
       ["AAAA"]
     = [chatMessage "user" "one";
        {| role := "user"; content := "two"; images := Some ["AAAA"] |};
        chatMessage "assistant" "three"]
  /\ attachImages
       [chatMessage "system" "one"; chatMessage "assistant" "two"]
       ["AAAA"]
     = [chatMessage "system" "one";
        {| role := "assistant"; content := "two";
           images := Some ["AAAA"] |}].
Proof.
  destruct images_attached_to_last_user
    as [Hstrip [Hrequest [Huser [Hlast _]]]].
  split; [|split; [|split]].
  - apply (Hstrip "png" "AAAA"). reflexivity.
  - destruct (Hrequest downBackend hiParams new_handler
                [chatMessage "user" "hi"] ["data:image/png;base64,AAAA"])
      as [request [h' [Hr [Hm _]]]]; [reflexivity | discriminate |].
    exists request, h'. split; [exact Hr|]. rewrite Hm. reflexivity.
  - assert (Hlater : forall j m', (1 < j)%nat ->
              [chatMessage "user" "one"; chatMessage "user" "two";
               chatMessage "assistant" "three"] !! j = Some m' ->
              role m' <> "user").
    { intros [|[|[|j]]] m' Hj Hm'; try lia.
      - injection Hm' as <-. discriminate.
      - discriminate. }
    exact (Huser [chatMessage "user" "one"; chatMessage "user" "two";
                  chatMessage "assistant" "three"]
                 ["AAAA"] 1%nat (chatMessage "user" "two")
                 eq_refl eq_refl Hlater).
  - assert (Hnone : forall m,
              In m ([chatMessage "system" "one"]
                    ++ [chatMessage "assistant" "two"]) ->
              role m <> "user").
    { intros m [<-|[<-|[]]]; discriminate. }
    exact (Hlast [chatMessage "system" "one"]
                 (chatMessage "assistant" "two") ["AAAA"] Hnone).
Defined.

(** ** The streaming controller *)

Section Controller.

Variable be : Backend.

Lemma run_app (x : Execution) (s1 s2 : list Action) :
  run be x (s1 ++ s2) = run be (run be x s1) s2.
Proof. unfold run. apply fold_left_app. Qed.

Lemma run_cons (x : Execution) (a : Action) (s : list Action) :
  run be x (a :: s) = run be (step be x a) s.
Proof. reflexivity. Qed.


Lemma filter_data_calls (c a : string) (cbs : list nat) :
  List.filter isErrorCall (map (fun cb => DataCall cb c a) cbs) = [].
Proof. induction cbs as [|cb cbs IH]; [reflexivity | exact IH]. Qed.

Lemma filter_end_calls (t : string) (cbs : list nat) :
  List.filter isErrorCall (map (fun cb => EndCall cb t) cbs) = [].
Proof. induction cbs as [|cb cbs IH]; [reflexivity | exact IH]. Qed.


(** Handle calls deliver nothing and leave the task where it is. *)
Lemma call_delivered (op : HandleOp) (x : Execution) :
  delivered (call op x) = delivered x.
Proof. destruct op; reflexivity. Qed.

Lemma call_phase (op : HandleOp) (x : Execution) :
  phase (call op x) = phase x.
Proof. destruct op; reflexivity. Qed.










(** A series of handle calls, in one step. *)
Lemma run_calls (ops : list HandleOp) (x : Execution) :
  run be x (map Call ops) = afterCalls ops x.
Proof.
  revert x. induction ops as [|op ops IH]; intros x.
  - destruct x as [ps h a t [d n r] p ds]. unfold afterCalls. cbn.
    now rewrite orb_false_r, !app_nil_r.
  - cbn [map]. rewrite run_cons. cbn [step]. rewrite IH.
    destruct x as [ps h a t [d n r] p ds].
    destruct op; unfold afterCalls; cbn;
      rewrite <- ?app_assoc, ?orb_true_r, ?orb_false_r; reflexivity.
Qed.

(** Data callbacks receive non-empty chunks only. *)
Lemma error_calls_chunks (e : Error) (cbs : list nat) (ds : list Delivery) :
  chunksNonEmpty ds ->
  chunksNonEmpty (ds ++ map (fun cb => ErrorCall cb e) cbs).
Proof.
  intros Hds cb chunk acc Hin.
  apply in_app_or in Hin as [Hin|Hin]; [exact (Hds _ _ _ Hin)|].
  apply in_map_iff in Hin as [? [? _]]. discriminate.
Qed.

Lemma end_calls_chunks (t : string) (cbs : list nat) (ds : list Delivery) :
  chunksNonEmpty ds ->
  chunksNonEmpty (ds ++ map (fun cb => EndCall cb t) cbs).
Proof.
  intros Hds cb chunk acc Hin.
  apply in_app_or in Hin as [Hin|Hin]; [exact (Hds _ _ _ Hin)|].
  apply in_map_iff in Hin as [? [? _]]. discriminate.
Qed.

Lemma step_chunks (x : Execution) (a : Action) :
  chunksNonEmpty (delivered x) -> chunksNonEmpty (delivered (step be x a)).
Proof.
  intros Hx. destruct a as [op|]; cbn [step].
  - now rewrite call_delivered.
  - unfold resume.
    destruct (phase x) as [|[e|parts ending]|[|part rest] ending| | |e];
      try exact Hx.
    + destruct (startChat be (call_params x) (handler x))
        as [[request|e] h']; [exact Hx|].
      now apply error_calls_chunks.
    + now apply error_calls_chunks.
    + destruct ending as [|e]; [|now apply error_calls_chunks].
      destruct (isAborted x); [exact Hx|].
      now apply end_calls_chunks.
    + destruct (isAborted x); [exact Hx|].
      destruct (truthy_string (responseText part)) eqn:Ht; [|exact Hx].
      intros cb chunk acc Hin. cbn in Hin.
      apply in_app_or in Hin as [Hin|Hin]; [exact (Hx _ _ _ Hin)|].
      apply in_map_iff in Hin as [? [[= _ <- _] _]].
      unfold truthy_string in Ht. apply negb_true_iff in Ht.
      now apply String.eqb_neq in Ht.
Qed.

Lemma run_chunks (schedule : list Action) (x : Execution) :
  chunksNonEmpty (delivered x) ->
  chunksNonEmpty (delivered (run be x schedule)).
Proof.
  revert x. induction schedule as [|a schedule IH]; intros x H; [exact H|].
  rewrite run_cons. apply IH. now apply step_chunks.
Qed.

(** A part without text changes neither the deliveries nor the text. *)
Lemma resume_empty_part (x : Execution) (part : ExtendedChatResponse)
    (rest : list ExtendedChatResponse) (ending : StreamEnding) :
  phase x = Streaming (part :: rest) ending ->
  responseText part = "" ->
  delivered (resume be x) = delivered x
  /\ fullText (resume be x) = fullText x.
Proof.
  intros Hp Ht. unfold resume. rewrite Hp, Ht.
  destruct (isAborted x); split; reflexivity.
Qed.

(** The resumptions of a successful execution, one by one. *)
Lemma afterCalls_record (ops : list HandleOp)
    (ps : IAIProvidersExecuteParams) (h : Handler) (a : bool)
    (t : string) (d n r : list nat) (p : Phase) (ds : list Delivery) :
  afterCalls ops
    {| call_params := ps; handler := h; isAborted := a; fullText := t;
       handlers := {| h_data := d; h_end := n; h_error := r |};
       phase := p; delivered := ds |}
  = {| call_params := ps; handler := h;
       isAborted := a || existsb isAbort ops; fullText := t;
       handlers := {| h_data := d ++ dataSubscribers ops;
                      h_end := n ++ endSubscribers ops;
                      h_error := r ++ errorSubscribers ops |};
       phase := p; delivered := ds |}.
Proof. reflexivity. Qed.

Lemma resume_started (ps : IAIProvidersExecuteParams) (h h' : Handler)
    (request : ChatRequest) (a : bool) (t : string) (hs : Handlers)
    (ds : list Delivery) :
  startChat be ps h = (Returned request, h') ->
  resume be
    {| call_params := ps; handler := h; isAborted := a; fullText := t;
       handlers := hs; phase := AwaitingModelInfo; delivered := ds |}
  = {| call_params := ps; handler := h'; isAborted := a; fullText := t;
       handlers := hs;
       phase := AwaitingChat (b_chat be (host_of (x_provider ps)) request);
       delivered := ds |}.
Proof.
  intros H. unfold resume. cbn [phase handler call_params]. now rewrite H.
Qed.

Lemma resume_chat_resolved (ps : IAIProvidersExecuteParams) (h : Handler)
    (a : bool) (t : string) (hs : Handlers)
    (parts : list ExtendedChatResponse) (ending : StreamEnding)
    (ds : list Delivery) :
  resume be
    {| call_params := ps; handler := h; isAborted := a; fullText := t;
       handlers := hs; phase := AwaitingChat (ChatStreams parts ending);
       delivered := ds |}
  = {| call_params := ps; handler := h; isAborted := a; fullText := t;
       handlers := hs; phase := Streaming parts ending; delivered := ds |}.
Proof. reflexivity. Qed.

Lemma resume_text_part (ps : IAIProvidersExecuteParams) (h : Handler)
    (t s : string) (hs : Handlers) (rest : list ExtendedChatResponse)
    (ending : StreamEnding) (ds : list Delivery) :
  truthy_string s = true ->
  resume be
    {| call_params := ps; handler := h; isAborted := false; fullText := t;
       handlers := hs; phase := Streaming (textPart s :: rest) ending;
       delivered := ds |}
  = {| call_params := ps; handler := h; isAborted := false;
       fullText := t +:+ s; handlers := hs;
       phase := Streaming rest ending;
       delivered :=
         ds ++ map (fun cb => DataCall cb s (t +:+ s)) (h_data hs) |}.
Proof.
  intros H. unfold resume.
  cbn [phase isAborted responseText textPart message rm_content].
  now rewrite H.
Qed.

Lemma resume_clean_end (ps : IAIProvidersExecuteParams) (h : Handler)
    (t : string) (hs : Handlers) (ds : list Delivery) :
  resume be
    {| call_params := ps; handler := h; isAborted := false; fullText := t;
       handlers := hs; phase := Streaming [] EndsCleanly; delivered := ds |}
  = {| call_params := ps; handler := h; isAborted := false; fullText := t;
       handlers := hs; phase := Completed;
       delivered := ds ++ map (fun cb => EndCall cb t) (h_end hs) |}.
Proof. reflexivity. Qed.

End Controller.




(** C8: when the chat stream yields "a", "b", "c" and ends cleanly, and
    [abort()] is not called, the callbacks registered before the first
    chunk are called as follows and in this order: every data callback
    with ("a", "a"), then every data callback with ("b", "ab"), then every
    data callback with ("c", "abc"), then every end callback with "abc";
    no error callback is called, and the execution is completed. *)
Theorem three_chunks_then_end :
  forall (be : Backend) (params : IAIProvidersExecuteParams)
         (h h' : Handler) (request : ChatRequest)
         (ops0 ops1 ops2 : list HandleOp),
    existsb isAbort (ops0 ++ ops1 ++ ops2) = false ->
    startChat be params h = (Returned request, h') ->
    b_chat be (host_of (x_provider params)) request
    = ChatStreams [textPart "a"; textPart "b"; textPart "c"] EndsCleanly ->
    let final :=
      run be (execute params h)
          (map Call ops0 ++ [Resume] ++ map Call ops1 ++ [Resume]
           ++ map Call ops2 ++ [Resume; Resume; Resume; Resume]) in
    let subscribers := ops0 ++ ops1 ++ ops2 in
    delivered final
    = map (fun cb => DataCall cb "a" "a") (dataSubscribers subscribers)
      ++ map (fun cb => DataCall cb "b" "ab") (dataSubscribers subscribers)
      ++ map (fun cb => DataCall cb "c" "abc") (dataSubscribers subscribers)
      ++ map (fun cb => EndCall cb "abc") (endSubscribers subscribers)
    /\ List.filter isErrorCall (delivered final) = []
    /\ phase final = Completed.
Proof.
  intros be params h h' request ops0 ops1 ops2 Hab Hstart Hchat
         final subscribers.
  assert (Hfinal :
    final
    = {| call_params := params;
         handler := h';
         isAborted := false;
         fullText := "abc";
         handlers :=
           {| h_data := dataSubscribers subscribers;
              h_end := endSubscribers subscribers;
              h_error := errorSubscribers subscribers |};
         phase := Completed;
         delivered :=
           map (fun cb => DataCall cb "a" "a") (dataSubscribers subscribers)
           ++ map (fun cb => DataCall cb "b" "ab")
                  (dataSubscribers subscribers)
           ++ map (fun cb => DataCall cb "c" "abc")
                  (dataSubscribers subscribers)
           ++ map (fun cb => EndCall cb "abc")
                  (endSubscribers subscribers) |}).
  { subst final subscribers.
    rewrite !existsb_app in Hab.
    apply orb_false_iff in Hab as [Hab0 Hab].
    apply orb_false_iff in Hab as [Hab1 Hab2].
    rewrite !run_app, !run_calls.
    unfold dataSubscribers, endSubscribers, errorSubscribers.
    rewrite !flat_map_app.
    fold (dataSubscribers ops0) (dataSubscribers ops1) (dataSubscribers ops2).
    fold (endSubscribers ops0) (endSubscribers ops1) (endSubscribers ops2).
    fold (errorSubscribers ops0) (errorSubscribers ops1)
         (errorSubscribers ops2).
    unfold run, execute. cbn [fold_left step].
    rewrite afterCalls_record, Hab0.
    rewrite (resume_started be params h h' request _ _ _ _ Hstart), Hchat.
    rewrite afterCalls_record, Hab1.
    rewrite resume_chat_resolved.
    rewrite afterCalls_record, Hab2.
    rewrite !resume_text_part by reflexivity.
    rewrite resume_clean_end.
    cbn [h_data h_end orb app]. rewrite <- !app_assoc.
    reflexivity. }
  rewrite Hfinal. cbn [delivered phase].
  split; [reflexivity|]. split; [|reflexivity].
  rewrite !List.filter_app, !filter_data_calls, filter_end_calls.
  reflexivity.
Qed.

Lemma three_chunks_then_end_witness :
  delivered
    (run (streamingBackend [textPart "a"; textPart "b"; textPart "c"]
                           EndsCleanly)
         (execute (promptParams "hello") new_handler)
         (map Call [onData 1%nat; onEnd 2%nat] ++ [Resume]
          ++ map Call [onError 3%nat] ++ [Resume]
          ++ map Call [onData 4%nat]
          ++ [Resume; Resume; Resume; Resume]))
  = [DataCall 1%nat "a" "a"; DataCall 4%nat "a" "a";
     DataCall 1%nat "b" "ab"; DataCall 4%nat "b" "ab";
     DataCall 1%nat "c" "abc"; DataCall 4%nat "c" "abc";
     EndCall 2%nat "abc"].
Proof.
  refine (proj1
            (three_chunks_then_end
               (streamingBackend [textPart "a"; textPart "b"; textPart "c"]
                                 EndsCleanly)
               (promptParams "hello") new_handler _ _
               [onData 1%nat; onEnd 2%nat] [onError 3%nat] [onData 4%nat]
               eq_refl eq_refl eq_refl)).
Defined.

(** C10: a streamed part whose message or content is absent, or whose
    content is the empty string, causes no data event and leaves the
    accumulated text unchanged; data callbacks only ever receive non-empty
    chunks; so an execution can receive more parts than it delivers data
    events (here three parts, one data event). *)
Theorem empty_chunks_are_skipped :
  (forall (be : Backend) (x : Execution) (part : ExtendedChatResponse)
          (rest : list ExtendedChatResponse) (ending : StreamEnding),
      phase x = Streaming (part :: rest) ending ->
      (forall m s, message part = Some m -> rm_content m = Some s ->
                   s = "") ->
      delivered (resume be x) = delivered x
      /\ fullText (resume be x) = fullText x)
  /\ (forall (be : Backend) (params : IAIProvidersExecuteParams)
             (h : Handler) (schedule : list Action)
             (cb : nat) (chunk acc : string),
         In (DataCall cb chunk acc)
            (delivered (run be (execute params h) schedule)) ->
         chunk <> "")
  /\ (let final :=
        run (streamingBackend
               [ {| message := None |}; textPart "a"; textPart "" ]
               EndsCleanly)
            (execute (promptParams "hello") new_handler)
            [Call (onData 1%nat);
             Resume; Resume; Resume; Resume; Resume; Resume] in
      delivered final = [DataCall 1%nat "a" "a"]
      /\ phase final = Completed).
Proof.
  split; [|split].
  - intros be x part rest ending Hp Hempty.
    apply (resume_empty_part be x part rest ending Hp).
    unfold responseText.
    destruct (message part) as [m|]; [|reflexivity].
    destruct (rm_content m) as [s|] eqn:Hs; [|reflexivity].
    exact (Hempty m s eq_refl Hs).
  - intros be params h schedule cb chunk acc Hin.
    apply (run_chunks be schedule (execute params h)) in Hin; [exact Hin|].
    intros ? ? ? [].
  - vm_compute. split; reflexivity.
Qed.

Lemma empty_chunks_are_skipped_witness :
  (let be :=
     streamingBackend [ {| message := None |}; textPart "a" ] EndsCleanly in
   let x :=
     run be (execute (promptParams "hello") new_handler)
         [Call (onData 1%nat); Resume; Resume] in
   delivered (resume be x) = delivered x
   /\ fullText (resume be x) = fullText x)
  /\ (In (DataCall 1%nat "a" "a")
         (delivered
            (run (streamingBackend [textPart "a"] EndsCleanly)
                 (execute (promptParams "hello") new_handler)
                 [Call (onData 1%nat); Resume; Resume; Resume])) ->
      "a" <> "").
Proof.
  destruct empty_chunks_are_skipped as [Hskip [Hnonempty _]].
  split.
  - apply (Hskip _ _ {| message := None |} [textPart "a"] EndsCleanly).
    + reflexivity.
    + intros m s Hm. discriminate Hm.
  - apply Hnonempty.
Defined.

(* ===================================================================== *)
(** * Further properties of the handler                                   *)
(* ===================================================================== *)

(** ** The optimizer *)

Lemma buffered_covers (t d : Z) :
  0 <= d -> t <= buffered t d /\ d <= buffered t d.
Proof.
  intros Hd. rewrite buffered_exact.
  assert (Z.max t d <= (6 * Z.max t d + 4) / 5).
  { apply Z.div_le_lower_bound; lia. }
  lia.
Qed.

(** A decision to update comes from the second branch: its size exceeds
    the last one and respects the limit. *)
Lemma shouldUpdate_target (len : JsLength) (last def limit : Z) :
  shouldUpdate (optimizeContext len last def limit) = true ->
  exists t,
    num_ctx (optimizeContext len last def limit) = Some t
    /\ last < t /\ t <= limit.
Proof.
  unfold optimizeContext.
  destruct (len_leb (estimateTokens len) last); cbn [shouldUpdate num_ctx];
    [discriminate|].
  intros H. apply Z.gtb_gt in H. eexists. split; [reflexivity|].
  split; [lia | apply Z.le_min_r].
Qed.

(** X5: the optimizer settles.  When a call decides to update and its
    size is recorded as the last context length, the next call for the
    same input decides no update. *)
Theorem optimizeContext_settles :
  forall (inputLength lastContextLength defaultContextLength limit t : Z),
    shouldUpdate
      (optimizeContext (Len inputLength) lastContextLength
                       defaultContextLength limit) = true ->
    num_ctx
      (optimizeContext (Len inputLength) lastContextLength
                       defaultContextLength limit) = Some t ->
    shouldUpdate
      (optimizeContext (Len inputLength) t defaultContextLength limit)
    = false.
Proof.
  intros n last def limit t Hs Ht.
  destruct (Z_le_gt_dec (estimate n) last) as [Hle|Hgt].
  { rewrite optimizeContext_small in Hs by exact Hle. discriminate. }
  rewrite optimizeContext_large in Ht by exact Hgt.
  cbn [num_ctx] in Ht. injection Ht as Ht.
  destruct (Z_le_gt_dec (estimate n) t) as [Hle'|Hgt'].
  - now rewrite optimizeContext_small by exact Hle'.
  - rewrite optimizeContext_large by exact Hgt'. cbn [shouldUpdate].
    rewrite Ht. destruct (Z.gtb_spec t t); [lia | reflexivity].
Qed.

Lemma optimizeContext_settles_witness :
  shouldUpdate (optimizeContext (Len 100000) 8192 2048 8192) = false.
Proof.
  apply (optimizeContext_settles 100000 2048 2048 8192 8192);
    vm_compute; reflexivity.
Defined.

(** X6: when the estimate exceeds the last context length (and the
    default is not negative), the size returned never exceeds the limit,
    and unless it is the limit itself it covers both the estimate and the
    default. *)
Theorem optimizeContext_covers_or_caps :
  forall (inputLength lastContextLength defaultContextLength limit : Z),
    0 <= defaultContextLength ->
    Qceiling (inject_Z inputLength / (5 # 2)) > lastContextLength ->
    exists t,
      num_ctx (optimizeContext (Len inputLength) lastContextLength
                               defaultContextLength limit) = Some t
      /\ t <= limit
      /\ (t = limit
          \/ (Qceiling (inject_Z inputLength / (5 # 2)) <= t
              /\ defaultContextLength <= t)).
Proof.
  intros n last def limit Hd Hgt. change (estimate n > last) in Hgt.
  change (Qceiling (inject_Z n / (5 # 2))) with (estimate n).
  rewrite optimizeContext_large by exact Hgt. cbn [num_ctx].
  eexists. split; [reflexivity|].
  destruct (buffered_covers (estimate n) def Hd) as [H1 H2].
  split; [apply Z.le_min_r|].
  destruct (Z.min_spec (buffered (estimate n) def) limit) as [[_ ->]|[_ ->]];
    [right; split; assumption | left; reflexivity].
Qed.

Lemma optimizeContext_covers_or_caps_witness :
  exists t,
    num_ctx (optimizeContext (Len 10000) 2048 2048 8192) = Some t
    /\ t <= 8192
    /\ (t = 8192
        \/ (Qceiling (inject_Z 10000 / (5 # 2)) <= t /\ 2048 <= t)).
Proof.
  apply (optimizeContext_covers_or_caps 10000 2048 2048 8192).
  - lia.
  - vm_compute. reflexivity.
Defined.

(** ** The model-info cache: introspection *)

Lemma substring_all (s : string) : substring 0 (String.length s) s = s.
Proof. induction s as [|c s IH]; [reflexivity|]. simpl. now rewrite IH. Qed.

Lemma substring_skip (pre s : string) (m : nat) :
  substring (String.length pre) m (pre +:+ s) = substring 0 m s.
Proof. induction pre as [|c pre IH]; [reflexivity|]. exact IH. Qed.

Lemma substring_split (s : string) (i : nat) :
  (i <= String.length s)%nat ->
  s = substring 0 i s +:+ substring i (String.length s - i) s.
Proof.
  revert i. induction s as [|c s IH]; intros [|i] Hi; simpl in *.
  - reflexivity.
  - lia.
  - now rewrite substring_all.
  - rewrite append_cons. f_equal. apply IH. lia.
Qed.

(** [endsWith] holds exactly of the strings that end with the suffix. *)
Lemma endsWith_iff (s suffix : string) :
  Str.endsWith s suffix = true <-> exists pre, s = pre +:+ suffix.
Proof.
  unfold Str.endsWith. split.
  - intros H. apply andb_true_iff in H as [Hle Heq].
    apply Nat.leb_le in Hle. apply String.eqb_eq in Heq.
    exists (substring 0 (String.length s - String.length suffix) s).
    pose proof (substring_split
                  s (String.length s - String.length suffix)) as Hsplit.
    replace (String.length s - (String.length s - String.length suffix))%nat
      with (String.length suffix) in Hsplit by lia.
    rewrite Heq in Hsplit. apply Hsplit. lia.
  - intros [pre ->]. rewrite length_append.
    apply andb_true_iff. split; [apply Nat.leb_le; lia|].
    replace (String.length pre + String.length suffix
             - String.length suffix)%nat
      with (String.length pre) by lia.
    rewrite substring_skip, substring_all. apply String.eqb_refl.
Qed.

Lemma isContextLengthEntry_iff (entry : string * JsValue) :
  isContextLengthEntry entry = true <-> namesContextLength entry.
Proof.
  destruct entry as [key value]. unfold isContextLengthEntry,
    namesContextLength. cbn [fst snd].
  rewrite andb_true_iff, orb_true_iff, endsWith_iff, String.eqb_eq.
  split.
  - intros [Hkey Hval]. split; [exact Hkey|].
    destruct value as [n|r]; [|discriminate].
    exists n. split; [reflexivity|]. apply Z.gtb_gt in Hval. lia.
  - intros [Hkey [n [-> Hn]]]. split; [exact Hkey|].
    apply Z.gtb_gt. lia.
Qed.

Lemma find_first {A} (f : A -> bool) (before : list A) (x : A)
    (after : list A) :
  (forall y, In y before -> f y = false) ->
  f x = true ->
  List.find f (before ++ x :: after) = Some x.
Proof.
  induction before as [|y before IH]; intros Hb Hx; simpl.
  - now rewrite Hx.
  - rewrite (Hb y) by now left.
    apply IH; [|exact Hx]. intros z Hz. apply Hb. now right.
Qed.

Lemma find_nothing {A} (f : A -> bool) (l : list A) :
  (forall y, In y l -> f y = false) -> List.find f l = None.
Proof.
  induction l as [|y l IH]; intros H; simpl; [reflexivity|].
  rewrite (H y) by now left. apply IH. intros z Hz. apply H. now right.
Qed.

(** What a successful introspection of an uncached model does. *)
Lemma getCachedModelInfo_introspects
    (be : Backend) (h : Handler) (provider : IAIProvider)
    (modelName : string) (entries : list (string * JsValue)) :
  modelInfoCache h !! cacheKey provider modelName = None ->
  b_show be (host_of provider) modelName = ShowAnswers (Some entries) ->
  let info :=
    match List.find isContextLengthEntry entries with
    | Some (_, JNumber n) =>
        {| contextLength := n; lastContextLength := 2048 |}
    | _ => getDefaultModelInfo
    end in
  getCachedModelInfo be provider modelName h
  = (Returned info,
     {| modelInfoCache :=
          <[cacheKey provider modelName := info]> (modelInfoCache h);
        issued := issued h ++ [CallShow (host_of provider) modelName] |}).
Proof.
  intros Hmiss Hshow.
  unfold getCachedModelInfo, bind, cache_get, try_catch, call_show, issue.
  rewrite Hmiss. cbn [modelInfoCache issued]. rewrite Hshow.
  reflexivity.
Qed.

(** A cached entry is returned as it is, without any backend call. *)
Lemma getCachedModelInfo_hit
    (be : Backend) (h : Handler) (provider : IAIProvider)
    (modelName : string) (info : ModelInfo) :
  modelInfoCache h !! cacheKey provider modelName = Some info ->
  getCachedModelInfo be provider modelName h = (Returned info, h).
Proof.
  intros Hhit. unfold getCachedModelInfo, bind, cache_get.
  now rewrite Hhit.
Qed.

(** X1: a successful introspection is done once.  On a miss whose
    introspection answers, the entry returned is stored under the key and
    one introspection call is issued; the next call for the same provider
    and model, whatever the backend would answer then, returns the same
    entry and issues no call. *)
Theorem introspection_is_cached :
  forall (be be' : Backend) (h : Handler) (provider : IAIProvider)
         (modelName : string) (entries : list (string * JsValue)),
    modelInfoCache h !! cacheKey provider modelName = None ->
    b_show be (host_of provider) modelName = ShowAnswers (Some entries) ->
    exists info h1,
      getCachedModelInfo be provider modelName h = (Returned info, h1)
      /\ modelInfoCache h1 !! cacheKey provider modelName = Some info
      /\ issued h1 = issued h ++ [CallShow (host_of provider) modelName]
      /\ getCachedModelInfo be' provider modelName h1 = (Returned info, h1).
Proof.
  intros be be' h provider modelName entries Hmiss Hshow.
  eexists. eexists.
  split; [apply (getCachedModelInfo_introspects _ _ _ _ _ Hmiss Hshow)|].
  assert (Hstored :
    modelInfoCache
      {| modelInfoCache :=
           <[cacheKey provider modelName :=
               match List.find isContextLengthEntry entries with
               | Some (_, JNumber n) =>
                   {| contextLength := n; lastContextLength := 2048 |}
               | _ => getDefaultModelInfo
               end]> (modelInfoCache h);
         issued := issued h ++ [CallShow (host_of provider) modelName] |}
    !! cacheKey provider modelName
    = Some match List.find isContextLengthEntry entries with
           | Some (_, JNumber n) =>
               {| contextLength := n; lastContextLength := 2048 |}
           | _ => getDefaultModelInfo
           end).
  { cbn [modelInfoCache]. apply lookup_insert_eq. }
  split; [exact Hstored|]. split; [reflexivity|].
  now apply getCachedModelInfo_hit.
Qed.

Lemma introspection_is_cached_witness :
  exists info h1,
    getCachedModelInfo
      (streamingBackend [] EndsCleanly) localProvider "llama3" new_handler
    = (Returned info, h1)
    /\ modelInfoCache h1 !! cacheKey localProvider "llama3" = Some info
    /\ issued h1
       = issued new_handler ++ [CallShow (host_of localProvider) "llama3"]
    /\ getCachedModelInfo downBackend localProvider "llama3" h1
       = (Returned info, h1).
Proof.
  apply (introspection_is_cached
           (streamingBackend [] EndsCleanly) downBackend new_handler
           localProvider "llama3" [("llama.context_length", JNumber 8192)]);
    reflexivity.
Defined.

(** X2: what is adopted as the context length.  On a successful
    introspection the entry has the default last context length 2048; its
    context length is the number of the first field, in the order of the
    answer, whose name ends in [.context_length] or is [num_ctx] and whose
    value is a positive number; it is 0 when there is no such field. *)
Theorem introspection_adopts_first_context_length :
  forall (be : Backend) (h : Handler) (provider : IAIProvider)
         (modelName : string) (entries : list (string * JsValue)),
    modelInfoCache h !! cacheKey provider modelName = None ->
    b_show be (host_of provider) modelName = ShowAnswers (Some entries) ->
    exists info h1,
      getCachedModelInfo be provider modelName h = (Returned info, h1)
      /\ lastContextLength info = 2048
      /\ (forall before key n after,
             entries = before ++ (key, JNumber n) :: after ->
             (forall e, In e before -> ~ namesContextLength e) ->
             namesContextLength (key, JNumber n) ->
             contextLength info = n)
      /\ ((forall e, In e entries -> ~ namesContextLength e) ->
          contextLength info = 0).
Proof.
  intros be h provider modelName entries Hmiss Hshow.
  eexists. eexists.
  split; [apply (getCachedModelInfo_introspects _ _ _ _ _ Hmiss Hshow)|].
  split; [destruct (List.find _ entries) as [[k [n|r]]|]; reflexivity|].
  split.
  - intros before key n after -> Hbefore Hkey.
    rewrite (find_first isContextLengthEntry before (key, JNumber n) after).
    + reflexivity.
    + intros e He. destruct (isContextLengthEntry e) eqn:E; [|reflexivity].
      apply isContextLengthEntry_iff in E. now apply Hbefore in He.
    + now apply isContextLengthEntry_iff.
  - intros Hnone. rewrite find_nothing; [reflexivity|].
    intros e He. destruct (isContextLengthEntry e) eqn:E; [|reflexivity].
    apply isContextLengthEntry_iff in E. now apply Hnone in He.
Qed.

Lemma introspection_adopts_first_context_length_witness :
  exists info h1,
    getCachedModelInfo
      {| b_show :=
           fun _ _ =>
             ShowAnswers
               (Some [("general.architecture", JOther "llama");
                      ("llama.context_length", JNumber 8192);
                      ("num_ctx", JNumber 4096)]);
         b_embed := fun _ _ => EmbedAnswers None;
         b_chat := fun _ _ => ChatRejects (Err "unused") |}
      localProvider "llama3" new_handler
    = (Returned info, h1)
    /\ lastContextLength info = 2048
    /\ contextLength info = 8192.
Proof.
  destruct (introspection_adopts_first_context_length
              {| b_show :=
                   fun _ _ =>
                     ShowAnswers
                       (Some [("general.architecture", JOther "llama");
                              ("llama.context_length", JNumber 8192);
                              ("num_ctx", JNumber 4096)]);
                 b_embed := fun _ _ => EmbedAnswers None;
                 b_chat := fun _ _ => ChatRejects (Err "unused") |}
              new_handler localProvider "llama3"
              [("general.architecture", JOther "llama");
               ("llama.context_length", JNumber 8192);
               ("num_ctx", JNumber 4096)]
              eq_refl eq_refl)
    as [info [h1 [Hr [Hlast [Hfirst _]]]]].
  exists info, h1. split; [exact Hr|]. split; [exact Hlast|].
  apply (Hfirst [("general.architecture", JOther "llama")]
                "llama.context_length" 8192 [("num_ctx", JNumber 4096)]).
  - reflexivity.
  - intros e [<-|[]] [_ [n [Hn _]]]. discriminate Hn.
  - split; [left; exists "llama"; reflexivity|].
    exists 8192. split; [reflexivity | lia].
Defined.

(** ** The model-info cache: recording and forgetting *)

Lemma num_or_cases (x d : Z) :
  (x <> 0 /\ num_or x d = x) \/ (x = 0 /\ num_or x d = d).
Proof.
  unfold num_or, truthy_num. destruct (Z.eqb_spec x 0) as [->|Hx]; cbn.
  - right. split; reflexivity.
  - left. split; [exact Hx | reflexivity].
Qed.

Lemma modelInfo_eta (info : ModelInfo) :
  {| contextLength := contextLength info;
     lastContextLength := lastContextLength info |} = info.
Proof. destruct info; reflexivity. Qed.

Lemma handler_eta (h : Handler) :
  {| modelInfoCache := modelInfoCache h; issued := issued h |} = h.
Proof. destruct h; reflexivity. Qed.

(** X3: recording a size.  [setModelInfoLastContextLength] never throws
    and calls no backend; it leaves every other key alone; on a key that
    is not cached it does nothing; on a cached key it keeps the context
    length and replaces the last context length by the size given, unless
    that size is absent or 0, in which case the handler is unchanged. *)
Theorem setModelInfoLastContextLength_effect :
  forall (provider : IAIProvider) (modelName : string) (size : option Z)
         (h : Handler),
    let h' := snd (setModelInfoLastContextLength provider modelName size h) in
    fst (setModelInfoLastContextLength provider modelName size h)
    = Returned tt
    /\ issued h' = issued h
    /\ (forall k, k <> cacheKey provider modelName ->
                  modelInfoCache h' !! k = modelInfoCache h !! k)
    /\ (modelInfoCache h !! cacheKey provider modelName = None -> h' = h)
    /\ (size = None \/ size = Some 0 -> h' = h)
    /\ (forall info n,
           modelInfoCache h !! cacheKey provider modelName = Some info ->
           size = Some n ->
           n <> 0 ->
           modelInfoCache h' !! cacheKey provider modelName
           = Some {| contextLength := contextLength info;
                     lastContextLength := n |}).
Proof.
  intros provider modelName size h h'. subst h'.
  unfold setModelInfoLastContextLength, bind, cache_get, cache_set, ret.
  destruct (modelInfoCache h !! cacheKey provider modelName)
    as [info|] eqn:Hk; cbn [fst snd modelInfoCache issued].
  - split; [reflexivity|]. split; [reflexivity|].
    split; [intros k Hne; now rewrite lookup_insert_ne by congruence|].
    split; [discriminate|].
    split.
    + intros Hsize.
      assert (Hsame :
        match size with
        | Some n => num_or n (lastContextLength info)
        | None => lastContextLength info
        end = lastContextLength info).
      { destruct Hsize as [->| ->]; reflexivity. }
      rewrite Hsame, modelInfo_eta, insert_id by exact Hk.
      apply handler_eta.
    + intros info' n [= <-] -> Hn.
      rewrite lookup_insert_eq.
      destruct (num_or_cases n (lastContextLength info)) as [[_ ->]|[H0 _]];
        [reflexivity | contradiction].
  - split; [reflexivity|]. split; [reflexivity|].
    split; [reflexivity|]. split; [reflexivity|].
    split; [reflexivity|]. discriminate.
Qed.

Lemma setModelInfoLastContextLength_effect_witness :
  (let h := snd (getCachedModelInfo (streamingBackend [] EndsCleanly)
                                    localProvider "llama3" new_handler) in
   modelInfoCache
     (snd (setModelInfoLastContextLength localProvider "llama3"
                                         (Some 4096) h))
   !! cacheKey localProvider "llama3"
   = Some {| contextLength := 8192; lastContextLength := 4096 |})
  /\ snd (setModelInfoLastContextLength localProvider "llama3" (Some 4096)
                                        new_handler)
     = new_handler
  /\ (let h := snd (getCachedModelInfo (streamingBackend [] EndsCleanly)
                                       localProvider "llama3" new_handler) in
      snd (setModelInfoLastContextLength localProvider "llama3" (Some 0) h)
      = h).
Proof.
  split; [|split].
  - cbv zeta.
    destruct (setModelInfoLastContextLength_effect
                localProvider "llama3" (Some 4096)
                (snd (getCachedModelInfo (streamingBackend [] EndsCleanly)
                                         localProvider "llama3"
                                         new_handler)))
      as [_ [_ [_ [_ [_ Hset]]]]].
    apply (Hset {| contextLength := 8192; lastContextLength := 2048 |} 4096);
      [reflexivity | reflexivity | discriminate].
  - destruct (setModelInfoLastContextLength_effect
                localProvider "llama3" (Some 4096) new_handler)
      as [_ [_ [_ [Hmiss _]]]].
    apply Hmiss. reflexivity.
  - cbv zeta.
    destruct (setModelInfoLastContextLength_effect
                localProvider "llama3" (Some 0)
                (snd (getCachedModelInfo (streamingBackend [] EndsCleanly)
                                         localProvider "llama3"
                                         new_handler)))
      as [_ [_ [_ [_ [Hzero _]]]]].
    apply Hzero. right. reflexivity.
Defined.

(** X4: [dispose] forgets every entry.  After it no key is cached, so a
    model that was cached before is introspected again by the next
    [getCachedModelInfo]. *)
Theorem dispose_forgets :
  forall (be : Backend) (h : Handler) (provider : IAIProvider)
         (modelName : string),
    (forall k, modelInfoCache (dispose h) !! k = None)
    /\ issued (snd (getCachedModelInfo be provider modelName (dispose h)))
       = issued h ++ [CallShow (host_of provider) modelName].
Proof.
  intros be h provider modelName.
  split; [intros k; apply lookup_empty|].
  unfold getCachedModelInfo, bind, cache_get, try_catch, call_show, issue.
  cbn [dispose modelInfoCache issued]. rewrite lookup_empty.
  cbn [modelInfoCache issued].
  destruct (b_show be (host_of provider) modelName) as [e|[entries|]];
    reflexivity.
Qed.

(** ** The cache under [embed] and [execute] *)

Lemma cacheGrows_refl (c : gmap string ModelInfo) : cacheGrows c c.
Proof. intros k info Hk. exists info. repeat split; [exact Hk | lia]. Qed.

Lemma cacheGrows_trans (c1 c2 c3 : gmap string ModelInfo) :
  cacheGrows c1 c2 -> cacheGrows c2 c3 -> cacheGrows c1 c3.
Proof.
  intros H12 H23 k info Hk.
  destruct (H12 k info Hk) as [info2 [Hk2 [Hc2 Hl2]]].
  destruct (H23 k info2 Hk2) as [info3 [Hk3 [Hc3 Hl3]]].
  exists info3. split; [exact Hk3|]. split; [congruence | lia].
Qed.

Lemma cacheGrows_insert_new (c : gmap string ModelInfo) (key : string)
    (info : ModelInfo) :
  c !! key = None -> cacheGrows c (<[key := info]> c).
Proof.
  intros Hnew k i Hk. exists i.
  rewrite lookup_insert_ne by congruence.
  repeat split; [exact Hk | lia].
Qed.

Lemma cacheOk_insert (c : gmap string ModelInfo) (key : string)
    (info : ModelInfo) :
  cacheOk c -> entryOk info -> cacheOk (<[key := info]> c).
Proof.
  intros Hc Hi k i Hk.
  destruct (decide (key = k)) as [->|Hne].
  - rewrite lookup_insert_eq in Hk. now injection Hk as <-.
  - rewrite lookup_insert_ne in Hk by exact Hne. exact (Hc k i Hk).
Qed.

Lemma entryOk_default : entryOk getDefaultModelInfo.
Proof. split; [cbn; lia | left; reflexivity]. Qed.

(** The three ways [getCachedModelInfo] can go. *)
Lemma getCachedModelInfo_cases
    (be : Backend) (provider : IAIProvider) (modelName : string)
    (h : Handler) :
  (exists info,
      modelInfoCache h !! cacheKey provider modelName = Some info
      /\ getCachedModelInfo be provider modelName h = (Returned info, h))
  \/ (modelInfoCache h !! cacheKey provider modelName = None
      /\ exists info,
           entryOk info
           /\ getCachedModelInfo be provider modelName h
              = (Returned info,
                 {| modelInfoCache :=
                      <[cacheKey provider modelName := info]>
                        (modelInfoCache h);
                    issued :=
                      issued h
                      ++ [CallShow (host_of provider) modelName] |}))
  \/ (modelInfoCache h !! cacheKey provider modelName = None
      /\ getCachedModelInfo be provider modelName h
         = (Returned getDefaultModelInfo,
            {| modelInfoCache := modelInfoCache h;
               issued :=
                 issued h ++ [CallShow (host_of provider) modelName] |})).
Proof.
  destruct (modelInfoCache h !! cacheKey provider modelName)
    as [info|] eqn:Hk.
  - left. exists info. split; [reflexivity|].
    now apply getCachedModelInfo_hit.
  - right.
    destruct (b_show be (host_of provider) modelName)
      as [e|[entries|]] eqn:Hshow.
    + right. split; [reflexivity|].
      unfold getCachedModelInfo, bind, cache_get, try_catch, call_show,
        issue.
      rewrite Hk. cbn [modelInfoCache issued]. now rewrite Hshow.
    + left. split; [reflexivity|]. eexists. split;
        [|apply (getCachedModelInfo_introspects _ _ _ _ _ Hk Hshow)].
      destruct (List.find isContextLengthEntry entries)
        as [[k [n|r]]|] eqn:Hfind; try apply entryOk_default.
      apply find_some in Hfind as [_ Hfind].
      apply isContextLengthEntry_iff in Hfind as [_ [n' [[= <-] Hn]]].
      split; [cbn; lia | left; reflexivity].
    + right. split; [reflexivity|].
      unfold getCachedModelInfo, bind, cache_get, try_catch, call_show,
        issue.
      rewrite Hk. cbn [modelInfoCache issued]. now rewrite Hshow.
Qed.

(** In short: an entry is returned; it is the one now cached under the
    key, if any; the cache is sound and has grown. *)
Lemma getCachedModelInfo_post
    (be : Backend) (provider : IAIProvider) (modelName : string)
    (h : Handler) :
  cacheOk (modelInfoCache h) ->
  exists info h',
    getCachedModelInfo be provider modelName h = (Returned info, h')
    /\ entryOk info
    /\ (modelInfoCache h' !! cacheKey provider modelName = Some info
        \/ modelInfoCache h' !! cacheKey provider modelName = None)
    /\ cacheOk (modelInfoCache h')
    /\ cacheGrows (modelInfoCache h) (modelInfoCache h').
Proof.
  intros Hok.
  destruct (getCachedModelInfo_cases be provider modelName h)
    as [[info [Hk ->]]|[[Hk [info [Hi ->]]]|[Hk ->]]].
  - exists info, h. split; [reflexivity|].
    split; [exact (Hok _ _ Hk)|]. split; [now left|].
    split; [exact Hok | apply cacheGrows_refl].
  - eexists. eexists. split; [reflexivity|]. split; [exact Hi|].
    cbn [modelInfoCache].
    split; [left; apply lookup_insert_eq|].
    split; [now apply cacheOk_insert | now apply cacheGrows_insert_new].
  - eexists. eexists. split; [reflexivity|].
    split; [apply entryOk_default|]. cbn [modelInfoCache].
    split; [now right|]. split; [exact Hok | apply cacheGrows_refl].
Qed.

(** The update that follows a decision of the optimizer, for the limit
    that [embed] passes and for the one that [execute] passes. *)
Lemma update_after_decision
    (provider : IAIProvider) (modelName : string) (len : JsLength)
    (def limit : Z) (info : ModelInfo) (h : Handler) :
  entryOk info ->
  limit = contextLength info
  \/ limit = num_or (contextLength info) DEFAULT_CONTEXT_LENGTH ->
  modelInfoCache h !! cacheKey provider modelName = Some info
  \/ modelInfoCache h !! cacheKey provider modelName = None ->
  cacheOk (modelInfoCache h) ->
  let decision :=
    optimizeContext len
      (num_or (lastContextLength info) DEFAULT_CONTEXT_LENGTH) def limit in
  exists h',
    (if shouldUpdate decision
     then setModelInfoLastContextLength provider modelName
                                        (num_ctx decision)
     else ret tt) h
    = (Returned tt, h')
    /\ issued h' = issued h
    /\ cacheOk (modelInfoCache h')
    /\ cacheGrows (modelInfoCache h) (modelInfoCache h').
Proof.
  intros [Hctx Hlast] Hlimit Hkey Hok decision.
  destruct (shouldUpdate decision) eqn:Hs.
  2:{ exists h. split; [reflexivity|]. split; [reflexivity|].
      split; [exact Hok | apply cacheGrows_refl]. }
  subst decision. apply shouldUpdate_target in Hs as [t [-> [Hlt Hle]]].
  assert (HL : num_or (lastContextLength info) DEFAULT_CONTEXT_LENGTH
               = lastContextLength info).
  { destruct (num_or_cases (lastContextLength info) DEFAULT_CONTEXT_LENGTH)
      as [[_ ->]|[H0 _]]; [reflexivity|].
    unfold DEFAULT_CONTEXT_LENGTH in *. lia. }
  rewrite HL in Hlt.
  assert (Ht : DEFAULT_CONTEXT_LENGTH < t <= contextLength info).
  { unfold DEFAULT_CONTEXT_LENGTH in *.
    destruct Hlimit as [->| ->]; [lia|].
    destruct (num_or_cases (contextLength info) 2048)
      as [[_ Heq]|[_ Heq]]; rewrite Heq in Hle; lia. }
  unfold setModelInfoLastContextLength, bind, cache_get, cache_set, ret.
  destruct Hkey as [Hk|Hk]; rewrite Hk.
  - eexists. split; [reflexivity|]. split; [reflexivity|].
    cbn [modelInfoCache].
    assert (Hnew : num_or t (lastContextLength info) = t).
    { destruct (num_or_cases t (lastContextLength info))
        as [[_ ->]|[H0 _]]; [reflexivity|].
      unfold DEFAULT_CONTEXT_LENGTH in *. lia. }
    rewrite Hnew. split.
    + apply cacheOk_insert; [exact Hok|].
      split; [exact Hctx | right; exact Ht].
    + intros k i Hi. destruct (decide (cacheKey provider modelName = k))
        as [<-|Hne].
      * rewrite Hk in Hi. injection Hi as <-.
        eexists. split; [apply lookup_insert_eq|].
        split; [reflexivity | cbn; lia].
      * exists i. rewrite lookup_insert_ne by exact Hne.
        repeat split; [exact Hi | lia].
  - exists h. split; [reflexivity|]. split; [reflexivity|].
    split; [exact Hok | apply cacheGrows_refl].
Qed.

(** ** Embedding requests *)

Lemma update_returns (provider : IAIProvider) (modelName : string)
    (decision : ContextDecision) (h : Handler) :
  (if shouldUpdate decision
   then setModelInfoLastContextLength provider modelName (num_ctx decision)
   else ret tt) h
  = (Returned tt,
     snd ((if shouldUpdate decision
           then setModelInfoLastContextLength provider modelName
                                              (num_ctx decision)
           else ret tt) h)).
Proof.
  destruct (shouldUpdate decision); [|reflexivity].
  unfold setModelInfoLastContextLength, bind, cache_get, cache_set, ret.
  destruct (modelInfoCache h !! cacheKey provider modelName); reflexivity.
Qed.

Lemma update_issued (provider : IAIProvider) (modelName : string)
    (decision : ContextDecision) (h : Handler) :
  issued (snd ((if shouldUpdate decision
                then setModelInfoLastContextLength provider modelName
                                                   (num_ctx decision)
                else ret tt) h))
  = issued h.
Proof.
  destruct (shouldUpdate decision); [|reflexivity].
  unfold setModelInfoLastContextLength, bind, cache_get, cache_set, ret.
  destruct (modelInfoCache h !! cacheKey provider modelName); reflexivity.
Qed.

(** [embed] on an input that passes the guard, step by step. *)
Lemma embed_unfold
    (be : Backend) (params : IAIProvidersEmbedParams) (h h1 : Handler)
    (inputText : EmbedInput) (info : ModelInfo) :
  nullish_or (e_input params) (e_text params) = Some inputText ->
  truthy_input inputText = true ->
  getCachedModelInfo be (e_provider params) (model_of (e_provider params)) h
  = (Returned info, h1) ->
  let provider := e_provider params in
  let decision :=
    optimizeContext
      match inputText with
      | InputList xs => math_max (map str_length xs)
      | InputText s => Len (str_length s)
      end
      (num_or (lastContextLength info) EMBEDDING_CONTEXT_LENGTH)
      EMBEDDING_CONTEXT_LENGTH
      (contextLength info) in
  let h2 :=
    snd ((if shouldUpdate decision
          then setModelInfoLastContextLength
                 provider (model_of provider) (num_ctx decision)
          else ret tt) h1) in
  let request :=
    {| er_model := model_of provider;
       er_input := inputText;
       er_num_ctx := num_ctx decision |} in
  embed be params h
  = (match b_embed be (host_of provider) request with
     | EmbedThrows e => Thrown e
     | EmbedAnswers None => Thrown (Err "No embeddings in response")
     | EmbedAnswers (Some embeddings) => Returned embeddings
     end,
     {| modelInfoCache := modelInfoCache h2;
        issued := issued h2 ++ [CallEmbed (host_of provider) request] |}).
Proof.
  intros Hinput Htruthy Hinfo provider decision h2 request.
  unfold embed. rewrite Hinput, Htruthy. cbn [negb].
  unfold bind at 1. rewrite Hinfo.
  unfold bind at 1. fold provider. fold decision.
  rewrite update_returns. fold h2.
  unfold try_catch, bind, call_embed, issue. fold request.
  cbn [modelInfoCache issued].
  destruct (b_embed be (host_of provider) request) as [e|[embeddings|]];
    reflexivity.
Qed.

(** X7: [embed] keeps the cache sound and only lets it grow.  From a
    cache whose entries are sound, the cache after [embed] (whether it
    returns or throws) has sound entries again; every entry that was
    cached is still cached, with the same context length and a last
    context length that is not smaller. *)
Theorem embed_keeps_cache :
  forall (be : Backend) (params : IAIProvidersEmbedParams) (h : Handler),
    cacheOk (modelInfoCache h) ->
    cacheOk (modelInfoCache (snd (embed be params h)))
    /\ cacheGrows (modelInfoCache h)
                  (modelInfoCache (snd (embed be params h))).
Proof.
  intros be params h Hok.
  destruct (nullish_or (e_input params) (e_text params))
    as [inputText|] eqn:Hinput.
  2:{ unfold embed. rewrite Hinput.
      split; [exact Hok | apply cacheGrows_refl]. }
  destruct (truthy_input inputText) eqn:Htruthy.
  2:{ unfold embed. rewrite Hinput, Htruthy.
      split; [exact Hok | apply cacheGrows_refl]. }
  destruct (getCachedModelInfo_post
              be (e_provider params) (model_of (e_provider params)) h Hok)
    as [info [h1 [Hinfo [Hentry [Hkey [Hok1 Hgrow1]]]]]].
  rewrite (embed_unfold be params h h1 inputText info Hinput Htruthy Hinfo).
  cbn [snd modelInfoCache].
  destruct (update_after_decision
              (e_provider params) (model_of (e_provider params))
              match inputText with
              | InputList xs => math_max (map str_length xs)
              | InputText s => Len (str_length s)
              end
              EMBEDDING_CONTEXT_LENGTH (contextLength info) info h1
              Hentry (or_introl eq_refl) Hkey Hok1)
    as [h2 [Hupd [_ [Hok2 Hgrow2]]]].
  change (num_or (lastContextLength info) DEFAULT_CONTEXT_LENGTH)
    with (num_or (lastContextLength info) EMBEDDING_CONTEXT_LENGTH)
    in Hupd.
  rewrite Hupd. cbn [snd].
  split; [exact Hok2 | exact (cacheGrows_trans _ _ _ Hgrow1 Hgrow2)].
Qed.

Lemma embed_keeps_cache_witness :
  cacheOk
    (modelInfoCache
       (snd (embed (streamingBackend [] EndsCleanly)
                   {| e_provider := localProvider;
                      e_input := Some (InputText "hello");
                      e_text := None |}
                   new_handler)))
  /\ cacheGrows
       (modelInfoCache new_handler)
       (modelInfoCache
          (snd (embed (streamingBackend [] EndsCleanly)
                      {| e_provider := localProvider;
                         e_input := Some (InputText "hello");
                         e_text := None |}
                      new_handler))).
Proof.
  apply embed_keeps_cache.
  intros k info Hk. cbn in Hk. rewrite lookup_empty in Hk. discriminate.
Defined.

(** X8: [embed] hands the answer of the backend through.  For an input
    that is supplied and not the empty string, when the backend answers
    the embedding request with embeddings, [embed] returns them; the
    request carries the model name and the input as supplied; it is the
    last call issued, after at most one introspection call. *)
Theorem embed_returns_embeddings :
  forall (be : Backend) (params : IAIProvidersEmbedParams) (h : Handler)
         (inputText : EmbedInput) (embeddings : list (list Q)),
    nullish_or (e_input params) (e_text params) = Some inputText ->
    truthy_input inputText = true ->
    (forall size,
        b_embed be (host_of (e_provider params))
                {| er_model := model_of (e_provider params);
                   er_input := inputText;
                   er_num_ctx := size |}
        = EmbedAnswers (Some embeddings)) ->
    fst (embed be params h) = Returned embeddings
    /\ exists shows size,
         issued (snd (embed be params h))
         = issued h ++ shows
           ++ [CallEmbed (host_of (e_provider params))
                 {| er_model := model_of (e_provider params);
                    er_input := inputText;
                    er_num_ctx := size |}]
         /\ (shows = []
             \/ shows = [CallShow (host_of (e_provider params))
                                  (model_of (e_provider params))]).
Proof.
  intros be params h inputText embeddings Hinput Htruthy Hanswer.
  destruct (getCachedModelInfo_cases
              be (e_provider params) (model_of (e_provider params)) h)
    as [[info [_ Hinfo]]|[[_ [info [_ Hinfo]]]|[_ Hinfo]]];
    rewrite (embed_unfold be params h _ inputText _ Hinput Htruthy Hinfo);
    cbn [fst snd issued]; rewrite Hanswer, update_issued;
    (split; [reflexivity|]); cbn [issued].
  - exists []. eexists. split; [reflexivity | now left].
  - eexists. eexists. rewrite <- app_assoc.
    split; [reflexivity | now right].
  - eexists. eexists. rewrite <- app_assoc.
    split; [reflexivity | now right].
Qed.

Lemma embed_returns_embeddings_witness :
  fst (embed (streamingBackend [] EndsCleanly)
             {| e_provider := localProvider;
                e_input := None;
                e_text := Some (InputList ["one"; "three"]) |}
             new_handler)
  = Returned [].
Proof.
  apply (embed_returns_embeddings
           (streamingBackend [] EndsCleanly) _ new_handler
           (InputList ["one"; "three"]) []); reflexivity.
Defined.

(** X9: [embed] fails as the backend fails.  For an input that passes
    the guard, an error thrown by the embedding call is thrown on
    unchanged, and an answer without embeddings makes [embed] throw
    "No embeddings in response". *)
Theorem embed_propagates_failure :
  forall (be : Backend) (params : IAIProvidersEmbedParams) (h : Handler)
         (inputText : EmbedInput),
    nullish_or (e_input params) (e_text params) = Some inputText ->
    truthy_input inputText = true ->
    (forall e,
        (forall size,
            b_embed be (host_of (e_provider params))
                    {| er_model := model_of (e_provider params);
                       er_input := inputText;
                       er_num_ctx := size |}
            = EmbedThrows e) ->
        fst (embed be params h) = Thrown e)
    /\ ((forall size,
            b_embed be (host_of (e_provider params))
                    {| er_model := model_of (e_provider params);
                       er_input := inputText;
                       er_num_ctx := size |}
            = EmbedAnswers None) ->
        fst (embed be params h)
        = Thrown (Err "No embeddings in response")).
Proof.
  intros be params h inputText Hinput Htruthy.
  destruct (getCachedModelInfo_returns
              be (e_provider params) (model_of (e_provider params)) h)
    as [info [h1 Hinfo]].
  rewrite (embed_unfold be params h _ inputText _ Hinput Htruthy Hinfo).
  cbn [fst].
  split; intros e; [intros He|]; [now rewrite He | now rewrite e].
Qed.

Lemma embed_propagates_failure_witness :
  fst (embed (embedBackend (EmbedThrows (Err "model not found")))
             (textParams "hello") new_handler)
  = Thrown (Err "model not found")
  /\ fst (embed (embedBackend (EmbedAnswers None))
                (textParams "hello") new_handler)
     = Thrown (Err "No embeddings in response").
Proof.
  split.
  - apply (proj1 (embed_propagates_failure
                    (embedBackend (EmbedThrows (Err "model not found")))
                    (textParams "hello") new_handler (InputText "hello")
                    eq_refl eq_refl)).
    reflexivity.
  - apply (proj2 (embed_propagates_failure
                    (embedBackend (EmbedAnswers None))
                    (textParams "hello") new_handler (InputText "hello")
                    eq_refl eq_refl)).
    reflexivity.
Defined.

(** The size decided is the last size, or lies between 0 and the limit. *)
Lemma decision_bounds (len : JsLength) (last def limit n : Z) :
  0 < def ->
  0 <= limit ->
  num_ctx (optimizeContext len last def limit) = Some n ->
  (n = last /\ last > def) \/ 0 <= n <= limit.
Proof.
  intros Hdef Hlimit.
  destruct len as [|k].
  - unfold optimizeContext. cbn.
    destruct (Z.gtb_spec last def); [|discriminate].
    intros [= <-]. left. split; [reflexivity | lia].
  - destruct (Z_le_gt_dec (estimate k) last) as [Hle|Hgt].
    + rewrite optimizeContext_small by exact Hle. cbn [num_ctx].
      destruct (Z.gtb_spec last def); [|discriminate].
      intros [= <-]. left. split; [reflexivity | lia].
    + rewrite optimizeContext_large by exact Hgt. cbn [num_ctx].
      intros [= <-]. right.
      pose proof (buffered_pos (estimate k) def Hdef). lia.
Qed.

(** X10: [embed] never asks for more than the model's context length.
    From a sound cache, for an input that passes the guard, the size sent
    with the embedding request (when there is one) lies between 0 and the
    context length of the model's entry. *)
Theorem embed_respects_context_length :
  forall (be : Backend) (params : IAIProvidersEmbedParams) (h : Handler)
         (inputText : EmbedInput),
    nullish_or (e_input params) (e_text params) = Some inputText ->
    truthy_input inputText = true ->
    cacheOk (modelInfoCache h) ->
    exists info h1 earlier size,
      getCachedModelInfo be (e_provider params)
                         (model_of (e_provider params)) h
      = (Returned info, h1)
      /\ issued (snd (embed be params h))
         = earlier
           ++ [CallEmbed (host_of (e_provider params))
                 {| er_model := model_of (e_provider params);
                    er_input := inputText;
                    er_num_ctx := size |}]
      /\ forall n, size = Some n -> 0 <= n <= contextLength info.
Proof.
  intros be params h inputText Hinput Htruthy Hok.
  destruct (getCachedModelInfo_post
              be (e_provider params) (model_of (e_provider params)) h Hok)
    as [info [h1 [Hinfo [[Hctx Hlast] _]]]].
  exists info, h1. eexists. eexists.
  split; [exact Hinfo|].
  rewrite (embed_unfold be params h h1 inputText info Hinput Htruthy Hinfo).
  cbn [snd issued]. split; [reflexivity|].
  intros n Hn.
  apply decision_bounds in Hn; [|reflexivity|exact Hctx].
  destruct Hn as [[-> Hgt]|Hn]; [|exact Hn].
  unfold EMBEDDING_CONTEXT_LENGTH, DEFAULT_CONTEXT_LENGTH in *.
  destruct (num_or_cases (lastContextLength info) 2048)
    as [[_ Heq]|[_ Heq]]; rewrite Heq in *; lia.
Qed.

Lemma embed_respects_context_length_witness :
  exists info h1 earlier size,
    getCachedModelInfo (streamingBackend [] EndsCleanly) localProvider
                       (model_of localProvider) new_handler
    = (Returned info, h1)
    /\ issued (snd (embed (streamingBackend [] EndsCleanly)
                          (textParams (Str.repeat "x" (Z.to_nat 6000)))
                          new_handler))
       = earlier
         ++ [CallEmbed (host_of localProvider)
               {| er_model := model_of localProvider;
                  er_input := InputText (Str.repeat "x" (Z.to_nat 6000));
                  er_num_ctx := size |}]
    /\ forall n, size = Some n -> 0 <= n <= contextLength info.
Proof.
  apply (embed_respects_context_length
           (streamingBackend [] EndsCleanly)
           (textParams (Str.repeat "x" (Z.to_nat 6000))) new_handler
           (InputText (Str.repeat "x" (Z.to_nat 6000)))).
  - reflexivity.
  - vm_compute. reflexivity.
  - intros k info Hk. cbn in Hk. rewrite lookup_empty in Hk. discriminate.
Defined.

(** ** The normalizer *)

Lemma blockTexts_filter (bs : list ContentBlock) :
  map textOf (List.filter isText bs) = blockTexts bs.
Proof.
  induction bs as [|[t|u] bs IH]; [reflexivity| |]; simpl.
  - now rewrite IH.
  - exact IH.
Qed.

Lemma normalizeMessage_turn (cms : list ChatMessage) (imgs : list string)
    (msg : IChatMessage) :
  normalizeMessage (cms, imgs) msg
  = (cms ++ [turnMessage msg], imgs ++ turnImages msg).
Proof.
  unfold normalizeMessage, turnMessage, turnImages.
  destruct (msg_content msg) as [s|bs];
    destruct (msg_images msg) as [[|i rest]|];
    rewrite ?blockTexts_filter, ?app_nil_r, <- ?app_assoc; reflexivity.
Qed.

Lemma fold_normalizeMessage (msgs : list IChatMessage)
    (cms : list ChatMessage) (imgs : list string) :
  fold_left normalizeMessage msgs (cms, imgs)
  = (cms ++ map turnMessage msgs, imgs ++ flat_map turnImages msgs).
Proof.
  revert cms imgs. induction msgs as [|msg msgs IH]; intros cms imgs.
  - cbn. now rewrite !app_nil_r.
  - cbn [fold_left map flat_map].
    rewrite normalizeMessage_turn, IH, <- !app_assoc. reflexivity.
Qed.

(** X11: structured messages are normalized turn by turn.  There is one
    chat message per turn, in order, with the turn's role and no images
    yet; a string content is kept as it is and a block content becomes
    its text blocks joined by newlines; the images collected are those of
    the image blocks with a non-empty url followed by the turn's own
    images, turn after turn. *)
Theorem normalize_turn_by_turn :
  forall (params : IAIProvidersExecuteParams) (msgs : list IChatMessage),
    x_messages params = Some msgs ->
    exists chatMessages extractedImages,
      normalize params = Returned (chatMessages, extractedImages)
      /\ length chatMessages = length msgs
      /\ map role chatMessages = map msg_role msgs
      /\ (forall m, In m chatMessages -> images m = None)
      /\ (forall i msg s,
             msgs !! i = Some msg -> msg_content msg = Plain s ->
             option_map content (chatMessages !! i) = Some s)
      /\ (forall i msg bs,
             msgs !! i = Some msg -> msg_content msg = Blocks bs ->
             option_map content (chatMessages !! i)
             = Some (Str.join (String LF "") (blockTexts bs)))
      /\ extractedImages = flat_map turnImages msgs.
Proof.
  intros params msgs Hm.
  exists (map turnMessage msgs), (flat_map turnImages msgs).
  split.
  { unfold normalize. rewrite Hm. now rewrite fold_normalizeMessage. }
  split; [apply length_map|].
  split; [rewrite map_map; reflexivity|].
  split.
  { intros m Hin. apply in_map_iff in Hin as [msg [<- _]]. reflexivity. }
  split; [|split; [|reflexivity]].
  - intros i msg s Hi Hc. rewrite lookup_map, Hi. cbn.
    unfold turnMessage. cbn. now rewrite Hc.
  - intros i msg bs Hi Hc. rewrite lookup_map, Hi. cbn.
    unfold turnMessage. cbn. now rewrite Hc.
Qed.

Lemma normalize_turn_by_turn_witness :
  exists chatMessages extractedImages,
    normalize hiParams = Returned (chatMessages, extractedImages)
    /\ map role chatMessages = ["user"]
    /\ option_map content (chatMessages !! O) = Some "hi"
    /\ extractedImages = ["data:image/png;base64,AAAA"].
Proof.
  destruct (normalize_turn_by_turn
              hiParams
              [ {| msg_role := "user";
                   msg_content :=
                     Blocks [ TextBlock "hi";
                              ImageUrlBlock
                                (Some "data:image/png;base64,AAAA") ];
                   msg_images := None |} ]
              eq_refl)
    as [cms [imgs [Hn [_ [Hroles [_ [_ [Hblocks Himgs]]]]]]]].
  exists cms, imgs. split; [exact Hn|]. split; [exact Hroles|].
  split; [|exact Himgs].
  exact (Hblocks O _ _ eq_refl eq_refl).
Defined.

(** ** The request handed to the backend *)

(** [prepareChat] on a request without images. *)
Lemma prepareChat_text
    (params : IAIProvidersExecuteParams) (modelInfo : option ModelInfo)
    (h : Handler) (chatMessages : list ChatMessage) :
  normalize params = Returned (chatMessages, []) ->
  let provider := x_provider params in
  let decision :=
    optimizeContext
      (Len (fold_left (fun acc msg => acc + str_length (content msg))
                      chatMessages 0))
      (num_or (from_option lastContextLength 0 modelInfo)
              DEFAULT_CONTEXT_LENGTH)
      DEFAULT_CONTEXT_LENGTH
      (num_or (from_option contextLength 0 modelInfo)
              DEFAULT_CONTEXT_LENGTH) in
  let computed : gmap string JsValue :=
    match num_ctx decision with
    | Some n => if truthy_num n then {[ "num_ctx" := JNumber n ]} else ∅
    | None => ∅
    end in
  let requestOptions :=
    match x_options params with
    | Some options => options ∪ computed
    | None => computed
    end in
  prepareChat params modelInfo h
  = (Returned
       {| cr_model := model_of provider;
          cr_messages := chatMessages;
          cr_options :=
            if bool_decide (requestOptions = ∅) then None
            else Some requestOptions |},
     snd ((if shouldUpdate decision
           then setModelInfoLastContextLength
                  provider (model_of provider) (num_ctx decision)
           else ret tt) h)).
Proof.
  intros Hn provider decision computed requestOptions.
  unfold prepareChat. rewrite Hn.
  cbn [processImages has_length negb].
  fold provider. fold decision.
  unfold bind at 1. unfold bind at 1.
  rewrite update_returns. reflexivity.
Qed.

(** [startChat] when the request is well formed. *)
Lemma startChat_prepared
    (be : Backend) (params : IAIProvidersExecuteParams)
    (h h1 h2 : Handler) (info : ModelInfo) (request : ChatRequest) :
  getCachedModelInfo be (x_provider params) (model_of (x_provider params)) h
  = (Returned info, h1) ->
  prepareChat params (Some info) h1 = (Returned request, h2) ->
  startChat be params h
  = (Returned request,
     {| modelInfoCache := modelInfoCache h2;
        issued :=
          issued h2 ++ [CallChat (host_of (x_provider params)) request] |}).
Proof.
  intros Hinfo Hprep. unfold startChat, bind, try_catch.
  rewrite Hinfo. cbn [ret]. rewrite Hprep. reflexivity.
Qed.

(** [startChat] when it is not. *)
Lemma startChat_invalid
    (be : Backend) (params : IAIProvidersExecuteParams)
    (h h1 : Handler) (info : ModelInfo) (e : Error) :
  getCachedModelInfo be (x_provider params) (model_of (x_provider params)) h
  = (Returned info, h1) ->
  normalize params = Thrown e ->
  startChat be params h = (Thrown e, h1).
Proof.
  intros Hinfo Hn. unfold startChat, bind, try_catch.
  rewrite Hinfo. cbn [ret]. unfold prepareChat. rewrite Hn. reflexivity.
Qed.

(** Introspection issues no chat call. *)
Lemma getCachedModelInfo_chat_calls
    (be : Backend) (provider : IAIProvider) (modelName : string)
    (h : Handler) :
  List.filter isCallChat
    (issued (snd (getCachedModelInfo be provider modelName h)))
  = List.filter isCallChat (issued h).
Proof.
  destruct (getCachedModelInfo_cases be provider modelName h)
    as [[info [_ ->]]|[[_ [info [_ ->]]]|[_ ->]]]; cbn [snd issued];
    rewrite ?List.filter_app; cbn; now rewrite ?app_nil_r.
Qed.

(** The messages, the model and the last call of a well-formed request. *)
Lemma startChat_messages
    (be : Backend) (params : IAIProvidersExecuteParams) (h : Handler)
    (chatMessages : list ChatMessage) (extractedImages : list string) :
  normalize params = Returned (chatMessages, extractedImages) ->
  exists request h' earlier,
    startChat be params h = (Returned request, h')
    /\ cr_model request = model_of (x_provider params)
    /\ cr_messages request
       = match extractedImages with
         | [] => chatMessages
         | _ :: _ =>
             attachImages chatMessages
                          (map stripDataUrlPrefix extractedImages)
         end
    /\ issued h'
       = earlier ++ [CallChat (host_of (x_provider params)) request]
    /\ List.filter isCallChat earlier = List.filter isCallChat (issued h).
Proof.
  intros Hn.
  destruct (getCachedModelInfo_returns
              be (x_provider params) (model_of (x_provider params)) h)
    as [info [h1 Hinfo]].
  pose proof (getCachedModelInfo_chat_calls
                be (x_provider params) (model_of (x_provider params)) h)
    as Hcalls.
  rewrite Hinfo in Hcalls. cbn [snd] in Hcalls.
  destruct extractedImages as [|i rest].
  - pose proof (prepareChat_text params (Some info) h1 _ Hn) as Hprep.
    cbv zeta in Hprep.
    rewrite (startChat_prepared _ _ _ _ _ _ _ Hinfo Hprep).
    eexists. eexists. eexists.
    split; [reflexivity|]. split; [reflexivity|]. split; [reflexivity|].
    cbn [issued]. split; [reflexivity|].
    now rewrite update_issued.
  - pose proof (prepareChat_with_images
                  params (Some info) h1 _ _ Hn ltac:(discriminate))
      as Hprep.
    rewrite (startChat_prepared _ _ _ _ _ _ _ Hinfo Hprep).
    eexists. eexists. eexists.
    split; [reflexivity|]. split; [reflexivity|]. split; [reflexivity|].
    cbn [issued]. split; [reflexivity | exact Hcalls].
Qed.

(** X12: the legacy prompt shape.  Without [messages], a request with a
    prompt is sent as the system prompt (when it is present and not
    empty) followed by one user message holding the prompt; the images of
    the request, stripped, are always carried by that user message. *)
Theorem legacy_prompt_request :
  forall (be : Backend) (params : IAIProvidersExecuteParams) (h : Handler)
         (prompt : string),
    x_messages params = None ->
    x_prompt params = Some prompt ->
    exists request h',
      startChat be params h = (Returned request, h')
      /\ cr_model request = model_of (x_provider params)
      /\ cr_messages request
         = systemMessages (x_systemPrompt params)
           ++ [{| role := "user";
                  content := prompt;
                  images :=
                    match x_images params with
                    | Some (i :: rest) =>
                        Some (map stripDataUrlPrefix (i :: rest))
                    | _ => None
                    end |}].
Proof.
  intros be params h prompt Hm Hp.
  assert (Hn :
    normalize params
    = Returned
        (systemMessages (x_systemPrompt params)
         ++ [{| role := "user"; content := prompt; images := None |}],
         match x_images params with
         | Some (i :: rest) => i :: rest
         | _ => []
         end)).
  { unfold normalize. now rewrite Hm, Hp. }
  destruct (startChat_messages be params h _ _ Hn)
    as [request [h' [earlier [Hs [Hmodel [Hmsgs _]]]]]].
  exists request, h'. split; [exact Hs|]. split; [exact Hmodel|].
  rewrite Hmsgs. unfold systemMessages.
  destruct (x_images params) as [[|i rest]|];
    destruct (x_systemPrompt params) as [sp|];
    try destruct (truthy_string sp); reflexivity.
Qed.

Lemma legacy_prompt_request_witness :
  exists request h',
    startChat downBackend
      {| x_provider := localProvider;
         x_messages := None;
         x_prompt := Some "hello";
         x_systemPrompt := Some "sys";
         x_images := Some ["data:image/png;base64,AAAA"];
         x_options := None |}
      new_handler
    = (Returned request, h')
    /\ cr_messages request
       = [{| role := "system"; content := "sys"; images := None |};
          {| role := "user"; content := "hello";
             images := Some ["AAAA"] |}].
Proof.
  destruct (legacy_prompt_request
              downBackend
              {| x_provider := localProvider;
                 x_messages := None;
                 x_prompt := Some "hello";
                 x_systemPrompt := Some "sys";
                 x_images := Some ["data:image/png;base64,AAAA"];
                 x_options := None |}
              new_handler "hello" eq_refl eq_refl)
    as [request [h' [Hs [_ Hm]]]].
  exists request, h'. split; [exact Hs | exact Hm].
Defined.

(** The options of a well-formed request: the caller's, over what the
    optimizer computed; and what the optimizer can have computed. *)
Lemma startChat_options
    (be : Backend) (params : IAIProvidersExecuteParams) (h : Handler)
    (chatMessages : list ChatMessage) (extractedImages : list string) :
  normalize params = Returned (chatMessages, extractedImages) ->
  exists request h' info h1 (computed : gmap string JsValue),
    getCachedModelInfo be (x_provider params)
                       (model_of (x_provider params)) h
    = (Returned info, h1)
    /\ startChat be params h = (Returned request, h')
    /\ cr_options request
       = (if bool_decide
               (match x_options params with
                | Some options => options ∪ computed
                | None => computed
                end = ∅)
          then None
          else Some match x_options params with
                    | Some options => options ∪ computed
                    | None => computed
                    end)
    /\ (computed = ∅
        \/ (extractedImages = []
            /\ exists n len,
                 n <> 0
                 /\ computed = {[ "num_ctx" := JNumber n ]}
                 /\ num_ctx
                      (optimizeContext
                         len
                         (num_or (lastContextLength info)
                                 DEFAULT_CONTEXT_LENGTH)
                         DEFAULT_CONTEXT_LENGTH
                         (num_or (contextLength info)
                                 DEFAULT_CONTEXT_LENGTH))
                    = Some n)).
Proof.
  intros Hn.
  destruct (getCachedModelInfo_returns
              be (x_provider params) (model_of (x_provider params)) h)
    as [info [h1 Hinfo]].
  destruct extractedImages as [|i rest].
  - pose proof (prepareChat_text params (Some info) h1 _ Hn) as Hprep.
    cbv zeta in Hprep.
    rewrite (startChat_prepared _ _ _ _ _ _ _ Hinfo Hprep).
    eexists. eexists. exists info, h1. eexists.
    split; [exact Hinfo|]. split; [reflexivity|].
    cbn [cr_options]. split; [reflexivity|].
    cbn [from_option].
    match goal with
    | |- context [num_ctx ?d] => destruct (num_ctx d) as [n|] eqn:Hd
    end; [|now left].
    unfold truthy_num. destruct (Z.eqb_spec n 0) as [->|Hne]; cbn [negb];
      [now left|].
    right. split; [reflexivity|]. exists n. eexists.
    split; [exact Hne|]. split; [reflexivity | exact Hd].
  - pose proof (prepareChat_with_images
                  params (Some info) h1 _ _ Hn ltac:(discriminate))
      as Hprep.
    rewrite (startChat_prepared _ _ _ _ _ _ _ Hinfo Hprep).
    eexists. eexists. exists info, h1, ∅.
    split; [exact Hinfo|]. split; [reflexivity|].
    cbn [cr_options]. split; [|now left].
    destruct (x_options params) as [options|]; [reflexivity|].
    now rewrite bool_decide_eq_true_2.
Qed.

(** X13: the caller's options win.  Every option the caller supplies is
    sent to the backend with the caller's value, [num_ctx] included;
    nothing but [num_ctx] is ever added to them; and for a request with
    images nothing is added at all. *)
Theorem caller_options_reach_backend :
  forall (be : Backend) (params : IAIProvidersExecuteParams) (h : Handler)
         (chatMessages : list ChatMessage) (extractedImages : list string)
         (options : gmap string JsValue) (key : string) (value : JsValue),
    normalize params = Returned (chatMessages, extractedImages) ->
    x_options params = Some options ->
    options !! key = Some value ->
    exists request h' sent,
      startChat be params h = (Returned request, h')
      /\ cr_options request = Some sent
      /\ sent !! key = Some value
      /\ (forall k, k <> "num_ctx" -> sent !! k = options !! k)
      /\ (extractedImages <> [] -> sent = options).
Proof.
  intros be params h chatMessages extractedImages options key value
         Hn Ho Hk.
  destruct (startChat_options be params h _ _ Hn)
    as [request [h' [info [h1 [computed [_ [Hs [Hopts Hcomp]]]]]]]].
  rewrite Ho in Hopts.
  exists request, h', (options ∪ computed).
  split; [exact Hs|].
  assert (Hsent : (options ∪ computed) !! key = Some value)
    by now apply lookup_union_Some_l.
  split.
  { rewrite Hopts. rewrite bool_decide_eq_false_2; [reflexivity|].
    intros Hempty. rewrite Hempty, lookup_empty in Hsent. discriminate. }
  split; [exact Hsent|].
  split.
  - intros k Hne. apply lookup_union_l.
    destruct Hcomp as [->|[_ [n [len [_ [-> _]]]]]];
      [apply lookup_empty | now apply lookup_singleton_ne].
  - intros Himgs. destruct Hcomp as [->|[Hnil _]]; [|contradiction].
    apply (right_id_L ∅ (∪)).
Qed.

Lemma caller_options_reach_backend_witness :
  exists request h' sent,
    startChat (streamingBackend [] EndsCleanly)
      {| x_provider := localProvider;
         x_messages := None;
         x_prompt := Some (Str.repeat "x" (Z.to_nat 6000));
         x_systemPrompt := None;
         x_images := None;
         x_options := Some {[ "num_ctx" := JNumber 512 ]} |}
      new_handler
    = (Returned request, h')
    /\ cr_options request = Some sent
    /\ sent !! "num_ctx" = Some (JNumber 512).
Proof.
  destruct (caller_options_reach_backend
              (streamingBackend [] EndsCleanly)
              {| x_provider := localProvider;
                 x_messages := None;
                 x_prompt := Some (Str.repeat "x" (Z.to_nat 6000));
                 x_systemPrompt := None;
                 x_images := None;
                 x_options := Some {[ "num_ctx" := JNumber 512 ]} |}
              new_handler
              [{| role := "user";
                  content := Str.repeat "x" (Z.to_nat 6000);
                  images := None |}]
              [] {[ "num_ctx" := JNumber 512 ]} "num_ctx" (JNumber 512)
              eq_refl eq_refl (lookup_singleton_eq _ _))
    as [request [h' [sent [Hs [Ho [Hk _]]]]]].
  exists request, h', sent. split; [exact Hs|]. split; [exact Ho | exact Hk].
Defined.

(** X14: what [execute] computes for the context size.  From a sound
    cache, for a request without images and without options of the
    caller, the options sent are either absent or exactly one [num_ctx],
    which is positive and at most the model's context length (2048 when
    that is unknown). *)
Theorem execute_num_ctx_within_limit :
  forall (be : Backend) (params : IAIProvidersExecuteParams) (h : Handler)
         (chatMessages : list ChatMessage),
    normalize params = Returned (chatMessages, []) ->
    x_options params = None ->
    cacheOk (modelInfoCache h) ->
    exists request h' info h1,
      getCachedModelInfo be (x_provider params)
                         (model_of (x_provider params)) h
      = (Returned info, h1)
      /\ startChat be params h = (Returned request, h')
      /\ (cr_options request = None
          \/ exists n,
               cr_options request = Some {[ "num_ctx" := JNumber n ]}
               /\ 0 < n <= num_or (contextLength info) 2048).
Proof.
  intros be params h chatMessages Hn Ho Hok.
  destruct (startChat_options be params h _ _ Hn)
    as [request [h' [info [h1 [computed [Hinfo [Hs [Hopts Hcomp]]]]]]]].
  rewrite Ho in Hopts.
  exists request, h', info, h1.
  split; [exact Hinfo|]. split; [exact Hs|].
  destruct Hcomp as [->|[_ [n [len [Hne [-> Hd]]]]]].
  - left. rewrite Hopts. now rewrite bool_decide_eq_true_2.
  - right. exists n. split.
    + rewrite Hopts. rewrite bool_decide_eq_false_2; [reflexivity|].
      apply map_non_empty_singleton.
    + destruct (getCachedModelInfo_post
                  be (x_provider params) (model_of (x_provider params))
                  h Hok)
        as [info' [h1' [Hinfo' [[Hctx Hlast] _]]]].
      rewrite Hinfo in Hinfo'. injection Hinfo' as <- <-.
      unfold DEFAULT_CONTEXT_LENGTH in *.
      assert (Hlimit : 0 < num_or (contextLength info) 2048).
      { destruct (num_or_cases (contextLength info) 2048)
          as [[? ->]|[_ ->]]; lia. }
      apply decision_bounds in Hd; [|lia|lia].
      destruct Hd as [[-> Hgt]|Hd]; [|lia].
      destruct (num_or_cases (lastContextLength info) 2048)
        as [[_ Hl]|[_ Hl]]; rewrite Hl in *; [|lia].
      destruct (num_or_cases (contextLength info) 2048)
        as [[H0 Hc]|[H0 Hc]]; rewrite Hc; lia.
Qed.

Lemma execute_num_ctx_within_limit_witness :
  exists request h' info h1,
    getCachedModelInfo (streamingBackend [] EndsCleanly) localProvider
                       (model_of localProvider) new_handler
    = (Returned info, h1)
    /\ startChat (streamingBackend [] EndsCleanly)
                 (promptParams (Str.repeat "x" (Z.to_nat 6000)))
                 new_handler
       = (Returned request, h')
    /\ (cr_options request = None
        \/ exists n,
             cr_options request = Some {[ "num_ctx" := JNumber n ]}
             /\ 0 < n <= num_or (contextLength info) 2048).
Proof.
  apply (execute_num_ctx_within_limit
           (streamingBackend [] EndsCleanly)
           (promptParams (Str.repeat "x" (Z.to_nat 6000))) new_handler
           [{| role := "user";
               content := Str.repeat "x" (Z.to_nat 6000);
               images := None |}]).
  - reflexivity.
  - reflexivity.
  - intros k info Hk. cbn in Hk. rewrite lookup_empty in Hk. discriminate.
Defined.

(** ** The streaming controller: terminal states *)

Lemma step_terminal (be : Backend) (x : Execution) (a : Action) :
  isTerminal (phase x) = true ->
  phase (step be x a) = phase x
  /\ delivered (step be x a) = delivered x
  /\ fullText (step be x a) = fullText x
  /\ handler (step be x a) = handler x.
Proof.
  intros Ht. destruct a as [op|]; cbn [step].
  - destruct op; repeat split; reflexivity.
  - unfold resume. destruct (phase x) eqn:Hp; try discriminate;
      rewrite ?Hp; repeat split; reflexivity.
Qed.

Lemma run_terminal (be : Backend) (schedule : list Action) (x : Execution) :
  isTerminal (phase x) = true ->
  phase (run be x schedule) = phase x
  /\ delivered (run be x schedule) = delivered x
  /\ fullText (run be x schedule) = fullText x
  /\ handler (run be x schedule) = handler x.
Proof.
  revert x. induction schedule as [|a schedule IH]; intros x Ht.
  - repeat split; reflexivity.
  - rewrite run_cons.
    destruct (step_terminal be x a Ht) as [Hp [Hd [Hf Hh]]].
    destruct (IH (step be x a)) as [Hp' [Hd' [Hf' Hh']]];
      [now rewrite Hp|].
    repeat split; congruence.
Qed.

(** X15: a finished execution is silent.  Once an execution is completed,
    aborted or failed, nothing that happens afterwards (callbacks
    registered late, [abort()], further resumptions) delivers anything or
    changes its text, its state or the handler. *)
Theorem finished_execution_is_silent :
  forall (be : Backend) (x : Execution) (schedule : list Action),
    isTerminal (phase x) = true ->
    phase (run be x schedule) = phase x
    /\ delivered (run be x schedule) = delivered x
    /\ fullText (run be x schedule) = fullText x
    /\ handler (run be x schedule) = handler x.
Proof.
  intros be x schedule. apply run_terminal.
Qed.

Lemma finished_execution_is_silent_witness :
  let be := streamingBackend [textPart "a"] EndsCleanly in
  let x :=
    run be (execute (promptParams "hello") new_handler)
        [Call (onData 1%nat); Resume; Resume; Resume; Resume] in
  delivered
    (run be x [Call (onData 2%nat); Call (onEnd 3%nat); Resume; Call abort;
               Resume])
  = delivered x.
Proof.
  cbv zeta.
  apply (finished_execution_is_silent
           (streamingBackend [textPart "a"] EndsCleanly)
           (run (streamingBackend [textPart "a"] EndsCleanly)
                (execute (promptParams "hello") new_handler)
                [Call (onData 1%nat); Resume; Resume; Resume; Resume])).
  reflexivity.
Defined.

(** ** The streaming controller: failures before the stream *)

(** The caller's operations before the first resumption. *)
Lemma run_first_calls (be : Backend) (params : IAIProvidersExecuteParams)
    (h : Handler) (ops : list HandleOp) :
  run be (execute params h) (map Call ops)
  = {| call_params := params; handler := h;
       isAborted := existsb isAbort ops; fullText := "";
       handlers := {| h_data := dataSubscribers ops;
                      h_end := endSubscribers ops;
                      h_error := errorSubscribers ops |};
       phase := AwaitingModelInfo; delivered := [] |}.
Proof. rewrite run_calls. reflexivity. Qed.

(** Up to the wait for the chat call. *)
Lemma run_to_chat (be : Backend) (params : IAIProvidersExecuteParams)
    (h h' : Handler) (request : ChatRequest) (ops0 ops1 : list HandleOp) :
  startChat be params h = (Returned request, h') ->
  run be (execute params h) (map Call ops0 ++ [Resume] ++ map Call ops1)
  = {| call_params := params; handler := h';
       isAborted := existsb isAbort (ops0 ++ ops1); fullText := "";
       handlers := {| h_data := dataSubscribers (ops0 ++ ops1);
                      h_end := endSubscribers (ops0 ++ ops1);
                      h_error := errorSubscribers (ops0 ++ ops1) |};
       phase :=
         AwaitingChat (b_chat be (host_of (x_provider params)) request);
       delivered := [] |}.
Proof.
  intros Hstart.
  rewrite !run_app, run_first_calls.
  unfold run at 2. cbn [fold_left step].
  rewrite (resume_started be params h h' request _ _ _ _ Hstart).
  rewrite run_calls, afterCalls_record.
  unfold dataSubscribers, endSubscribers, errorSubscribers.
  now rewrite existsb_app, !flat_map_app.
Qed.

(** The first resumption of a request that cannot be prepared. *)
Lemma resume_not_started (be : Backend) (ps : IAIProvidersExecuteParams)
    (h h' : Handler) (e : Error) (a : bool) (t : string) (hs : Handlers)
    (ds : list Delivery) :
  startChat be ps h = (Thrown e, h') ->
  resume be
    {| call_params := ps; handler := h; isAborted := a; fullText := t;
       handlers := hs; phase := AwaitingModelInfo; delivered := ds |}
  = {| call_params := ps; handler := h'; isAborted := a; fullText := t;
       handlers := hs; phase := Failed e;
       delivered := ds ++ map (fun cb => ErrorCall cb e) (h_error hs) |}.
Proof.
  intros H. unfold resume. cbn [phase handler call_params]. now rewrite H.
Qed.

(** X16: a request with neither messages nor prompt.  The execution
    fails at its first resumption: every error callback registered by
    then is called once with "Either messages or prompt must be
    provided", nothing else is ever delivered, and no chat call is
    issued. *)
Theorem execute_rejects_empty_request :
  forall (be : Backend) (params : IAIProvidersExecuteParams) (h : Handler)
         (ops : list HandleOp) (schedule : list Action),
    x_messages params = None ->
    x_prompt params = None ->
    let final :=
      run be (execute params h) (map Call ops ++ Resume :: schedule) in
    delivered final
    = map (fun cb =>
             ErrorCall cb (Err "Either messages or prompt must be provided"))
          (errorSubscribers ops)
    /\ phase final = Failed (Err "Either messages or prompt must be provided")
    /\ List.filter isCallChat (issued (handler final))
       = List.filter isCallChat (issued h).
Proof.
  intros be params h ops schedule Hm Hp final. subst final.
  destruct (getCachedModelInfo_returns
              be (x_provider params) (model_of (x_provider params)) h)
    as [info [h1 Hinfo]].
  assert (Hn : normalize params
               = Thrown (Err "Either messages or prompt must be provided")).
  { unfold normalize. now rewrite Hm, Hp. }
  pose proof (startChat_invalid be params h h1 info _ Hinfo Hn) as Hstart.
  rewrite run_app, run_first_calls, run_cons. cbn [step].
  rewrite (resume_not_started be params h h1 _ _ _ _ _ Hstart).
  match goal with
  | |- context [run be ?x schedule] =>
      destruct (run_terminal be schedule x eq_refl) as [-> [-> [_ ->]]]
  end.
  cbn. split; [reflexivity|]. split; [reflexivity|].
  pose proof (getCachedModelInfo_chat_calls
                be (x_provider params) (model_of (x_provider params)) h)
    as Hcalls.
  now rewrite Hinfo in Hcalls.
Qed.

Lemma execute_rejects_empty_request_witness :
  delivered
    (run downBackend
         (execute {| x_provider := localProvider;
                     x_messages := None;
                     x_prompt := None;
                     x_systemPrompt := Some "sys";
                     x_images := None;
                     x_options := None |}
                  new_handler)
         (map Call [onError 7%nat; onData 8%nat]
          ++ Resume :: [Resume; Call (onError 9%nat); Resume]))
  = [ErrorCall 7%nat (Err "Either messages or prompt must be provided")].
Proof.
  refine (proj1 (execute_rejects_empty_request
                   downBackend
                   {| x_provider := localProvider;
                      x_messages := None;
                      x_prompt := None;
                      x_systemPrompt := Some "sys";
                      x_images := None;
                      x_options := None |}
                   new_handler [onError 7%nat; onData 8%nat]
                   [Resume; Call (onError 9%nat); Resume]
                   eq_refl eq_refl)).
Defined.

(** X17: a chat call that is rejected.  The execution fails at its second
    resumption: every error callback registered by then is called once
    with the error of the backend, whether or not [abort()] was called,
    and no data or end callback is ever called. *)
Theorem rejected_chat_reaches_error_subscribers :
  forall (be : Backend) (params : IAIProvidersExecuteParams)
         (h h' : Handler) (request : ChatRequest) (e : Error)
         (ops0 ops1 : list HandleOp) (schedule : list Action),
    startChat be params h = (Returned request, h') ->
    b_chat be (host_of (x_provider params)) request = ChatRejects e ->
    let final :=
      run be (execute params h)
          (map Call ops0 ++ [Resume] ++ map Call ops1
           ++ Resume :: schedule) in
    delivered final
    = map (fun cb => ErrorCall cb e) (errorSubscribers (ops0 ++ ops1))
    /\ phase final = Failed e.
Proof.
  intros be params h h' request e ops0 ops1 schedule Hstart Hchat final.
  subst final.
  replace (map Call ops0 ++ [Resume] ++ map Call ops1 ++ Resume :: schedule)
    with ((map Call ops0 ++ [Resume] ++ map Call ops1)
          ++ Resume :: schedule)
    by now rewrite <- !app_assoc.
  rewrite run_app, (run_to_chat be params h h' request ops0 ops1 Hstart).
  rewrite Hchat, run_cons. cbn [step].
  match goal with
  | |- context [run be ?x schedule] =>
      destruct (run_terminal be schedule x eq_refl) as [-> [-> _]]
  end.
  split; reflexivity.
Qed.

Lemma rejected_chat_reaches_error_subscribers_witness :
  delivered
    (run downBackend (execute (promptParams "hello") new_handler)
         (map Call [onError 1%nat] ++ [Resume]
          ++ map Call [onData 2%nat; onError 3%nat]
          ++ Resume :: [Call (onError 4%nat); Resume]))
  = [ErrorCall 1%nat (Err "connection refused");
     ErrorCall 3%nat (Err "connection refused")].
Proof.
  refine (proj1 (rejected_chat_reaches_error_subscribers
                   downBackend (promptParams "hello") new_handler _ _
                   (Err "connection refused")
                   [onError 1%nat] [onData 2%nat; onError 3%nat]
                   [Call (onError 4%nat); Resume]
                   eq_refl eq_refl)).
Defined.

(** ** The streaming controller: callbacks that use the handle or throw *)

Lemma forallb_data_calls (c a : string) (cbs : list nat) :
  forallb isDataCall (map (fun cb => DataCall cb c a) cbs) = true.
Proof. induction cbs as [|cb cbs IH]; [reflexivity | exact IH]. Qed.

Lemma forallb_end_calls (t : string) (cbs : list nat) :
  forallb isEndCall (map (fun cb => EndCall cb t) cbs) = true.
Proof. induction cbs as [|cb cbs IH]; [reflexivity | exact IH]. Qed.

Lemma forallb_error_calls (e : Error) (cbs : list nat) :
  forallb isErrorCall (map (fun cb => ErrorCall cb e) cbs) = true.
Proof. induction cbs as [|cb cbs IH]; [reflexivity | exact IH]. Qed.







(** *** Callbacks that only return: the controller of [resume] *)

Lemma deliver_nil (x : Execution) : deliver [] x = x.
Proof. destruct x. unfold deliver. cbn. now rewrite app_nil_r. Qed.

Lemma deliver_deliver (a b : list Delivery) (x : Execution) :
  deliver b (deliver a x) = deliver (a ++ b) x.
Proof. unfold deliver. cbn. now rewrite app_assoc. Qed.

Lemma afterCalls_nil (x : Execution) : afterCalls [] x = x.
Proof.
  destruct x as [ps h ab t [hd he hr] p ds]. unfold afterCalls. cbn.
  now rewrite orb_false_r, !app_nil_r.
Qed.

Lemma callEach_inert (calls : list Delivery) (x : Execution) :
  callEach inert calls x = (deliver calls x, None).
Proof.
  revert x. induction calls as [|d calls IH]; intros x; cbn [callEach inert].
  - now rewrite deliver_nil.
  - now rewrite afterCalls_nil, IH, deliver_deliver.
Qed.

(** With callbacks that only return, a resumption is [resume]. *)
Lemma resumeWith_inert (closes : bool) (be : Backend) (x : Execution) :
  resumeWith inert closes be x = resume be x.
Proof.
  unfold resumeWith, tryBlock, catchBlock, resume, fail.
  destruct (phase x) as [|[e|parts ending]|[|part rest] [|e]| | |e];
    rewrite ?callEach_inert; try reflexivity.
  - destruct (startChat be (call_params x) (handler x)) as [[request|e] h'];
      [reflexivity|].
    now rewrite callEach_inert.
  - now destruct (negb (isAborted x)).
  - destruct (isAborted x); [reflexivity|].
    now destruct (truthy_string (responseText part)).
  - destruct (isAborted x); [reflexivity|].
    now destruct (truthy_string (responseText part)).
Qed.

Lemma runWith_cons (callbacks : Callbacks) (closes : bool) (be : Backend)
    (x : Execution) (a : Action) (s : list Action) :
  runWith callbacks closes be x (a :: s)
  = runWith callbacks closes be (stepWith callbacks closes be x a) s.
Proof. reflexivity. Qed.

Lemma runWith_app (callbacks : Callbacks) (closes : bool) (be : Backend)
    (x : Execution) (s1 s2 : list Action) :
  runWith callbacks closes be x (s1 ++ s2)
  = runWith callbacks closes be (runWith callbacks closes be x s1) s2.
Proof. unfold runWith. apply fold_left_app. Qed.

(** With callbacks that only return, a run is a run of [run]. *)
Lemma runWith_inert (closes : bool) (be : Backend) (schedule : list Action)
    (x : Execution) :
  runWith inert closes be x schedule = run be x schedule.
Proof.
  revert x. induction schedule as [|a schedule IH]; intros x; [reflexivity|].
  rewrite runWith_cons, run_cons, IH.
  destruct a as [op|]; [reflexivity|].
  cbn [stepWith step]. now rewrite resumeWith_inert.
Qed.

(** *** What [forEach] calls *)

(** [forEach] calls the callbacks in order, up to and including the first
    that throws; every callback is called if none throws. *)
Lemma callEach_calls (callbacks : Callbacks) (f : nat -> Delivery)
    (cbs : list nat) (x : Execution) :
  exists called rest,
    cbs = called ++ rest
    /\ delivered (fst (callEach callbacks (map f cbs) x))
       = delivered x ++ map f called
    /\ phase (fst (callEach callbacks (map f cbs) x)) = phase x
    /\ (snd (callEach callbacks (map f cbs) x) = None -> rest = [])
    /\ (forall e,
          snd (callEach callbacks (map f cbs) x) = Some e ->
          lastThrew callbacks (delivered x) (map f called) e).
Proof.
  revert x. induction cbs as [|cb cbs IH]; intros x.
  - exists [], []. cbn. rewrite app_nil_r.
    repeat split; try reflexivity. intros e He. discriminate.
  - cbn [map callEach].
    destruct (callbacks (delivered x) (f cb)) as [ops [e|]] eqn:Hcb.
    + exists [cb], cbs. cbn [fst snd map].
      split; [reflexivity|]. split; [reflexivity|]. split; [reflexivity|].
      split; [intros H; discriminate|].
      intros e' He'. injection He' as <-.
      exists [], (f cb). split; [reflexivity|].
      rewrite app_nil_r. now exists ops.
    + destruct (IH (afterCalls ops (deliver [f cb] x)))
        as [called [rest [Hc [Hd [Hp [Hn Ht]]]]]].
      exists (cb :: called), rest.
      split; [now rewrite Hc|].
      split; [rewrite Hd; cbn; now rewrite <- app_assoc|].
      split; [rewrite Hp; reflexivity|].
      split; [exact Hn|].
      intros e He. destruct (Ht e He) as [earlier [d [Hm [ops' Hthrew]]]].
      exists (f cb :: earlier), d. split; [cbn; now rewrite Hm|].
      exists ops'. rewrite <- Hthrew. f_equal.
      cbn. now rewrite <- app_assoc.
Qed.

(** The [catch] block adds error calls to what was delivered, one per
    error callback, in order, up to and including the first that
    throws. *)
Lemma catchBlock_calls (callbacks : Callbacks) (e : Error) (x : Execution) :
  exists called rest,
    h_error (handlers x) = called ++ rest
    /\ delivered (catchBlock callbacks e x)
       = delivered x ++ map (fun cb => ErrorCall cb e) called
    /\ phase (catchBlock callbacks e x) = Failed e
    /\ (rest <> [] ->
        exists e',
          lastThrew callbacks (delivered x)
                    (map (fun cb => ErrorCall cb e) called) e').
Proof.
  destruct (callEach_calls callbacks (fun cb => ErrorCall cb e)
                           (h_error (handlers x)) x)
    as [called [rest [Hc [Hd [_ [Hn Ht]]]]]].
  exists called, rest. split; [exact Hc|]. split; [exact Hd|].
  split; [reflexivity|].
  intros Hrest.
  destruct (snd (callEach callbacks
                   (map (fun cb => ErrorCall cb e) (h_error (handlers x)))
                   x)) as [e'|].
  - exists e'. now apply Ht.
  - now destruct Hrest; apply Hn.
Qed.

(** *** The shape of what is delivered *)

Lemma shapedWith_call (callbacks : Callbacks) (op : HandleOp)
    (x : Execution) :
  shapedWith callbacks x -> shapedWith callbacks (call op x).
Proof.
  unfold shapedWith. now rewrite call_phase, call_delivered.
Qed.

Lemma shapedWith_catchBlock (callbacks : Callbacks) (e : Error)
    (x : Execution) (datas ends : list Delivery) :
  delivered x = datas ++ ends ->
  forallb isDataCall datas = true ->
  forallb isEndCall ends = true ->
  ends = [] \/ lastThrew callbacks datas ends e ->
  shapedWith callbacks (catchBlock callbacks e x).
Proof.
  intros Hd Hdatas Hends Hthrew.
  destruct (catchBlock_calls callbacks e x)
    as [called [rest [_ [Hd' [Hp _]]]]].
  unfold shapedWith. rewrite Hp.
  exists datas, ends, (map (fun cb => ErrorCall cb e) called).
  split; [now rewrite Hd', Hd, <- app_assoc|].
  split; [exact Hdatas|]. split; [exact Hends|].
  split; [apply forallb_error_calls | exact Hthrew].
Qed.

Lemma shapedWith_resumeWith (callbacks : Callbacks) (closes : bool)
    (be : Backend) (x : Execution) :
  shapedWith callbacks x ->
  shapedWith callbacks (resumeWith callbacks closes be x).
Proof.
  intros Hx. unfold resumeWith, tryBlock.
  destruct (phase x) as [|[e|parts ending]|[|part rest] ending| | |e] eqn:Hp;
    unfold shapedWith in Hx; rewrite Hp in Hx.
  - destruct (startChat be (call_params x) (handler x))
      as [[request|e] h'].
    + exact Hx.
    + apply (shapedWith_catchBlock callbacks e _ (delivered x) []);
        [cbn; now rewrite app_nil_r | exact Hx | reflexivity | now left].
  - apply (shapedWith_catchBlock callbacks e _ (delivered x) []);
      [now rewrite app_nil_r | exact Hx | reflexivity | now left].
  - exact Hx.
  - destruct ending as [|e].
    + destruct (isAborted x); cbn [negb]; [exact Hx|].
      destruct (callEach_calls callbacks (fun cb => EndCall cb (fullText x))
                               (h_end (handlers x)) x)
        as [called [rest [_ [Hd [_ [_ Ht]]]]]].
      destruct (callEach callbacks
                  (map (fun cb => EndCall cb (fullText x))
                       (h_end (handlers x))) x) as [x' [e|]];
        cbn [fst snd] in Hd, Ht.
      * apply (shapedWith_catchBlock
                 callbacks e _ (delivered x)
                 (map (fun cb => EndCall cb (fullText x)) called));
          [exact Hd | exact Hx | apply forallb_end_calls|].
        right. now apply Ht.
      * unfold shapedWith. cbn [phase set_phase delivered].
        exists (delivered x),
               (map (fun cb => EndCall cb (fullText x)) called).
        split; [exact Hd|]. split; [exact Hx | apply forallb_end_calls].
    + apply (shapedWith_catchBlock callbacks e _ (delivered x) []);
        [now rewrite app_nil_r | exact Hx | reflexivity | now left].
  - destruct (isAborted x); [exact Hx|].
    destruct (truthy_string (responseText part)); [|exact Hx].
    destruct (callEach_calls
                callbacks
                (fun cb => DataCall cb (responseText part)
                                    (fullText x +:+ responseText part))
                (h_data (handlers x))
                (set_fullText (fullText x +:+ responseText part) x))
      as [called [rest' [_ [Hd _]]]].
    destruct (callEach callbacks
                (map (fun cb => DataCall cb (responseText part)
                                         (fullText x +:+ responseText part))
                     (h_data (handlers x)))
                (set_fullText (fullText x +:+ responseText part) x))
      as [x' [e|]];
      cbn [fst snd set_fullText delivered] in Hd.
    + assert (Hall : forallb isDataCall (delivered x') = true)
        by now rewrite Hd, forallb_app, Hx, forallb_data_calls.
      destruct closes.
      * exact Hall.
      * apply (shapedWith_catchBlock callbacks e _ (delivered x') []);
          [now rewrite app_nil_r | exact Hall | reflexivity | now left].
    + unfold shapedWith. cbn [phase set_phase delivered].
      now rewrite Hd, forallb_app, Hx, forallb_data_calls.
  - unfold shapedWith. now rewrite Hp.
  - unfold shapedWith. now rewrite Hp.
  - unfold shapedWith. now rewrite Hp.
Qed.

Lemma shapedWith_runWith (callbacks : Callbacks) (closes : bool)
    (be : Backend) (schedule : list Action) (x : Execution) :
  shapedWith callbacks x ->
  shapedWith callbacks (runWith callbacks closes be x schedule).
Proof.
  revert x. induction schedule as [|a schedule IH]; intros x Hx; [exact Hx|].
  rewrite runWith_cons. apply IH.
  destruct a as [op|];
    [now apply shapedWith_call | now apply shapedWith_resumeWith].
Qed.


Lemma throwingRun_delivered (closes : bool) :
  delivered (throwingRun closes)
  = [DataCall 0%nat "a" "a"; EndCall 1%nat "a";
     ErrorCall 3%nat (Err "end callback failed")].
Proof. destruct closes; reflexivity. Qed.

(** X18: data first, then end, then error.  Whatever the backend
    answers, whatever the caller does with the handle and whatever the
    callbacks do (they may call the handle while they run, and they may
    throw), the calls made by an execution are data calls, then end
    calls, then error calls.  End calls are only there once the execution
    is completed, with no error call after them, or once it has failed
    with the error that the last end call threw; error calls are only
    there once the execution has failed.  End and error are both
    delivered by the run [throwingRun], whose first end callback
    throws. *)
Theorem deliveries_are_data_end_error :
  (forall (callbacks : Callbacks) (closes : bool) (be : Backend)
          (params : IAIProvidersExecuteParams) (h : Handler)
          (schedule : list Action),
      let final :=
        runWith callbacks closes be (execute params h) schedule in
      exists datas ends errors,
        delivered final = datas ++ ends ++ errors
        /\ forallb isDataCall datas = true
        /\ forallb isEndCall ends = true
        /\ forallb isErrorCall errors = true
        /\ (ends = []
            \/ (phase final = Completed /\ errors = [])
            \/ exists e,
                 phase final = Failed e
                 /\ lastThrew callbacks datas ends e)
        /\ (errors = [] \/ exists e, phase final = Failed e))
  /\ (forall closes : bool,
         delivered (throwingRun closes)
         = [DataCall 0%nat "a" "a"; EndCall 1%nat "a";
            ErrorCall 3%nat (Err "end callback failed")]).
Proof.
  split; [|exact throwingRun_delivered].
  intros callbacks closes be params h schedule final.
  assert (Hs : shapedWith callbacks final)
    by (apply shapedWith_runWith; reflexivity).
  unfold shapedWith in Hs.
  destruct (phase final) as [|r|rest ending| | |e] eqn:Hp;
    try (exists (delivered final), [], []; rewrite !app_nil_r;
         split; [reflexivity|]; split; [exact Hs|];
         split; [reflexivity|]; split; [reflexivity|];
         split; now left).
  - destruct Hs as [datas [ends [Hd [Hdatas Hends]]]].
    exists datas, ends, []. rewrite app_nil_r.
    split; [exact Hd|]. split; [exact Hdatas|]. split; [exact Hends|].
    split; [reflexivity|]. split; [|now left].
    right. left. split; reflexivity.
  - destruct Hs as [datas [ends [errors [Hd [Hdatas [Hends [Herrs Ht]]]]]]].
    exists datas, ends, errors.
    split; [exact Hd|]. split; [exact Hdatas|]. split; [exact Hends|].
    split; [exact Herrs|]. split; [|right; now exists e].
    destruct Ht as [Ht|Ht]; [now left|].
    right. right. exists e. split; [reflexivity | exact Ht].
Qed.

Lemma deliveries_are_data_end_error_witness :
  exists datas ends errors,
    delivered (throwingRun false) = datas ++ ends ++ errors
    /\ forallb isDataCall datas = true
    /\ forallb isEndCall ends = true
    /\ forallb isErrorCall errors = true
    /\ (ends = []
        \/ (phase (throwingRun false) = Completed /\ errors = [])
        \/ exists e,
             phase (throwingRun false) = Failed e
             /\ lastThrew firstEndThrows datas ends e)
    /\ (errors = [] \/ exists e, phase (throwingRun false) = Failed e).
Proof.
  exact (proj1 deliveries_are_data_end_error
               firstEndThrows false
               (streamingBackend [textPart "a"] EndsCleanly)
               (promptParams "hello") new_handler throwingSchedule).
Defined.

(** *** The resumption that ends an execution *)









(** ** The streaming controller: any stream *)

(** One part of the stream, whatever it carries. *)
Lemma resume_part (be : Backend) (ps : IAIProvidersExecuteParams)
    (h : Handler) (t : string) (hs : Handlers)
    (part : ExtendedChatResponse) (rest : list ExtendedChatResponse)
    (ending : StreamEnding) (ds : list Delivery) :
  resume be
    {| call_params := ps; handler := h; isAborted := false; fullText := t;
       handlers := hs; phase := Streaming (part :: rest) ending;
       delivered := ds |}
  = {| call_params := ps; handler := h; isAborted := false;
       fullText := joined t (chunkTexts [part]); handlers := hs;
       phase := Streaming rest ending;
       delivered :=
         ds ++ dataCalls (h_data hs) (running t (chunkTexts [part])) |}.
Proof.
  unfold resume, chunkTexts, joined, dataCalls.
  cbn [phase isAborted map List.filter].
  destruct (truthy_string (responseText part)); cbn.
  - now rewrite app_nil_r.
  - now rewrite app_nil_r.
Qed.

Lemma chunkTexts_cons (part : ExtendedChatResponse)
    (parts : list ExtendedChatResponse) :
  chunkTexts (part :: parts) = chunkTexts [part] ++ chunkTexts parts.
Proof.
  unfold chunkTexts. cbn [map List.filter].
  destruct (truthy_string (responseText part)); reflexivity.
Qed.

Lemma running_app (t : string) (xs ys : list string) :
  running t (xs ++ ys) = running t xs ++ running (joined t xs) ys.
Proof.
  revert t. induction xs as [|x xs IH]; intros t; [reflexivity|].
  cbn [app running]. now rewrite IH.
Qed.

Lemma joined_app (t : string) (xs ys : list string) :
  joined t (xs ++ ys) = joined (joined t xs) ys.
Proof. unfold joined. apply fold_left_app. Qed.

Lemma dataCalls_app (cbs : list nat) (xs ys : list (string * string)) :
  dataCalls cbs (xs ++ ys) = dataCalls cbs xs ++ dataCalls cbs ys.
Proof. unfold dataCalls. apply flat_map_app. Qed.

(** The parts of a stream, consumed one per resumption. *)
Lemma run_stream (be : Backend) (ps : IAIProvidersExecuteParams)
    (h : Handler) (hs : Handlers) (ending : StreamEnding)
    (parts : list ExtendedChatResponse) (t : string) (ds : list Delivery) :
  run be
    {| call_params := ps; handler := h; isAborted := false; fullText := t;
       handlers := hs; phase := Streaming parts ending; delivered := ds |}
    (List.repeat Resume (length parts))
  = {| call_params := ps; handler := h; isAborted := false;
       fullText := joined t (chunkTexts parts); handlers := hs;
       phase := Streaming [] ending;
       delivered :=
         ds ++ dataCalls (h_data hs) (running t (chunkTexts parts)) |}.
Proof.
  revert t ds. induction parts as [|part parts IH]; intros t ds.
  - cbn. now rewrite app_nil_r.
  - cbn [length List.repeat]. rewrite run_cons. cbn [step].
    rewrite resume_part, IH.
    rewrite (chunkTexts_cons part parts), joined_app, running_app,
      dataCalls_app, <- app_assoc.
    reflexivity.
Qed.

(** The end of the stream. *)
Lemma resume_stream_end (be : Backend) (ps : IAIProvidersExecuteParams)
    (h : Handler) (t : string) (hs : Handlers) (ending : StreamEnding)
    (ds : list Delivery) :
  resume be
    {| call_params := ps; handler := h; isAborted := false; fullText := t;
       handlers := hs; phase := Streaming [] ending; delivered := ds |}
  = {| call_params := ps; handler := h; isAborted := false; fullText := t;
       handlers := hs; phase := closingPhase ending;
       delivered := ds ++ closingCalls ending t (h_end hs) (h_error hs) |}.
Proof. destruct ending; reflexivity. Qed.

(** X20: any stream, to its end.  When the chat call answers with a
    stream and [abort()] is not called, then after one resumption per
    part and one more, with the callbacks registered before the first
    part: each part with a non-empty text has been delivered, in stream
    order, to every data callback with the text accumulated so far; then
    every end callback has received the whole text if the stream ended
    cleanly, or every error callback the error if the stream raised one;
    parts without text are skipped. *)
Theorem stream_is_delivered_in_order :
  forall (be : Backend) (params : IAIProvidersExecuteParams)
         (h h' : Handler) (request : ChatRequest)
         (parts : list ExtendedChatResponse) (ending : StreamEnding)
         (ops0 ops1 ops2 : list HandleOp),
    existsb isAbort (ops0 ++ ops1 ++ ops2) = false ->
    startChat be params h = (Returned request, h') ->
    b_chat be (host_of (x_provider params)) request
    = ChatStreams parts ending ->
    let final :=
      run be (execute params h)
          (streamSchedule ops0 ops1 ops2 (S (length parts))) in
    let subscribers := ops0 ++ ops1 ++ ops2 in
    delivered final
    = dataCalls (dataSubscribers subscribers)
                (running "" (chunkTexts parts))
      ++ closingCalls ending (joined "" (chunkTexts parts))
                      (endSubscribers subscribers)
                      (errorSubscribers subscribers)
    /\ fullText final = joined "" (chunkTexts parts)
    /\ phase final = closingPhase ending.
Proof.
  intros be params h h' request parts ending ops0 ops1 ops2 Hab Hstart
         Hchat final subscribers.
  assert (Hfinal :
    final
    = {| call_params := params; handler := h'; isAborted := false;
         fullText := joined "" (chunkTexts parts);
         handlers := {| h_data := dataSubscribers subscribers;
                        h_end := endSubscribers subscribers;
                        h_error := errorSubscribers subscribers |};
         phase := closingPhase ending;
         delivered :=
           dataCalls (dataSubscribers subscribers)
                     (running "" (chunkTexts parts))
           ++ closingCalls ending (joined "" (chunkTexts parts))
                           (endSubscribers subscribers)
                           (errorSubscribers subscribers) |}).
  { subst final subscribers. unfold streamSchedule.
    replace (map Call ops0 ++ [Resume] ++ map Call ops1 ++ [Resume]
             ++ map Call ops2 ++ List.repeat Resume (S (length parts)))
      with ((map Call ops0 ++ [Resume] ++ map Call ops1)
            ++ [Resume] ++ map Call ops2
            ++ List.repeat Resume (length parts) ++ [Resume]).
    2:{ rewrite <- !app_assoc. do 5 f_equal.
        change (S (length parts)) with (1 + length parts)%nat.
        rewrite (Nat.add_comm 1), repeat_app. reflexivity. }
    rewrite run_app, (run_to_chat be params h h' request ops0 ops1 Hstart).
    rewrite Hchat, !run_app.
    unfold run at 4. cbn [fold_left step].
    rewrite resume_chat_resolved, run_calls, afterCalls_record.
    rewrite <- existsb_app, <- app_assoc, Hab.
    rewrite run_stream.
    unfold run. cbn [fold_left step].
    rewrite resume_stream_end. cbn [h_data h_end h_error app].
    unfold dataSubscribers, endSubscribers, errorSubscribers.
    rewrite <- !flat_map_app, <- !app_assoc. reflexivity. }
  rewrite Hfinal. repeat split; reflexivity.
Qed.

Lemma stream_is_delivered_in_order_witness :
  delivered
    (run (streamingBackend
            [textPart "a"; {| message := None |}; textPart "b"]
            (Raises (Err "connection reset")))
         (execute (promptParams "hello") new_handler)
         (streamSchedule [onData 1%nat; onError 2%nat] [onEnd 3%nat] []
                         4))
  = [DataCall 1%nat "a" "a"; DataCall 1%nat "b" "ab";
     ErrorCall 2%nat (Err "connection reset")].
Proof.
  refine (proj1 (stream_is_delivered_in_order
                   (streamingBackend
                      [textPart "a"; {| message := None |}; textPart "b"]
                      (Raises (Err "connection reset")))
                   (promptParams "hello") new_handler _ _
                   [textPart "a"; {| message := None |}; textPart "b"]
                   (Raises (Err "connection reset"))
                   [onData 1%nat; onError 2%nat] [onEnd 3%nat] []
                   eq_refl eq_refl eq_refl)).
Defined.

(** X21: [abort()] during the stream.  When [abort()] is called while
    parts remain, or the stream is about to end cleanly, the next
    resumption stops the execution as aborted: nothing is delivered then
    or later, and the text stays as it was. *)
Theorem abort_stops_the_stream :
  forall (be : Backend) (x : Execution)
         (rest : list ExtendedChatResponse) (ending : StreamEnding)
         (schedule : list Action),
    phase x = Streaming rest ending ->
    rest <> [] \/ ending = EndsCleanly ->
    let final := run be x (Call abort :: Resume :: schedule) in
    phase final = Aborted
    /\ delivered final = delivered x
    /\ fullText final = fullText x.
Proof.
  intros be x rest ending schedule Hp Hrest final. subst final.
  rewrite !run_cons. cbn [step].
  assert (Hstop :
    resume be (call abort x) = set_phase Aborted (call abort x)).
  { unfold resume. cbn [call phase set_isAborted isAborted]. rewrite Hp.
    destruct rest as [|part rest]; [|reflexivity].
    destruct Hrest as [Hrest| ->]; [contradiction | reflexivity]. }
  rewrite Hstop.
  destruct (run_terminal be schedule (set_phase Aborted (call abort x))
                         eq_refl) as [-> [-> [-> _]]].
  repeat split; reflexivity.
Qed.

Lemma abort_stops_the_stream_witness :
  let be := streamingBackend [textPart "a"; textPart "b"] EndsCleanly in
  let x :=
    run be (execute (promptParams "hello") new_handler)
        [Call (onData 1%nat); Call (onEnd 2%nat); Resume; Resume; Resume] in
  delivered (run be x (Call abort :: Resume :: [Resume; Resume]))
  = [DataCall 1%nat "a" "a"].
Proof.
  cbv zeta.
  refine (proj1 (proj2
            (abort_stops_the_stream
               (streamingBackend [textPart "a"; textPart "b"] EndsCleanly)
               (run (streamingBackend [textPart "a"; textPart "b"]
                                      EndsCleanly)
                    (execute (promptParams "hello") new_handler)
                    [Call (onData 1%nat); Call (onEnd 2%nat);
                     Resume; Resume; Resume])
               [textPart "b"] EndsCleanly [Resume; Resume]
               eq_refl (or_introl _)))).
  discriminate.
Defined.

(** ** The cache under [execute] *)

Lemma startChat_keeps_cache
    (be : Backend) (params : IAIProvidersExecuteParams) (h : Handler) :
  cacheOk (modelInfoCache h) ->
  cacheOk (modelInfoCache (snd (startChat be params h)))
  /\ cacheGrows (modelInfoCache h)
                (modelInfoCache (snd (startChat be params h))).
Proof.
  intros Hok.
  destruct (getCachedModelInfo_post
              be (x_provider params) (model_of (x_provider params)) h Hok)
    as [info [h1 [Hinfo [Hentry [Hkey [Hok1 Hgrow1]]]]]].
  destruct (normalize params) as [[chatMessages [|i rest]]|e] eqn:Hn.
  - pose proof (prepareChat_text params (Some info) h1 _ Hn) as Hprep.
    cbv zeta in Hprep.
    rewrite (startChat_prepared _ _ _ _ _ _ _ Hinfo Hprep).
    cbn [snd modelInfoCache from_option].
    destruct (update_after_decision
                (x_provider params) (model_of (x_provider params))
                (Len (fold_left
                        (fun acc msg => acc + str_length (content msg))
                        chatMessages 0))
                DEFAULT_CONTEXT_LENGTH
                (num_or (contextLength info) DEFAULT_CONTEXT_LENGTH)
                info h1 Hentry (or_intror eq_refl) Hkey Hok1)
      as [h2 [Hupd [_ [Hok2 Hgrow2]]]].
    rewrite Hupd. cbn [snd].
    split; [exact Hok2 | exact (cacheGrows_trans _ _ _ Hgrow1 Hgrow2)].
  - pose proof (prepareChat_with_images
                  params (Some info) h1 _ _ Hn ltac:(discriminate))
      as Hprep.
    rewrite (startChat_prepared _ _ _ _ _ _ _ Hinfo Hprep).
    cbn [snd modelInfoCache]. split; [exact Hok1 | exact Hgrow1].
  - rewrite (startChat_invalid be params h h1 info e Hinfo Hn).
    cbn [snd]. split; [exact Hok1 | exact Hgrow1].
Qed.

Lemma step_keeps_cache (be : Backend) (x : Execution) (a : Action) :
  cacheOk (modelInfoCache (handler x)) ->
  cacheOk (modelInfoCache (handler (step be x a)))
  /\ cacheGrows (modelInfoCache (handler x))
                (modelInfoCache (handler (step be x a))).
Proof.
  intros Hok. destruct a as [op|]; cbn [step].
  - destruct op; cbn; split; try exact Hok; apply cacheGrows_refl.
  - unfold resume.
    destruct (phase x) as [|[e|parts ending]|[|part rest] ending| | |e];
      try (cbn; split; [exact Hok | apply cacheGrows_refl]).
    + pose proof (startChat_keeps_cache be (call_params x) (handler x) Hok)
        as Hkeep.
      destruct (startChat be (call_params x) (handler x))
        as [[request|e] h']; exact Hkeep.
    + destruct ending as [|e];
        [destruct (isAborted x)|];
        cbn; (split; [exact Hok | apply cacheGrows_refl]).
    + destruct (isAborted x);
        [|destruct (truthy_string (responseText part))];
        cbn; (split; [exact Hok | apply cacheGrows_refl]).
Qed.

(** X22: [execute] keeps the cache sound and only lets it grow.  From a
    handler whose cache entries are sound, whatever the backend answers
    and whatever the caller does with the handle, the cache has sound
    entries at every point of the execution, and every entry that was
    cached at the start is still cached, with the same context length and
    a last context length that is not smaller. *)
Theorem execute_keeps_cache :
  forall (be : Backend) (params : IAIProvidersExecuteParams) (h : Handler)
         (schedule : list Action),
    cacheOk (modelInfoCache h) ->
    cacheOk (modelInfoCache (handler (run be (execute params h) schedule)))
    /\ cacheGrows
         (modelInfoCache h)
         (modelInfoCache (handler (run be (execute params h) schedule))).
Proof.
  intros be params h schedule Hok.
  assert (Hgen : forall x,
    cacheOk (modelInfoCache (handler x)) ->
    cacheOk (modelInfoCache (handler (run be x schedule)))
    /\ cacheGrows (modelInfoCache (handler x))
                  (modelInfoCache (handler (run be x schedule)))).
  { induction schedule as [|a schedule IH]; intros x Hx.
    - split; [exact Hx | apply cacheGrows_refl].
    - rewrite run_cons.
      destruct (step_keeps_cache be x a Hx) as [Hok1 Hgrow1].
      destruct (IH _ Hok1) as [Hok2 Hgrow2].
      split; [exact Hok2 | exact (cacheGrows_trans _ _ _ Hgrow1 Hgrow2)]. }
  exact (Hgen (execute params h) Hok).
Qed.

Lemma execute_keeps_cache_witness :
  let h :=
    snd (embed (streamingBackend [] EndsCleanly) (textParams "hello")
               new_handler) in
  cacheOk
    (modelInfoCache
       (handler
          (run (streamingBackend [textPart "a"] EndsCleanly)
               (execute (promptParams (Str.repeat "x" (Z.to_nat 6000))) h)
               [Resume; Resume; Resume; Resume])))
  /\ cacheGrows
       (modelInfoCache h)
       (modelInfoCache
          (handler
             (run (streamingBackend [textPart "a"] EndsCleanly)
                  (execute (promptParams (Str.repeat "x" (Z.to_nat 6000))) h)
                  [Resume; Resume; Resume; Resume]))).
Proof.
  cbv zeta. apply execute_keeps_cache.
  intros k info Hk.
  destruct (decide (k = cacheKey localProvider "llama3")) as [->|Hne].
  - vm_compute in Hk. injection Hk as <-. split; [cbn; lia|].
    left. reflexivity.
  - exfalso. revert Hk.
    change (modelInfoCache
              (snd (embed (streamingBackend [] EndsCleanly)
                          (textParams "hello") new_handler)))
      with (<[cacheKey localProvider "llama3" :=
                {| contextLength := 8192; lastContextLength := 2048 |}]>
              (∅ : gmap string ModelInfo)).
    rewrite lookup_insert_ne by congruence. rewrite lookup_empty.
    discriminate.
Defined.

(** ** Repeating a request *)

(** After an update the optimizer decides the same size again, and no
    further update. *)
Lemma optimizeContext_settled (len : JsLength) (last def limit t : Z) :
  def <= last ->
  shouldUpdate (optimizeContext len last def limit) = true ->
  num_ctx (optimizeContext len last def limit) = Some t ->
  optimizeContext len t def limit
  = {| num_ctx := Some t; shouldUpdate := false |}.
Proof.
  intros Hdef Hs Ht.
  destruct len as [|n]; [discriminate Hs|].
  destruct (Z_le_gt_dec (estimate n) last) as [Hle|Hgt].
  { rewrite optimizeContext_small in Hs by exact Hle. discriminate. }
  rewrite optimizeContext_large in Hs, Ht by exact Hgt.
  cbn [num_ctx shouldUpdate] in Hs, Ht. injection Ht as Ht.
  apply Z.gtb_gt in Hs. rewrite Ht in Hs.
  destruct (Z_le_gt_dec (estimate n) t) as [Hle'|Hgt'].
  - rewrite optimizeContext_small by exact Hle'.
    destruct (Z.gtb_spec t def); [reflexivity | lia].
  - rewrite optimizeContext_large by exact Hgt'. rewrite Ht.
    destruct (Z.gtb_spec t t); [lia | reflexivity].
Qed.

(** The entry left by the update makes the optimizer decide the same
    size, without update. *)
Lemma update_settles
    (provider : IAIProvider) (modelName : string) (len : JsLength)
    (limit : Z) (info : ModelInfo) (h : Handler) :
  entryOk info ->
  modelInfoCache h !! cacheKey provider modelName = Some info ->
  let decision :=
    optimizeContext len
      (num_or (lastContextLength info) DEFAULT_CONTEXT_LENGTH)
      DEFAULT_CONTEXT_LENGTH limit in
  let h' :=
    snd ((if shouldUpdate decision
          then setModelInfoLastContextLength provider modelName
                                             (num_ctx decision)
          else ret tt) h) in
  exists info',
    modelInfoCache h' !! cacheKey provider modelName = Some info'
    /\ contextLength info' = contextLength info
    /\ num_ctx
         (optimizeContext len
            (num_or (lastContextLength info') DEFAULT_CONTEXT_LENGTH)
            DEFAULT_CONTEXT_LENGTH limit)
       = num_ctx decision
    /\ shouldUpdate
         (optimizeContext len
            (num_or (lastContextLength info') DEFAULT_CONTEXT_LENGTH)
            DEFAULT_CONTEXT_LENGTH limit)
       = false.
Proof.
  intros [Hctx Hlast] Hk decision h'.
  assert (HL : num_or (lastContextLength info) DEFAULT_CONTEXT_LENGTH
               = lastContextLength info
               /\ DEFAULT_CONTEXT_LENGTH <= lastContextLength info).
  { unfold DEFAULT_CONTEXT_LENGTH in *.
    destruct (num_or_cases (lastContextLength info) 2048)
      as [[_ ->]|[H0 _]]; lia. }
  destruct HL as [HL Hge].
  destruct (shouldUpdate decision) eqn:Hs.
  2:{ exists info. subst h'. cbn [snd ret].
      split; [exact Hk|]. split; [reflexivity|].
      split; [reflexivity | exact Hs]. }
  destruct (shouldUpdate_target _ _ _ _ Hs) as [t [Ht [Hlt _]]].
  fold decision in Ht. subst h'. rewrite Ht.
  unfold setModelInfoLastContextLength, bind, cache_get, cache_set, ret.
  rewrite Hk. cbn [snd modelInfoCache].
  rewrite HL in Hlt.
  assert (Hnew : num_or t (lastContextLength info) = t).
  { destruct (num_or_cases t (lastContextLength info))
      as [[_ ->]|[H0 _]]; [reflexivity|].
    unfold DEFAULT_CONTEXT_LENGTH in *. lia. }
  rewrite Hnew. eexists. split; [apply lookup_insert_eq|].
  cbn [contextLength lastContextLength]. split; [reflexivity|].
  assert (Ht0 : num_or t DEFAULT_CONTEXT_LENGTH = t).
  { destruct (num_or_cases t DEFAULT_CONTEXT_LENGTH)
      as [[_ ->]|[H0 _]]; [reflexivity|].
    unfold DEFAULT_CONTEXT_LENGTH in *. lia. }
  rewrite Ht0.
  unfold decision in Hs, Ht. rewrite HL in Hs, Ht.
  rewrite (optimizeContext_settled len _ _ _ t Hge Hs Ht).
  split; reflexivity.
Qed.

(** [startChat] through what [getCachedModelInfo] returned. *)
Lemma startChat_via
    (be : Backend) (params : IAIProvidersExecuteParams) (h h1 : Handler)
    (info : ModelInfo) :
  getCachedModelInfo be (x_provider params) (model_of (x_provider params)) h
  = (Returned info, h1) ->
  fst (startChat be params h) = fst (prepareChat params (Some info) h1)
  /\ modelInfoCache (snd (startChat be params h))
     = modelInfoCache (snd (prepareChat params (Some info) h1)).
Proof.
  intros Hinfo. unfold startChat, bind, try_catch.
  rewrite Hinfo. cbn [ret].
  destruct (prepareChat params (Some info) h1) as [[request|e] h2];
    split; reflexivity.
Qed.

(** [prepareChat] reads the cache only under the key of the model. *)
Lemma prepareChat_settles
    (params : IAIProvidersExecuteParams) (info : ModelInfo) (h : Handler) :
  entryOk info ->
  modelInfoCache h
  !! cacheKey (x_provider params) (model_of (x_provider params))
  = Some info ->
  exists info',
    modelInfoCache (snd (prepareChat params (Some info) h))
    !! cacheKey (x_provider params) (model_of (x_provider params))
    = Some info'
    /\ forall h2,
         modelInfoCache h2
         = modelInfoCache (snd (prepareChat params (Some info) h)) ->
         fst (prepareChat params (Some info') h2)
         = fst (prepareChat params (Some info) h)
         /\ modelInfoCache (snd (prepareChat params (Some info') h2))
            = modelInfoCache h2.
Proof.
  intros Hentry Hk.
  destruct (normalize params) as [[chatMessages [|i rest]]|e] eqn:Hn.
  - pose proof (prepareChat_text params (Some info) h _ Hn) as Hprep.
    cbv zeta in Hprep. rewrite Hprep. cbn [fst snd from_option].
    destruct (update_settles
                (x_provider params) (model_of (x_provider params))
                (Len (fold_left
                        (fun acc msg => acc + str_length (content msg))
                        chatMessages 0))
                (num_or (contextLength info) DEFAULT_CONTEXT_LENGTH)
                info h Hentry Hk)
      as [info' [Hk' [Hctx' [Hsame Hstop]]]].
    exists info'. split; [exact Hk'|].
    intros h2 Hh2.
    pose proof (prepareChat_text params (Some info') h2 _ Hn) as Hprep'.
    cbv zeta in Hprep'. rewrite Hprep'. cbn [fst snd from_option].
    rewrite Hctx', Hstop, Hsame. split; reflexivity.
  - pose proof (prepareChat_with_images
                  params (Some info) h _ _ Hn ltac:(discriminate))
      as Hprep.
    rewrite Hprep. cbn [fst snd]. exists info. split; [exact Hk|].
    intros h2 Hh2.
    pose proof (prepareChat_with_images
                  params (Some info) h2 _ _ Hn ltac:(discriminate))
      as Hprep'.
    rewrite Hprep'. split; reflexivity.
  - unfold prepareChat. rewrite Hn. cbn [fst snd throw].
    exists info. split; [exact Hk|]. intros h2 _. split; reflexivity.
Qed.

(** The request prepared does not depend on the handler, and without an
    entry under the key nothing is recorded. *)
Lemma prepareChat_uncached
    (params : IAIProvidersExecuteParams) (modelInfo : option ModelInfo)
    (h : Handler) :
  (forall h2,
      fst (prepareChat params modelInfo h2)
      = fst (prepareChat params modelInfo h))
  /\ (modelInfoCache h
      !! cacheKey (x_provider params) (model_of (x_provider params))
      = None ->
      modelInfoCache (snd (prepareChat params modelInfo h))
      = modelInfoCache h).
Proof.
  destruct (normalize params) as [[chatMessages [|i rest]]|e] eqn:Hn.
  - pose proof (prepareChat_text params modelInfo h _ Hn) as Hprep.
    cbv zeta in Hprep. rewrite Hprep. cbn [fst snd]. split.
    + intros h2.
      pose proof (prepareChat_text params modelInfo h2 _ Hn) as Hprep'.
      cbv zeta in Hprep'. now rewrite Hprep'.
    + intros Hk.
      match goal with
      | |- context [shouldUpdate ?d] => destruct (shouldUpdate d)
      end; [|reflexivity].
      unfold setModelInfoLastContextLength, bind, cache_get, ret.
      now rewrite Hk.
  - pose proof (prepareChat_with_images
                  params modelInfo h _ _ Hn ltac:(discriminate)) as Hprep.
    rewrite Hprep. cbn [fst snd]. split; [|reflexivity].
    intros h2.
    pose proof (prepareChat_with_images
                  params modelInfo h2 _ _ Hn ltac:(discriminate)) as Hprep'.
    now rewrite Hprep'.
  - unfold prepareChat. rewrite Hn. split; reflexivity.
Qed.

Lemma getCachedModelInfo_fails
    (be : Backend) (provider : IAIProvider) (modelName : string)
    (h : Handler) :
  modelInfoCache h !! cacheKey provider modelName = None ->
  (exists e, b_show be (host_of provider) modelName = ShowThrows e)
  \/ b_show be (host_of provider) modelName = ShowAnswers None ->
  getCachedModelInfo be provider modelName h
  = (Returned getDefaultModelInfo,
     {| modelInfoCache := modelInfoCache h;
        issued := issued h ++ [CallShow (host_of provider) modelName] |}).
Proof.
  intros Hk Hshow.
  unfold getCachedModelInfo, bind, cache_get, try_catch, call_show, issue.
  rewrite Hk. cbn [modelInfoCache issued].
  destruct Hshow as [[e ->]| ->]; reflexivity.
Qed.

(** X23: a repeated request settles.  From a sound cache, when the same
    request is started a second time on the same backend, the second
    start gives the same outcome as the first (the same chat request,
    with the same messages and options, or the same error) and leaves
    the cache as the first start left it. *)
Theorem repeated_request_settles :
  forall (be : Backend) (params : IAIProvidersExecuteParams) (h : Handler),
    cacheOk (modelInfoCache h) ->
    let first := startChat be params h in
    let second := startChat be params (snd first) in
    fst second = fst first
    /\ modelInfoCache (snd second) = modelInfoCache (snd first).
Proof.
  intros be params h Hok first second. subst second first.
  set (provider := x_provider params).
  set (key := cacheKey provider (model_of provider)).
  assert (Hhit : forall h1 info,
    getCachedModelInfo be provider (model_of provider) h = (Returned info, h1)
    -> entryOk info
    -> modelInfoCache h1 !! key = Some info
    -> fst (startChat be params (snd (startChat be params h)))
       = fst (startChat be params h)
       /\ modelInfoCache
            (snd (startChat be params (snd (startChat be params h))))
          = modelInfoCache (snd (startChat be params h))).
  { intros h1 info Hinfo Hentry Hk.
    destruct (startChat_via be params h h1 info Hinfo) as [Hf Hc].
    destruct (prepareChat_settles params info h1 Hentry Hk)
      as [info' [Hk' Hnext]].
    fold provider in Hk'. fold key in Hk'. rewrite <- Hc in Hk'.
    pose proof (getCachedModelInfo_hit
                  be (snd (startChat be params h)) provider
                  (model_of provider) info' Hk') as Hinfo'.
    destruct (startChat_via be params _ _ info' Hinfo') as [Hf' Hc'].
    destruct (Hnext (snd (startChat be params h)) Hc) as [Hf2 Hc2].
    rewrite Hf', Hc', Hf. split; [exact Hf2 | exact Hc2]. }
  destruct (modelInfoCache h !! key) as [info|] eqn:Hk.
  - apply (Hhit h info).
    + now apply getCachedModelInfo_hit.
    + exact (Hok _ _ Hk).
    + exact Hk.
  - destruct (b_show be (host_of provider) (model_of provider))
      as [e|[entries|]] eqn:Hshow.
    2:{ pose proof (getCachedModelInfo_introspects
                      be h provider (model_of provider) entries Hk Hshow)
          as Hinfo.
        cbv zeta in Hinfo.
        eapply Hhit; [exact Hinfo | |].
        - destruct (getCachedModelInfo_cases
                      be provider (model_of provider) h)
            as [[i [Hc _]]|[[_ [i [Hi Hg]]]|[_ Hg]]].
          + fold key in Hc. congruence.
          + rewrite Hinfo in Hg. injection Hg as ->. exact Hi.
          + rewrite Hinfo in Hg. injection Hg as Hg _.
            rewrite Hg. apply entryOk_default.
        - cbn [modelInfoCache]. apply lookup_insert_eq. }
    all: assert (Hfail :
           (exists e, b_show be (host_of provider) (model_of provider)
                      = ShowThrows e)
           \/ b_show be (host_of provider) (model_of provider)
              = ShowAnswers None)
      by (rewrite Hshow; first [now left; eexists | now right]).
    all: pose proof (getCachedModelInfo_fails
                       be provider (model_of provider) h Hk Hfail)
      as Hinfo.
    all: destruct (startChat_via be params h _ _ Hinfo) as [Hf Hc].
    all: destruct (prepareChat_uncached
                     params (Some getDefaultModelInfo)
                     {| modelInfoCache := modelInfoCache h;
                        issued :=
                          issued h
                          ++ [CallShow (host_of provider)
                                       (model_of provider)] |})
      as [Hindep Hsame].
    all: specialize (Hsame Hk).
    all: assert (Hk1 :
           modelInfoCache (snd (startChat be params h)) !! key = None)
      by (rewrite Hc, Hsame; exact Hk).
    all: pose proof (getCachedModelInfo_fails
                       be provider (model_of provider)
                       (snd (startChat be params h)) Hk1 Hfail)
      as Hinfo1.
    all: destruct (startChat_via be params _ _ _ Hinfo1) as [Hf1 Hc1].
    all: destruct (prepareChat_uncached
                     params (Some getDefaultModelInfo)
                     {| modelInfoCache :=
                          modelInfoCache (snd (startChat be params h));
                        issued :=
                          issued (snd (startChat be params h))
                          ++ [CallShow (host_of provider)
                                       (model_of provider)] |})
      as [_ Hsame1].
    all: specialize (Hsame1 Hk1).
    all: rewrite Hf1, Hc1, Hsame1, Hf; split; [apply Hindep | reflexivity].
Qed.

Lemma repeated_request_settles_witness :
  let be := streamingBackend [] EndsCleanly in
  let params := promptParams (Str.repeat "x" (Z.to_nat 6000)) in
  let first := startChat be params new_handler in
  let second := startChat be params (snd first) in
  fst second = fst first
  /\ modelInfoCache (snd second) = modelInfoCache (snd first).
Proof.
  apply (repeated_request_settles
           (streamingBackend [] EndsCleanly)
           (promptParams (Str.repeat "x" (Z.to_nat 6000))) new_handler).
  intros k info Hk. cbn in Hk. rewrite lookup_empty in Hk. discriminate.
Defined.

(** X24: a request with images skips the optimizer.  Its only effect on
    the cache is that of the introspection: every entry cached before is
    cached unchanged afterwards, last context length included. *)
Theorem image_request_leaves_entries :
  forall (be : Backend) (params : IAIProvidersExecuteParams) (h : Handler)
         (chatMessages : list ChatMessage) (extractedImages : list string),
    normalize params = Returned (chatMessages, extractedImages) ->
    extractedImages <> [] ->
    modelInfoCache (snd (startChat be params h))
    = modelInfoCache
        (snd (getCachedModelInfo be (x_provider params)
                                 (model_of (x_provider params)) h))
    /\ forall k info,
         modelInfoCache h !! k = Some info ->
         modelInfoCache (snd (startChat be params h)) !! k = Some info.
Proof.
  intros be params h chatMessages extractedImages Hn Hne.
  assert (Hcache :
    modelInfoCache (snd (startChat be params h))
    = modelInfoCache
        (snd (getCachedModelInfo be (x_provider params)
                                 (model_of (x_provider params)) h))).
  { destruct (getCachedModelInfo_returns
                be (x_provider params) (model_of (x_provider params)) h)
      as [info [h1 Hinfo]].
    destruct (startChat_via be params h h1 info Hinfo) as [_ Hc].
    rewrite Hc, Hinfo.
    now rewrite (prepareChat_with_images _ _ _ _ _ Hn Hne). }
  split; [exact Hcache|].
  intros k info Hk. rewrite Hcache.
  destruct (getCachedModelInfo_cases
              be (x_provider params) (model_of (x_provider params)) h)
    as [[i [_ ->]]|[[Hmiss [i [_ ->]]]|[_ ->]]]; cbn [snd modelInfoCache].
  - exact Hk.
  - rewrite lookup_insert_ne; [exact Hk | congruence].
  - exact Hk.
Qed.

Lemma image_request_leaves_entries_witness :
  modelInfoCache (snd (startChat downBackend hiParams new_handler))
  = modelInfoCache
      (snd (getCachedModelInfo downBackend (x_provider hiParams)
                               (model_of (x_provider hiParams))
                               new_handler)).
Proof.
  refine (proj1 (image_request_leaves_entries
                   downBackend hiParams new_handler
                   [chatMessage "user" "hi"] ["data:image/png;base64,AAAA"]
                   eq_refl _)).
  discriminate.
Defined.
